(** * Monte Carlo Value-at-Risk: the engine of MCVaR_gui.py and MCVaR_Widgets.py

    A shallow embedding of the date arithmetic of the window widgets
    (MCVaR_Widgets.py) and of the calibration, simulation and estimation steps
    of [MCVaRApp.onClickRun] (MCVaR_gui.py), with the properties the
    specification states about them.

    Conventions.
    - A [datetime] at midnight is its proleptic Gregorian ordinal
      ([date.toordinal()]), a [Z] between 1 (0001-01-01) and 3652059
      (9999-12-31).  Arithmetic that leaves this range raises [OverflowError],
      as [datetime + timedelta] does.
    - A Python exception is a value of [exn]; a computation that may raise has
      type [result A].
    - A local variable that a loop body binds is an [option]: reading it while
      it is [None] raises [UnboundLocalError].
    - numpy and pandas floats are real numbers ([R]): rounding is not
      modelled.  Where the code depends on the special values (pandas skips
      NaN, the first percentage change is NaN, [norm.ppf] is infinite at a
      draw of 0.0) they are explicit constructors.  Where rounding decides
      between a result and an error, in the rank of the percentile, module
      [Binary64] has the operations rounded. *)

From Stdlib Require Import ZArith List Bool Lia Arith.
From Stdlib Require Import Reals Lra Sorting.Sorted Sorting.Permutation.
From Stdlib Require Ascii String.
Import ListNotations.

Set Implicit Arguments.

(** ** Exceptions *)

Inductive exn : Type :=
| UnboundLocalError
| OverflowError
| AttributeError
| ValueError
| IndexError.

Inductive result (A : Type) : Type :=
| Return (a : A)
| Raise (e : exn).

Arguments Return {A} a.
Arguments Raise {A} e.

Definition bind {A B : Type} (c : result A) (k : A -> result B) : result B :=
  match c with
  | Return a => k a
  | Raise e => Raise e
  end.

Notation "x <- c ;; k" := (bind c (fun x => k))
  (at level 61, c at next level, right associativity).
Notation "' pat <- c ;; k" := (bind c (fun x => match x with pat => k end))
  (at level 61, pat pattern, c at next level, right associativity).

(** [for x in xs: body], the loop state threaded through, an exception
    leaving the loop. *)
Fixpoint for_each {A S : Type} (xs : list A) (body : A -> S -> result S)
    (s : S) : result S :=
  match xs with
  | [] => Return s
  | x :: xs' => s' <- body x s ;; for_each xs' body s'
  end.

(** [range(lo, hi)] *)
Definition range (lo hi : Z) : list Z :=
  map (fun i => lo + Z.of_nat i)%Z (seq 0 (Z.to_nat (hi - lo))).

(** A computation that may also still be running when its iteration budget
    is spent ([None]). *)
Definition partial (A : Type) : Type := option (result A).

Definition pbind {A B : Type} (c : partial A) (k : A -> partial B)
    : partial B :=
  match c with
  | Some (Return a) => k a
  | Some (Raise e) => Some (Raise e)
  | None => None
  end.

Notation "x <~ c ;; k" := (pbind c (fun x => k))
  (at level 61, c at next level, right associativity).

(** Reading a local variable. *)
Definition read_local {A : Type} (v : option A) : result A :=
  match v with
  | Some a => Return a
  | None => Raise UnboundLocalError
  end.

(** ** Dates *)

Module Calendar.

Local Open Scope Z_scope.

Definition date := Z.

Definition MINORD : Z := 1.
Definition MAXORD : Z := 3652059.

Definition valid (d : date) : Prop := MINORD <= d <= MAXORD.

(** [d.weekday()]: Monday is 0 and Sunday is 6; ordinal 1 is a Monday. *)
Definition weekday (d : date) : Z := (d + 6) mod 7.

(** [d + timedelta(days = k)] *)
Definition add_days (d : date) (k : Z) : result date :=
  if (MINORD <=? d + k) && (d + k <=? MAXORD) then Return (d + k)
  else Raise OverflowError.

(** [HistWindowSelect.getWeekdaysOut] and [PredWindowSelect.getWeekdaysOut]
    (the two methods have the same body). *)
Definition getWeekdaysOut (start_date : date) (days_out : Z) : result date :=
  start_date <- (if weekday start_date =? 5 then add_days start_date 2
                 else Return start_date) ;;
  start_date <- (if weekday start_date =? 6 then add_days start_date 1
                 else Return start_date) ;;
  curr_date <- for_each (range 0 days_out)
    (fun i (curr_date : option date) =>
       curr_date <- (if i =? 0 then Return start_date
                     else read_local curr_date) ;;
       next_date <- add_days curr_date 1 ;;
       next_date <- (if weekday next_date =? 5 then add_days curr_date 3
                     else Return next_date) ;;
       Return (Some next_date))
    None ;;
  read_local curr_date.

(** [HistWindowSelect.getWeekdaysBack] *)
Definition getWeekdaysBack (start_date : date) (days_back : Z) : result date :=
  start_date <- (if weekday start_date =? 5 then add_days start_date (-1)
                 else Return start_date) ;;
  start_date <- (if weekday start_date =? 6 then add_days start_date (-2)
                 else Return start_date) ;;
  curr_date <- for_each (range 0 days_back)
    (fun i (curr_date : option date) =>
       curr_date <- (if i =? 0 then Return start_date
                     else read_local curr_date) ;;
       next_date <- add_days curr_date (-1) ;;
       next_date <- (if weekday next_date =? 6 then add_days curr_date (-3)
                     else Return next_date) ;;
       Return (Some next_date))
    None ;;
  read_local curr_date.

(** The [while curr_date != end_date] loop of [PredWindowSelect.getNumDays].
    [fuel] bounds the number of iterations; [None] is a loop still running
    when the fuel is spent. *)
Fixpoint getNumDays_loop (fuel : nat) (curr_date end_date : date) (days : Z)
    : partial Z :=
  if curr_date =? end_date then Some (Return days)
  else
    match fuel with
    | O => None
    | S fuel' =>
        match add_days curr_date 1 with
        | Raise e => Some (Raise e)
        | Return curr_date =>
            if weekday curr_date =? 5 then
              getNumDays_loop fuel' curr_date end_date days
            else if weekday curr_date =? 6 then
              getNumDays_loop fuel' curr_date end_date days
            else
              getNumDays_loop fuel' curr_date end_date (days + 1)
        end
    end.

(** [PredWindowSelect.getNumDays], the two dates read from the widget given
    as arguments. *)
Definition getNumDays (fuel : nat) (start_date end_date : date)
    : partial Z :=
  match (if weekday start_date =? 5 then add_days start_date 2
         else Return start_date) with
  | Raise e => Some (Raise e)
  | Return start_date =>
      match (if weekday start_date =? 6 then add_days start_date 1
             else Return start_date) with
      | Raise e => Some (Raise e)
      | Return start_date => getNumDays_loop fuel start_date end_date 0
      end
  end.

(** The weekend snap that opens [getWeekdaysOut] and [getNumDays], and the
    one of [onStartDateChange]: Saturday and Sunday go to the Monday after. *)
Definition nextBusinessDay (d : date) : date :=
  if weekday d =? 5 then d + 2 else if weekday d =? 6 then d + 1 else d.

(** The snap that opens [getWeekdaysBack]: the Friday before. *)
Definition previousBusinessDay (d : date) : date :=
  if weekday d =? 5 then d - 1 else if weekday d =? 6 then d - 2 else d.

Definition business (d : date) : Prop := 0 <= weekday d <= 4.

(** One pass of the loop body of [getWeekdaysOut] / [getWeekdaysBack]. *)
Definition step_out (d : date) : date :=
  if weekday (d + 1) =? 5 then d + 3 else d + 1.

Definition step_back (d : date) : date :=
  if weekday (d - 1) =? 6 then d - 3 else d - 1.

Fixpoint steps (f : date -> date) (n : nat) (d : date) : date :=
  match n with
  | O => d
  | S n' => steps f n' (f d)
  end.

End Calendar.

(** ** The historical window widget *)

Module Widgets.

Import Calendar.
Local Open Scope Z_scope.

(** The part of a [HistWindowSelect] that [setEndDateMinimum] reads and
    writes: the date of [deStart], the date and the range of [deEnd], and the
    arguments [end_signal] was emitted with, oldest first.  The slots
    connected to [end_signal] ([PredWindowSelect.setStart], connected in
    [MCVaRApp.initUI]) are the dependents; they are not part of the widget. *)
Record HistWindowSelect : Type := {
  deStart : date;
  deEnd : date;
  deEnd_minimum : date;
  deEnd_maximum : date;
  end_signal : list date
}.

Definition with_deEnd (d : date) (w : HistWindowSelect) : HistWindowSelect :=
  {| deStart := deStart w; deEnd := d;
     deEnd_minimum := deEnd_minimum w; deEnd_maximum := deEnd_maximum w;
     end_signal := end_signal w |}.

Definition with_range (lo hi : date) (w : HistWindowSelect)
    : HistWindowSelect :=
  {| deStart := deStart w; deEnd := deEnd w;
     deEnd_minimum := lo; deEnd_maximum := hi;
     end_signal := end_signal w |}.

(** [self.end_signal.emit(d)] *)
Definition emit (d : date) (w : HistWindowSelect) : HistWindowSelect :=
  {| deStart := deStart w; deEnd := deEnd w;
     deEnd_minimum := deEnd_minimum w; deEnd_maximum := deEnd_maximum w;
     end_signal := end_signal w ++ [d] |}.

(** Qt keeps the value of a spin box inside its range
    ([QAbstractSpinBoxPrivate::bound], no wrapping). *)
Definition bound (w : HistWindowSelect) (d : date) : date :=
  let d := if d <? deEnd_minimum w then deEnd_minimum w else d in
  if deEnd_maximum w <? d then deEnd_maximum w else d.

(** Storing a value in [deEnd]: Qt bounds it to the range and, when the date
    changed, fires [dateChanged], whose slot is [onEndDateChange]
    (connected in [HistWindowSelect.__init__]). *)
Definition deEnd_setValue (slot : HistWindowSelect -> partial HistWindowSelect)
    (d : date) (w : HistWindowSelect) : partial HistWindowSelect :=
  let v := bound w d in
  if v =? deEnd w then Some (Return w) else slot (with_deEnd v w).

(** [HistWindowSelect.onEndDateChange].  It stores a date in [deEnd] and so
    may be entered again from inside [setDate]; [fuel] bounds that nesting. *)
Fixpoint onEndDateChange (fuel : nat) (w : HistWindowSelect)
    : partial HistWindowSelect :=
  match fuel with
  | O => None
  | S fuel' =>
      let d := deEnd w in
      d <~ Some (if weekday d =? 5 then add_days d 2
                 else if weekday d =? 6 then add_days d 1
                 else Return d) ;;
      w <~ deEnd_setValue (onEndDateChange fuel') d w ;;
      Some (Return (emit d w))
  end.

(** [self.deEnd.setDate(d)] *)
Definition deEnd_setDate (fuel : nat) (d : date) (w : HistWindowSelect)
    : partial HistWindowSelect :=
  deEnd_setValue (onEndDateChange fuel) d w.

(** The earliest date a [QDateTimeEdit] range accepts, 0100-01-01. *)
Definition QDATETIMEEDIT_DATE_MIN : date := 36160.

(** [self.deEnd.setMinimumDateTime(m)]: Qt stores the minimum, raises the
    maximum to it when the maximum is below, and bounds the current value to
    the new range, firing [dateChanged] when the date changed
    ([QDateTimeEdit::setMinimumDateTime], [QAbstractSpinBoxPrivate::setRange]).
    A minimum before 0100-01-01 is ignored. *)
Definition deEnd_setMinimumDateTime (fuel : nat) (m : date)
    (w : HistWindowSelect) : partial HistWindowSelect :=
  if QDATETIMEEDIT_DATE_MIN <=? m then
    let w := with_range m (if m <? deEnd_maximum w then deEnd_maximum w else m)
               w in
    deEnd_setValue (onEndDateChange fuel) (deEnd w) w
  else Some (Return w).

(** [HistWindowSelect.setEndDateMinimum].  The class declares [end_signal]
    only: evaluating [self.test_signal] raises [AttributeError]. *)
Definition setEndDateMinimum (fuel : nat) (w : HistWindowSelect)
    : partial HistWindowSelect :=
  let deStart := deStart w in
  end_min <~ Some (getWeekdaysOut deStart 22) ;;
  w <~ deEnd_setMinimumDateTime fuel end_min w ;;
  if deEnd w <? end_min then
    w <~ deEnd_setDate fuel end_min w ;;
    Some (Raise AttributeError)
  else Some (Return w).

(** 2015-01-01, the minimum of [deStart] set in [HistWindowSelect.__init__]. *)
Definition deStart_minimum : date := 735599.

End Widgets.

(** ** Calibration of drift and volatility *)

Module Calibration.

Local Open Scope R_scope.

(** A float of numpy or pandas: a real number or one of the IEEE special
    values.  Signed zeros are not told apart. *)
Inductive float : Type :=
| Fin (r : R)
| PInf
| NInf
| NaN.

Definition isnan (x : float) : bool :=
  match x with NaN => true | _ => false end.

Definition fopp (x : float) : float :=
  match x with
  | Fin r => Fin (- r)
  | PInf => NInf
  | NInf => PInf
  | NaN => NaN
  end.

Definition fadd (x y : float) : float :=
  match x, y with
  | NaN, _ | _, NaN => NaN
  | Fin a, Fin b => Fin (a + b)
  | PInf, NInf | NInf, PInf => NaN
  | PInf, _ | _, PInf => PInf
  | NInf, _ | _, NInf => NInf
  end.

Definition fsub (x y : float) : float := fadd x (fopp y).

(** The infinity with the sign of [r], NaN when [r] is zero. *)
Definition signed_inf (r : R) : float :=
  if Rlt_dec 0 r then PInf else if Rlt_dec r 0 then NInf else NaN.

Definition fmul (x y : float) : float :=
  match x, y with
  | NaN, _ | _, NaN => NaN
  | Fin a, Fin b => Fin (a * b)
  | Fin a, PInf | PInf, Fin a => signed_inf a
  | Fin a, NInf | NInf, Fin a => signed_inf (- a)
  | PInf, PInf | NInf, NInf => PInf
  | PInf, NInf | NInf, PInf => NaN
  end.

Definition fdiv (x y : float) : float :=
  match x, y with
  | NaN, _ | _, NaN => NaN
  | Fin a, Fin b => if Req_dec_T b 0 then signed_inf a else Fin (a / b)
  | Fin _, _ => Fin 0
  | PInf, Fin b => if Rlt_dec b 0 then NInf else PInf
  | NInf, Fin b => if Rlt_dec b 0 then PInf else NInf
  | _, _ => NaN
  end.

(** [np.log] *)
Definition flog (x : float) : float :=
  match x with
  | Fin r => if Rlt_dec 0 r then Fin (ln r)
             else if Rlt_dec r 0 then NaN else NInf
  | PInf => PInf
  | _ => NaN
  end.

(** [np.sqrt] *)
Definition fsqrt (x : float) : float :=
  match x with
  | Fin r => if Rlt_dec r 0 then NaN else Fin (sqrt r)
  | PInf => PInf
  | _ => NaN
  end.

Definition fsum (l : list float) : float := fold_left fadd l (Fin 0).

(** [data.pct_change()] on one column: each price divided by the one before,
    minus 1; the first row has no predecessor and is NaN. *)
Fixpoint pct_change_from (prev : R) (l : list R) : list float :=
  match l with
  | [] => []
  | p :: l' => fsub (fdiv (Fin p) (Fin prev)) (Fin 1) :: pct_change_from p l'
  end.

Definition pct_change (data : list R) : list float :=
  match data with
  | [] => []
  | p :: l => NaN :: pct_change_from p l
  end.

(** The values pandas keeps when it skips NaN ([skipna = True]). *)
Definition notna (l : list float) : list float :=
  filter (fun x => negb (isnan x)) l.

(** [returns.mean()]: the mean of the values that are not NaN, NaN when there
    is none. *)
Definition mean (l : list float) : float :=
  let v := notna l in
  match v with
  | [] => NaN
  | _ => fdiv (fsum v) (Fin (INR (length v)))
  end.

(** [returns.std()]: the square root of the variance with [ddof = 1] of the
    values that are not NaN, NaN when there are fewer than two. *)
Definition std (l : list float) : float :=
  let v := notna l in
  if (length v <=? 1)%nat then NaN
  else
    let avg := fdiv (fsum v) (Fin (INR (length v))) in
    let sqr := map (fun x => fmul (fsub avg x) (fsub avg x)) v in
    fsqrt (fdiv (fsum sqr) (Fin (INR (length v - 1)))).

(** [data.iloc[-1]] *)
Definition iloc_last (data : list R) : result R :=
  match data with
  | [] => Raise IndexError
  | p :: l => Return (last l p)
  end.

(** The calibration lines of [MCVaRApp.onClickRun], from the downloaded
    'Adj Close' column [data] to [(p0, mu, sig)]. *)
Definition calibrate (data : list R) : result (float * float * float) :=
  let returns := map (fun x => flog (fsub (Fin 1) x)) (pct_change data) in
  p0 <- iloc_last data ;;
  let mu := mean returns in
  let sig := std returns in
  Return (Fin p0, mu, sig).

(** The specification's words: the return of each consecutive pair, the mean
    and the sample standard deviation of a sequence of reals. *)
Fixpoint logReturns_from (prev : R) (l : list R) : list R :=
  match l with
  | [] => []
  | p :: l' => ln (1 - (p - prev) / prev) :: logReturns_from p l'
  end.

Definition logReturns (data : list R) : list R :=
  match data with
  | [] => []
  | p :: l => logReturns_from p l
  end.

Definition Rsum (l : list R) : R := fold_left Rplus l 0.

Definition sample_mean (l : list R) : R := Rsum l / INR (length l).

Definition sum_sq_dev (l : list R) : R :=
  Rsum (map (fun x => (x - sample_mean l) * (x - sample_mean l)) l).

(** Every price is positive and less than twice the one before: the
    arguments of the divisions and of the logarithms are in their domains. *)
Fixpoint tame_from (prev : R) (l : list R) : Prop :=
  match l with
  | [] => True
  | p :: l' => 0 < p < 2 * prev /\ tame_from p l'
  end.

Definition tame (data : list R) : Prop :=
  match data with
  | [] => True
  | p :: l => 0 < p /\ tame_from p l
  end.

End Calibration.

(** ** Simulation of the price paths *)

Module GBM.

Local Open Scope R_scope.

Section Simulator.

(** The state of numpy's global generator and [np.random.rand()], which
    returns a uniform draw and the next state; [scipy.stats.norm.ppf]. *)
Variable rng : Type.
Variable rand : rng -> R * rng.
Variable ppf : R -> R.

(** The body of [for j in range(1, self.days + 2)]; the state is [path],
    [curr_price] and the generator. *)
Definition inner_body (p0 mu sig : R) (j : Z)
    (s : list R * option R * rng) : result (list R * option R * rng) :=
  let '(path, curr_price, g) := s in
  let '(u, g) := rand g in
  let e := ppf u in
  curr_price <- (if (j =? 1)%Z then Return p0
                 else curr_price <- read_local curr_price ;;
                      Return (curr_price
                              + (mu * curr_price + sig * curr_price * e))) ;;
  Return (path ++ [curr_price], Some curr_price, g).

(** The body of [for i in range(self.trials)]; the state is [paths],
    [curr_price] and the generator. *)
Definition outer_body (p0 mu sig : R) (days : Z) (i : Z)
    (s : list (list R) * option R * rng)
    : result (list (list R) * option R * rng) :=
  let '(paths, curr_price, g) := s in
  '(path, curr_price, g) <-
     for_each (range 1 (days + 2)) (inner_body p0 mu sig)
       ([], curr_price, g) ;;
  Return (paths ++ [path], curr_price, g).

(** [np.hstack] of columns ([np.array(path)] has shape [(len(path), 1)]):
    row [r] of the result collects entry [r] of every column.  It raises
    [ValueError] on an empty list and on columns of different lengths. *)
Definition hstack (paths : list (list R)) : result (list (list R)) :=
  match paths with
  | [] => Raise ValueError
  | p :: _ =>
      if forallb (fun q => (length q =? length p)%nat) paths then
        Return (map (fun r => map (fun q => nth r q 0) paths)
                    (seq 0 (length p)))
      else Raise ValueError
  end.

(** The simulation lines of [MCVaRApp.onClickRun]: [self.path_array] and the
    generator left behind. *)
Definition simulate (p0 mu sig : R) (trials days : Z) (g : rng)
    : result (list (list R) * rng) :=
  '(paths, _, g) <-
     for_each (range 0 trials) (outer_body p0 mu sig days) ([], None, g) ;;
  path_array <- hstack paths ;;
  Return (path_array, g).

(** The generator after [n] draws, and the draw number [n] (from 0). *)
Fixpoint after (n : nat) (g : rng) : rng :=
  match n with
  | O => g
  | S n' => after n' (snd (rand g))
  end.

Definition draw (g : rng) (n : nat) : R := fst (rand (after n g)).

(** Entry [(t, i)] of an array given by its rows. *)
Definition entry (a : list (list R)) (t i : nat) : R := nth i (nth t a []) 0.

(** The price at step [t] of the trial that starts with the generator in
    state [g]: the draw number [t] of the trial drives step [t] (the draw
    number 0, taken at [j == 1], is not used). *)
Fixpoint price (p0 mu sig : R) (g : rng) (t : nat) : R :=
  match t with
  | O => p0
  | S t' =>
      let c := price p0 mu sig g t' in
      c + (mu * c + sig * c * ppf (draw g t))
  end.

(** The prices of one trial over [h] steps. *)
Definition path_of (p0 mu sig : R) (h : nat) (g : rng) : list R :=
  map (price p0 mu sig g) (seq 0 (S h)).

End Simulator.

End GBM.

(** ** The Value-at-Risk estimate *)

Module VaR.

Local Open Scope R_scope.

Definition Rleb (x y : R) : bool := if Rle_dec x y then true else false.

Fixpoint insert (x : R) (l : list R) : list R :=
  match l with
  | [] => [x]
  | y :: l' => if Rleb x y then x :: l else y :: insert x l'
  end.

Fixpoint sort (l : list R) : list R :=
  match l with
  | [] => []
  | x :: l' => insert x (sort l')
  end.

(** [np.percentile(a, q)] with the default linear interpolation: with the
    values in increasing order and [index = q / 100 * (len(a) - 1)], the
    result is [i + (j - i) * fraction], [i] and [j] the values at the floor
    of [index] and next to it and [fraction] the fractional part of [index].
    [q] outside [[0, 100]] raises [ValueError].  On an empty array numpy
    returns no number (an exception or NaN, by version): [IndexError] here. *)
Definition percentile (a : list R) (q : R) : result R :=
  let q := q / 100 in
  if Rleb 0 q && Rleb q 1 then
    match a with
    | [] => Raise IndexError
    | _ =>
        let s := sort a in
        let index := q * (INR (length a) - 1) in
        let below := Z.to_nat (Int_part index) in
        let above := Nat.min (below + 1) (length a - 1) in
        let i := nth below s 0 in
        let j := nth above s 0 in
        Return (i + (j - i) * (index - IZR (Int_part index)))
    end
  else Raise ValueError.

(** [path_array[days, :]] *)
Definition row (path_array : list (list R)) (days : Z) : result (list R) :=
  let n := Z.of_nat (length path_array) in
  let k := (if days <? 0 then days + n else days)%Z in
  if ((0 <=? k) && (k <? n))%Z then Return (nth (Z.to_nat k) path_array [])
  else Raise IndexError.

(** The estimation lines of [MCVaRApp.onClickRun]: [self.var]. *)
Definition estimate (p0 : R) (path_array : list (list R)) (days : Z)
    (var_con : R) : result R :=
  t_returns <- row path_array days ;;
  perc <- percentile t_returns ((1 - var_con) * 100) ;;
  Return (Rmax (p0 - perc) 0).

End VaR.

(** ** Counting business days *)

Module BusinessCount.

Import Calendar.
Local Open Scope Z_scope.

(** The number of business days from 0001-01-01, a Monday, to [d], both
    included: five for each whole week before the week of [d], and the days
    of that week up to [d], Saturday and Sunday adding nothing. *)
Definition business_upto (d : date) : Z :=
  5 * ((d - 1) / 7) + Z.min (weekday d + 1) 5.

End BusinessCount.

(** ** The date labels of the export *)

Module ExportIndex.

Import Calendar.
Local Open Scope Z_scope.

(** A list comprehension whose element expression may raise. *)
Fixpoint comprehension {A B : Type} (f : A -> result B) (l : list A)
    : result (list B) :=
  match l with
  | [] => Return []
  | x :: l' => y <- f x ;; ys <- comprehension f l' ;; Return (y :: ys)
  end.

(** [index.remove(date)]: the first element equal to [date] is taken out;
    [ValueError] when there is none. *)
Fixpoint remove (date : date) (index : list Calendar.date)
    : result (list Calendar.date) :=
  match index with
  | [] => Raise ValueError
  | d :: index' =>
      if d =? date then Return index'
      else index'' <- remove date index' ;; Return (d :: index'')
  end.

(** [for date in index: if date.weekday() == i: index.remove(date)].  The
    loop reads the list it changes: a Python list iterator keeps a position
    [pos], yields [index[pos]] and moves on while [pos < len(index)], so the
    element that slides into the place of a removed one is not visited.
    [fuel] bounds the number of passes. *)
Fixpoint remove_weekday (fuel : nat) (pos : nat) (i : Z)
    (index : list date) : partial (list date) :=
  match nth_error index pos with
  | None => Some (Return index)
  | Some date =>
      match fuel with
      | O => None
      | S fuel' =>
          if weekday date =? i then
            index <~ Some (remove date index) ;;
            remove_weekday fuel' (S pos) i index
          else remove_weekday fuel' (S pos) i index
      end
  end.

(** The lines of [MCVaRApp.onClickExport] that build the dates of the rows,
    before they are formatted: every day from [pstart] to [pend], then
    Saturdays and Sundays removed by the two loops. *)
Definition export_index (fuel : nat) (pstart pend : date)
    : partial (list date) :=
  let delta := pend - pstart in
  index <~ Some (comprehension (fun x => add_days pstart x)
                   (range 0 (delta + 1))) ;;
  index <~ remove_weekday fuel 0 5 index ;;
  remove_weekday fuel 0 6 index.

(** The [n] calendar days from [a] on. *)
Fixpoint span (a : date) (n : nat) : list date :=
  match n with
  | O => []
  | S n' => a :: span (a + 1) n'
  end.

(** No two neighbours of the list both fall on weekday [i]. *)
Fixpoint no_neighbours (i : Z) (l : list date) : Prop :=
  match l with
  | [] => True
  | x :: r =>
      match r with
      | [] => True
      | y :: _ => (weekday x = i -> weekday y <> i)
      end /\ no_neighbours i r
  end.

End ExportIndex.

(** ** The ticker of the selected security *)

Module Ticker.

Import Ascii String.StringSyntax.
Local Open Scope string_scope.
Local Infix "++" := String.append : string_scope.

(** The first [n] characters of [s], all of [s] when it has fewer. *)
Definition slice_to (n : nat) (s : String.string) : String.string :=
  String.substring 0 n s.

(** [s[:n]] for an integer [n]: a negative [n] counts from the end of [s],
    and gives the empty text when [s] has no more than [- n] characters. *)
Definition slice (n : Z) (s : String.string) : String.string :=
  if (n <? 0)%Z then slice_to (Z.to_nat (Z.of_nat (String.length s) + n)) s
  else slice_to (Z.to_nat n) s.

(** [shortenStockName] of [TickerSelect.ListAllStocks]. *)
Definition shortenStockName (stock_name : String.string) (maxlength : Z)
    : String.string :=
  if (maxlength <? Z.of_nat (String.length stock_name))%Z then
    slice maxlength stock_name ++ "..."
  else stock_name.

(** The default of [maxlength], which [ListAllStocks] relies on. *)
Definition maxlength_default : nat := 57.

(** An element of [name_list] when [shorten_name] is set, as
    [TickerSelect.__init__] asks: symbol, [' - '], security name. *)
Definition list_name (symbol security_name : String.string) : String.string :=
  shortenStockName (symbol ++ " - " ++ security_name)
    (Z.of_nat maxlength_default).

(** [s.split(sep)[0]] for a separator that is not empty: the text before
    the leftmost occurrence of [sep], all of [s] when there is none. *)
Fixpoint before (sep s : String.string) : String.string :=
  if String.prefix sep s then ""
  else
    match s with
    | String.EmptyString => ""
    | String.String c s' => String.String c (before sep s')
    end.

(** [TickerSelect.getTickerSelection], on the current text of the box. *)
Definition getTickerSelection (full_name : String.string) : String.string :=
  before " - " full_name.

(** Whether the character occurs in the text. *)
Fixpoint occurs (c : ascii) (s : String.string) : bool :=
  match s with
  | String.EmptyString => false
  | String.String c' s' => Ascii.eqb c' c || occurs c s'
  end.

End Ticker.

(** ** The prediction window widget *)

Module PredWidgets.

Import Calendar.
Local Open Scope Z_scope.

(** The two [QDateEdit] of a [PredWindowSelect]: their dates and ranges. *)
Record PredWindowSelect : Type := {
  deStart : date;
  deStart_minimum : date;
  deStart_maximum : date;
  deEnd : date;
  deEnd_minimum : date;
  deEnd_maximum : date
}.

Definition with_deStart (d : date) (w : PredWindowSelect) : PredWindowSelect :=
  {| deStart := d;
     deStart_minimum := deStart_minimum w; deStart_maximum := deStart_maximum w;
     deEnd := deEnd w;
     deEnd_minimum := deEnd_minimum w; deEnd_maximum := deEnd_maximum w |}.

Definition with_deEnd (d : date) (w : PredWindowSelect) : PredWindowSelect :=
  {| deStart := deStart w;
     deStart_minimum := deStart_minimum w; deStart_maximum := deStart_maximum w;
     deEnd := d;
     deEnd_minimum := deEnd_minimum w; deEnd_maximum := deEnd_maximum w |}.

Definition with_deEnd_range (lo hi : date) (w : PredWindowSelect)
    : PredWindowSelect :=
  {| deStart := deStart w;
     deStart_minimum := deStart_minimum w; deStart_maximum := deStart_maximum w;
     deEnd := deEnd w;
     deEnd_minimum := lo; deEnd_maximum := hi |}.

(** Qt keeps the value of a spin box inside its range. *)
Definition bound (lo hi d : date) : date :=
  let d := if d <? lo then lo else d in
  if hi <? d then hi else d.

(** Storing a value in [deEnd]: bounded to the range; when the date changed,
    [dateChanged] runs its slot, [onEndDateChange]. *)
Definition deEnd_setValue (slot : PredWindowSelect -> partial PredWindowSelect)
    (d : date) (w : PredWindowSelect) : partial PredWindowSelect :=
  let v := bound (deEnd_minimum w) (deEnd_maximum w) d in
  if v =? deEnd w then Some (Return w) else slot (with_deEnd v w).

(** [PredWindowSelect.onEndDateChange]; [fuel] bounds the nesting of the
    slot in itself. *)
Fixpoint onEndDateChange (fuel : nat) (w : PredWindowSelect)
    : partial PredWindowSelect :=
  match fuel with
  | O => None
  | S fuel' =>
      let d := deEnd w in
      d <~ Some (if weekday d =? 5 then add_days d 2
                 else if weekday d =? 6 then add_days d 1
                 else Return d) ;;
      deEnd_setValue (onEndDateChange fuel') d w
  end.

(** [self.deEnd.setDate(d)] *)
Definition deEnd_setDate (fuel : nat) (d : date) (w : PredWindowSelect)
    : partial PredWindowSelect :=
  deEnd_setValue (onEndDateChange fuel) d w.

(** [self.deEnd.setMinimumDateTime(m)], as for the historical window. *)
Definition deEnd_setMinimumDateTime (fuel : nat) (m : date)
    (w : PredWindowSelect) : partial PredWindowSelect :=
  if Widgets.QDATETIMEEDIT_DATE_MIN <=? m then
    let w := with_deEnd_range m
               (if m <? deEnd_maximum w then deEnd_maximum w else m) w in
    deEnd_setValue (onEndDateChange fuel) (deEnd w) w
  else Some (Return w).

(** [PredWindowSelect.setEndDateMinimum] *)
Definition setEndDateMinimum (fuel : nat) (w : PredWindowSelect)
    : partial PredWindowSelect :=
  let deStart := deStart w in
  end_min <~ Some (getWeekdaysOut deStart 5) ;;
  w <~ deEnd_setMinimumDateTime fuel end_min w ;;
  if deEnd w <? end_min then deEnd_setDate fuel end_min w
  else Some (Return w).

(** [PredWindowSelect.setStart], the slot of the historical window's
    [end_signal]: [self.deStart.setDate(date)] bounds the date to the range
    of [deStart] and, when the date changed, [dateChanged] runs
    [setEndDateMinimum]. *)
Definition setStart (fuel : nat) (date : date) (w : PredWindowSelect)
    : partial PredWindowSelect :=
  let v := bound (deStart_minimum w) (deStart_maximum w) date in
  if v =? deStart w then Some (Return w)
  else setEndDateMinimum fuel (with_deStart v w).

(** [PredWindowSelect.getNumDays] on the dates of the widget. *)
Definition getNumDays (fuel : nat) (w : PredWindowSelect) : partial Z :=
  Calendar.getNumDays fuel (deStart w) (deEnd w).

End PredWidgets.

(** ** The historical start date *)

Module HistStart.

Import Calendar Widgets.
Local Open Scope Z_scope.

(** A [HistWindowSelect] with the range of its [deStart], which
    [HistWindowSelect.__init__] sets to 2015-01-01 and
    [getWeekdaysBack (now, 22)]. *)
Record HistWindow : Type := {
  widget : HistWindowSelect;
  deStart_lower : date;
  deStart_upper : date
}.

Definition with_widget (w : HistWindowSelect) (h : HistWindow) : HistWindow :=
  {| widget := w; deStart_lower := deStart_lower h;
     deStart_upper := deStart_upper h |}.

Definition with_deStart (d : date) (h : HistWindow) : HistWindow :=
  with_widget
    {| deStart := d; deEnd := deEnd (widget h);
       deEnd_minimum := deEnd_minimum (widget h);
       deEnd_maximum := deEnd_maximum (widget h);
       end_signal := end_signal (widget h) |}
    h.

(** The value of [deStart] kept inside its range. *)
Definition deStart_bound (h : HistWindow) (d : date) : date :=
  let d := if d <? deStart_lower h then deStart_lower h else d in
  if deStart_upper h <? d then deStart_upper h else d.

(** Storing a value in [deStart]: bounded to the range; when the date
    changed, [dateChanged] runs its slot, [onStartDateChange]. *)
Definition deStart_setValue (slot : HistWindow -> partial HistWindow)
    (d : date) (h : HistWindow) : partial HistWindow :=
  let v := deStart_bound h d in
  if v =? deStart (widget h) then Some (Return h)
  else slot (with_deStart v h).

(** [HistWindowSelect.onStartDateChange]; [fuel] bounds the nesting of the
    slots. *)
Fixpoint onStartDateChange (fuel : nat) (h : HistWindow)
    : partial HistWindow :=
  match fuel with
  | O => None
  | S fuel' =>
      let d := deStart (widget h) in
      d <~ Some (if weekday d =? 5 then add_days d 2
                 else if weekday d =? 6 then add_days d 1
                 else Return d) ;;
      h <~ deStart_setValue (onStartDateChange fuel') d h ;;
      w <~ setEndDateMinimum fuel' (widget h) ;;
      Some (Return (with_widget w h))
  end.

End HistStart.

(** ** The percentile rank in binary64 arithmetic *)

Module Binary64.

Import VaR.
Local Open Scope R_scope.

(** The finite numbers of IEEE 754 binary64: [m * 2 ^ e] with a mantissa
    below [2 ^ 53] in absolute value and an exponent from -1074 to 971. *)
Definition representable (x : R) : Prop :=
  exists m e : Z,
    (Z.abs m < 2 ^ 53)%Z /\ (-1074 <= e <= 971)%Z /\ x = IZR m * powerRZ 2 e.

(** What is used of the rounding of binary64 arithmetic, to nearest with
    ties to even: it is monotone; it leaves the numbers of the format as
    they are; and just above 1, where the numbers of the format are
    [2 ^ -52] apart, the midpoint [1 + 2 ^ -53] goes down to 1 (the tie goes
    to the even mantissa) and what is above the midpoint goes up. *)
Record rounding (fl : R -> R) : Prop := {
  fl_monotone : forall x y, x <= y -> fl x <= fl y;
  fl_exact : forall x, representable x -> fl x = x;
  fl_tie : fl (1 + / 2 ^ 53) = 1;
  fl_above_tie : forall x, 1 + / 2 ^ 53 < x -> 1 + / 2 ^ 52 <= fl x
}.

Section Estimate.

(** The rounding of one operation on floats. *)
Variable fl : R -> R.

(** [np.percentile(a, q)] as [VaR.percentile] has it, with the quotient
    [q / 100] rounded: numpy divides first, checks the quotient against
    [[0, 1]] and takes the index from it. *)
Definition percentile (a : list R) (q : R) : result R :=
  let q := fl (q / 100) in
  if Rleb 0 q && Rleb q 1 then
    match a with
    | [] => Raise IndexError
    | _ =>
        let s := sort a in
        let index := q * (INR (length a) - 1) in
        let below := Z.to_nat (Int_part index) in
        let above := Nat.min (below + 1) (length a - 1) in
        let i := nth below s 0 in
        let j := nth above s 0 in
        Return (i + (j - i) * (index - IZR (Int_part index)))
    end
  else Raise ValueError.

(** The estimation lines of [MCVaRApp.onClickRun] with the rank
    [(1 - self.var_con) * 100] computed in floats: a subtraction and a
    multiplication, each one rounded. *)
Definition estimate (p0 : R) (path_array : list (list R)) (days : Z)
    (var_con : R) : result R :=
  t_returns <- row path_array days ;;
  perc <- percentile t_returns (fl (fl (1 - var_con) * 100)) ;;
  Return (Rmax (p0 - perc) 0).

End Estimate.

(** A function with the four properties of [rounding], to try the
    statements on: the identity, but between 1 and [1 + 2 ^ -52], where it
    goes to the nearer end and to 1 from the midpoint. *)
Definition nearest_at_one (x : R) : R :=
  if Rle_dec x 1 then x
  else if Rle_dec x (1 + / 2 ^ 53) then 1
  else if Rlt_dec x (1 + / 2 ^ 52) then 1 + / 2 ^ 52
  else x.

End Binary64.

(** ** The simulation with the special values of floats *)

Module GBMFloat.

Import Calibration.
Local Open Scope R_scope.

Section Simulator.

(** The generator of [GBM], and [scipy.stats.norm.ppf] with the values it
    has outside the reals: [-inf] at a draw of 0.0, which
    [np.random.rand()] can return, [inf] at 1 and NaN outside [[0, 1]]. *)
Variable rng : Type.
Variable rand : rng -> R * rng.
Variable ppf : R -> float.

(** The body of [for j in range(1, self.days + 2)], as [GBM.inner_body],
    on floats. *)
Definition inner_body (p0 mu sig : float) (j : Z)
    (s : list float * option float * rng)
    : result (list float * option float * rng) :=
  let '(path, curr_price, g) := s in
  let '(u, g) := rand g in
  let e := ppf u in
  curr_price <- (if (j =? 1)%Z then Return p0
                 else curr_price <- read_local curr_price ;;
                      Return (fadd curr_price
                                (fadd (fmul mu curr_price)
                                      (fmul (fmul sig curr_price) e)))) ;;
  Return (path ++ [curr_price], Some curr_price, g).

(** The body of [for i in range(self.trials)]. *)
Definition outer_body (p0 mu sig : float) (days : Z) (i : Z)
    (s : list (list float) * option float * rng)
    : result (list (list float) * option float * rng) :=
  let '(paths, curr_price, g) := s in
  '(path, curr_price, g) <-
     for_each (range 1 (days + 2)) (inner_body p0 mu sig)
       ([], curr_price, g) ;;
  Return (paths ++ [path], curr_price, g).

(** [np.hstack] of columns, as [GBM.hstack]. *)
Definition hstack (paths : list (list float)) : result (list (list float)) :=
  match paths with
  | [] => Raise ValueError
  | p :: _ =>
      if forallb (fun q => (length q =? length p)%nat) paths then
        Return (map (fun r => map (fun q => nth r q NaN) paths)
                    (seq 0 (length p)))
      else Raise ValueError
  end.

(** The simulation lines of [MCVaRApp.onClickRun]. *)
Definition simulate (p0 mu sig : float) (trials days : Z) (g : rng)
    : result (list (list float) * rng) :=
  '(paths, _, g) <-
     for_each (range 0 trials) (outer_body p0 mu sig days) ([], None, g) ;;
  path_array <- hstack paths ;;
  Return (path_array, g).

(** Entry [(t, i)] of an array given by its rows. *)
Definition entry (a : list (list float)) (t i : nat) : float :=
  nth i (nth t a []) NaN.

(** The price at step [t] of the trial that starts with the generator in
    state [g]. *)
Fixpoint price (p0 mu sig : float) (g : rng) (t : nat) : float :=
  match t with
  | O => p0
  | S t' =>
      let c := price p0 mu sig g t' in
      fadd c (fadd (fmul mu c) (fmul (fmul sig c) (ppf (GBM.draw rand g t))))
  end.

(** The prices of one trial over [h] steps. *)
Definition path_of (p0 mu sig : float) (h : nat) (g : rng) : list float :=
  map (price p0 mu sig g) (seq 0 (S h)).

End Simulator.

End GBMFloat.

(** * Properties *)

(** ** Business-day arithmetic *)

Ltac week :=
  unfold Calendar.business, Calendar.weekday in *;
  Z.div_mod_to_equations; lia.

Ltac split_all := repeat match goal with |- _ /\ _ => split end.

Ltac eqb_cases :=
  repeat match goal with
    | |- context [Z.eqb ?a ?b] => destruct (Z.eqb_spec a b)
    | H : context [Z.eqb ?a ?b] |- _ => destruct (Z.eqb_spec a b)
    end.

Section CalendarFacts.

Import Calendar.
Local Open Scope Z_scope.

Lemma add_days_ok (d k : Z) :
  MINORD <= d + k <= MAXORD -> add_days d k = Return (d + k).
Proof.
  intros H. unfold add_days.
  destruct (Z.leb_spec MINORD (d + k)); [| lia].
  destruct (Z.leb_spec (d + k) MAXORD); [reflexivity | lia].
Qed.

Lemma add_days_overflow (d k : Z) :
  MAXORD < d + k -> add_days d k = Raise OverflowError.
Proof.
  intros H. unfold add_days.
  destruct (Z.leb_spec (d + k) MAXORD); [lia |].
  now rewrite andb_false_r.
Qed.

Lemma nextBusinessDay_business (d : date) : business (nextBusinessDay d).
Proof. unfold nextBusinessDay. eqb_cases; week. Qed.

Lemma nextBusinessDay_bounds (d : date) :
  d <= nextBusinessDay d <= d + 2.
Proof. unfold nextBusinessDay. eqb_cases; lia. Qed.

Lemma nextBusinessDay_valid (d : date) : valid d -> valid (nextBusinessDay d).
Proof.
  unfold valid, nextBusinessDay, MINORD, MAXORD. intros H.
  eqb_cases; try lia; week.
Qed.

Lemma previousBusinessDay_business (d : date) :
  business (previousBusinessDay d).
Proof. unfold previousBusinessDay. eqb_cases; week. Qed.

Lemma previousBusinessDay_valid (d : date) :
  valid d -> valid (previousBusinessDay d).
Proof.
  unfold valid, previousBusinessDay, MINORD, MAXORD. intros H.
  eqb_cases; try lia; week.
Qed.

Lemma business_fixed_previous (d : date) :
  business d -> previousBusinessDay d = d.
Proof.
  intros H. unfold previousBusinessDay. eqb_cases; try reflexivity; week.
Qed.

(** The two [if]s that open [getWeekdaysOut] and [getNumDays]. *)
Lemma snap_forward (d : date) :
  valid d ->
  (s <- (if weekday d =? 5 then add_days d 2 else Return d) ;;
   if weekday s =? 6 then add_days s 1 else Return s)
  = Return (nextBusinessDay d).
Proof.
  intros H. pose proof (nextBusinessDay_valid H) as Hv.
  unfold nextBusinessDay, valid in *.
  destruct (Z.eqb_spec (weekday d) 5) as [E | E].
  - rewrite add_days_ok by lia. cbn.
    destruct (Z.eqb_spec (weekday (d + 2)) 6); [week | reflexivity].
  - cbn. destruct (Z.eqb_spec (weekday d) 6).
    + now rewrite add_days_ok by lia.
    + reflexivity.
Qed.

(** The two [if]s that open [getWeekdaysBack]. *)
Lemma snap_backward (d : date) :
  valid d ->
  (s <- (if weekday d =? 5 then add_days d (-1) else Return d) ;;
   if weekday s =? 6 then add_days s (-2) else Return s)
  = Return (previousBusinessDay d).
Proof.
  intros H. pose proof (previousBusinessDay_valid H) as Hv.
  unfold previousBusinessDay, valid in *.
  destruct (Z.eqb_spec (weekday d) 5) as [E | E].
  - rewrite add_days_ok by lia. cbn.
    destruct (Z.eqb_spec (weekday (d + -1)) 6); [week | f_equal; lia].
  - cbn. destruct (Z.eqb_spec (weekday d) 6).
    + rewrite add_days_ok by lia. f_equal; lia.
    + reflexivity.
Qed.

Lemma step_out_business (d : date) : business d -> business (step_out d).
Proof. intros H. unfold step_out. eqb_cases; week. Qed.

Lemma step_out_bounds (d : date) : d + 1 <= step_out d <= d + 3.
Proof. unfold step_out. eqb_cases; lia. Qed.

Lemma step_back_out (d : date) : business d -> step_back (step_out d) = d.
Proof.
  intros H. unfold step_back, step_out.
  eqb_cases; try lia; week.
Qed.

Lemma steps_snoc (f : date -> date) (n : nat) (d : date) :
  steps f (S n) d = f (steps f n d).
Proof.
  revert d. induction n as [| n IH]; intros d; [reflexivity |].
  change (steps f (S (S n)) d) with (steps f (S n) (f d)).
  now rewrite IH.
Qed.

Lemma steps_out_business (n : nat) (d : date) :
  business d -> business (steps step_out n d).
Proof.
  revert d. induction n as [| n IH]; intros d H; cbn; [exact H |].
  apply IH, step_out_business, H.
Qed.

Lemma steps_out_bounds (n : nat) (d : date) :
  d + Z.of_nat n <= steps step_out n d <= d + 3 * Z.of_nat n.
Proof.
  revert d. induction n as [| n IH]; intros d.
  - cbn. lia.
  - change (steps step_out (S n) d) with (steps step_out n (step_out d)).
    specialize (IH (step_out d)). pose proof (step_out_bounds d). lia.
Qed.

Lemma steps_back_out (n : nat) (d : date) :
  business d -> steps step_back n (steps step_out n d) = d.
Proof.
  revert d. induction n as [| n IH]; intros d H; [reflexivity |].
  rewrite (steps_snoc step_out n d).
  change (steps step_back (S n) ?x) with (steps step_back n (step_back x)).
  rewrite step_back_out by now apply steps_out_business.
  apply IH, H.
Qed.

(** *** The loops of [getWeekdaysOut] and [getWeekdaysBack] *)

Let out_body (start_date : date) :=
  fun (i : Z) (curr_date : option date) =>
    curr_date <- (if i =? 0 then Return start_date
                  else read_local curr_date) ;;
    next_date <- add_days curr_date 1 ;;
    next_date <- (if weekday next_date =? 5 then add_days curr_date 3
                  else Return next_date) ;;
    Return (Some next_date).

Let back_body (start_date : date) :=
  fun (i : Z) (curr_date : option date) =>
    curr_date <- (if i =? 0 then Return start_date
                  else read_local curr_date) ;;
    next_date <- add_days curr_date (-1) ;;
    next_date <- (if weekday next_date =? 6 then add_days curr_date (-3)
                  else Return next_date) ;;
    Return (Some next_date).

Lemma out_pass (c : date) :
  MINORD <= c -> step_out c <= MAXORD ->
  (next_date <- add_days c 1 ;;
   next_date <- (if weekday next_date =? 5 then add_days c 3
                 else Return next_date) ;;
   Return (Some next_date)) = Return (Some (step_out c)).
Proof.
  intros Hlo Hhi. pose proof (step_out_bounds c).
  rewrite add_days_ok by lia. cbn.
  unfold step_out in *. destruct (weekday (c + 1) =? 5); [| reflexivity].
  now rewrite add_days_ok by lia.
Qed.

Lemma back_pass (c : date) :
  MINORD <= step_back c -> c <= MAXORD ->
  (next_date <- add_days c (-1) ;;
   next_date <- (if weekday next_date =? 6 then add_days c (-3)
                 else Return next_date) ;;
   Return (Some next_date)) = Return (Some (step_back c)).
Proof.
  intros Hlo Hhi.
  assert (step_back c <= c - 1) by (unfold step_back; eqb_cases; lia).
  rewrite add_days_ok by lia. cbn.
  unfold step_back in *. replace (c + -1) with (c - 1) by lia.
  destruct (weekday (c - 1) =? 6); [| reflexivity].
  rewrite add_days_ok by lia. cbn. do 2 f_equal; lia.
Qed.

Lemma out_loop_tail (start_date : date) (k a : nat) (c : date) :
  (1 <= a)%nat -> MINORD <= c -> steps step_out k c <= MAXORD ->
  for_each (map (fun i => 0 + Z.of_nat i) (seq a k)) (out_body start_date)
    (Some c)
  = Return (Some (steps step_out k c)).
Proof.
  revert a c. induction k as [| k IH]; intros a c Ha Hlo Hhi; [reflexivity |].
  cbn [seq map for_each]. unfold out_body at 1.
  destruct (Z.eqb_spec (0 + Z.of_nat a) 0); [lia |].
  cbn [read_local bind].
  change (steps step_out (S k) c) with (steps step_out k (step_out c)) in *.
  pose proof (step_out_bounds c).
  pose proof (steps_out_bounds k (step_out c)).
  rewrite out_pass by lia. cbn [bind].
  rewrite IH by lia. reflexivity.
Qed.

Lemma back_loop_tail (start_date : date) (k a : nat) (c lo : date) :
  (1 <= a)%nat -> business lo -> MINORD <= lo ->
  steps step_out k lo = c -> c <= MAXORD ->
  for_each (map (fun i => 0 + Z.of_nat i) (seq a k)) (back_body start_date)
    (Some c)
  = Return (Some lo).
Proof.
  revert a c. induction k as [| k IH]; intros a c Ha Hb Hlo Hc Hhi.
  - cbn in *. now subst.
  - cbn [seq map for_each]. unfold back_body at 1.
    destruct (Z.eqb_spec (0 + Z.of_nat a) 0); [lia |].
    cbn [read_local bind].
    rewrite steps_snoc in Hc.
    pose proof (steps_out_business k Hb) as Hbk.
    pose proof (steps_out_bounds k lo) as Hk.
    pose proof (step_out_bounds (steps step_out k lo)).
    assert (Hsb : step_back c = steps step_out k lo)
      by (rewrite <- Hc; now apply step_back_out).
    rewrite back_pass by lia. cbn [bind].
    apply IH; try lia; try assumption; now symmetry.
Qed.

(** For one day or more, [getWeekdaysOut] is that many business-day steps
    from the snapped start. *)
Lemma getWeekdaysOut_steps (d : date) (n : Z) :
  valid d -> 1 <= n ->
  steps step_out (Z.to_nat n) (nextBusinessDay d) <= MAXORD ->
  getWeekdaysOut d n
  = Return (steps step_out (Z.to_nat n) (nextBusinessDay d)).
Proof.
  intros Hv Hn Hhi. unfold getWeekdaysOut.
  pose proof (snap_forward Hv) as Hs.
  destruct (if weekday d =? 5 then add_days d 2 else Return d) as [s1 | e1];
    cbn [bind] in Hs |- *; [| discriminate].
  rewrite Hs. cbn [bind].
  fold (out_body (nextBusinessDay d)).
  unfold range. replace (n - 0) with n by lia.
  destruct (Z.to_nat n) as [| k] eqn:Ek; [lia |].
  pose proof (nextBusinessDay_bounds d) as Hb. unfold valid in Hv.
  cbn [seq map for_each]. unfold out_body at 1. cbn [Z.eqb Z.add Z.of_nat bind].
  change (steps step_out (S k) ?x) with (steps step_out k (step_out x)) in *.
  pose proof (step_out_bounds (nextBusinessDay d)).
  pose proof (steps_out_bounds k (step_out (nextBusinessDay d))).
  rewrite out_pass by lia. cbn [bind].
  rewrite out_loop_tail by lia. reflexivity.
Qed.

(** A bound on the start that keeps the walk inside the calendar. *)
Lemma steps_out_fit (d : date) (n : Z) :
  0 <= n -> d + 2 + 3 * n <= MAXORD ->
  steps step_out (Z.to_nat n) (nextBusinessDay d) <= MAXORD.
Proof.
  intros Hn Hhi.
  pose proof (steps_out_bounds (Z.to_nat n) (nextBusinessDay d)).
  pose proof (nextBusinessDay_bounds d). lia.
Qed.

(** For one day or more, [getWeekdaysBack] undoes that many business-day
    steps. *)
Lemma getWeekdaysBack_steps (lo : date) (n : Z) :
  business lo -> MINORD <= lo -> 1 <= n ->
  steps step_out (Z.to_nat n) lo <= MAXORD ->
  getWeekdaysBack (steps step_out (Z.to_nat n) lo) n = Return lo.
Proof.
  intros Hb Hlo Hn Hhi. unfold getWeekdaysBack.
  set (e := steps step_out (Z.to_nat n) lo) in *.
  assert (He : business e) by now apply steps_out_business.
  pose proof (steps_out_bounds (Z.to_nat n) lo) as Hbd. fold e in Hbd.
  assert (Hv : valid e) by (unfold valid; lia).
  pose proof (snap_backward Hv) as Hs.
  rewrite (business_fixed_previous He) in Hs.
  destruct (if weekday e =? 5 then add_days e (-1) else Return e)
    as [s1 | e1]; cbn [bind] in Hs |- *; [| discriminate].
  rewrite Hs. cbn [bind].
  fold (back_body e).
  unfold range. replace (n - 0) with n by lia.
  destruct (Z.to_nat n) as [| k] eqn:Ek; [lia |].
  cbn [seq map for_each]. unfold back_body at 1.
  cbn [Z.eqb Z.add Z.of_nat bind].
  unfold e in *. rewrite steps_snoc in *.
  pose proof (steps_out_business k Hb) as Hbk.
  pose proof (steps_out_bounds k lo) as Hk.
  pose proof (step_out_bounds (steps step_out k lo)).
  rewrite back_pass by (rewrite ?step_back_out by assumption; lia).
  cbn [bind].
  rewrite step_back_out by assumption.
  rewrite (@back_loop_tail _ k 1%nat (steps step_out k lo) lo);
    try lia; try assumption; reflexivity.
Qed.

(** With no day asked for, the loop does not run and [curr_date] is read
    unbound. *)
Lemma getWeekdaysOut_zero (d : date) :
  valid d -> getWeekdaysOut d 0 = Raise UnboundLocalError.
Proof.
  intros Hv. unfold getWeekdaysOut.
  pose proof (snap_forward Hv) as Hs.
  destruct (if weekday d =? 5 then add_days d 2 else Return d) as [s1 | e1];
    cbn [bind] in Hs |- *; [| discriminate].
  rewrite Hs. reflexivity.
Qed.

Lemma getWeekdaysBack_zero (d : date) :
  valid d -> getWeekdaysBack d 0 = Raise UnboundLocalError.
Proof.
  intros Hv. unfold getWeekdaysBack.
  pose proof (snap_backward Hv) as Hs.
  destruct (if weekday d =? 5 then add_days d (-1) else Return d)
    as [s1 | e1]; cbn [bind] in Hs |- *; [| discriminate].
  rewrite Hs. reflexivity.
Qed.

(** X1.  The round trip, for one day or more: going [n] business days out
    with [getWeekdaysOut] and [n] back with [getWeekdaysBack] gives the start
    snapped forward to a business day, as long as the dates on the way stay
    inside the calendar. *)
Lemma round_trip_from_one (d : date) (n : Z) :
  valid d -> 1 <= n -> d + 2 + 3 * n <= MAXORD ->
  (e <- getWeekdaysOut d n ;; getWeekdaysBack e n)
  = Return (nextBusinessDay d).
Proof.
  intros Hv Hn Hhi.
  pose proof (@steps_out_fit d n ltac:(lia) Hhi) as Hfit.
  rewrite getWeekdaysOut_steps by assumption. cbn [bind].
  apply getWeekdaysBack_steps; try assumption.
  - apply nextBusinessDay_business.
  - pose proof (nextBusinessDay_bounds d). unfold valid in Hv. lia.
Qed.

(** *** The loop of [getNumDays] *)

Lemma loop_more_fuel (fuel fuel' : nat) (c e days : Z) (r : result Z) :
  getNumDays_loop fuel c e days = Some r -> (fuel <= fuel')%nat ->
  getNumDays_loop fuel' c e days = Some r.
Proof.
  revert fuel' c days.
  induction fuel as [| fuel IH]; intros fuel' c days H Hle.
  - cbn in H. destruct fuel'; cbn; destruct (c =? e); congruence.
  - destruct fuel' as [| fuel']; [lia |].
    cbn in H |- *. destruct (c =? e); [exact H |].
    destruct (add_days c 1) as [c' | x]; [| exact H].
    destruct (weekday c' =? 5); [apply IH; [exact H | lia] |].
    destruct (weekday c' =? 6); apply IH; try exact H; lia.
Qed.

(** From a business day, the loop reaches the next business day in one or
    three passes and counts one day. *)
Lemma loop_step (fuel : nat) (c e days : Z) :
  business c -> MINORD <= c -> step_out c <= e -> e <= MAXORD ->
  getNumDays_loop (fuel + Z.to_nat (step_out c - c)) c e days
  = getNumDays_loop fuel (step_out c) e (days + 1).
Proof.
  intros Hb Hlo Hle Hhi. pose proof (step_out_bounds c) as Hs.
  unfold step_out in *.
  destruct (Z.eqb_spec (weekday (c + 1)) 5) as [E | E].
  - replace (fuel + Z.to_nat (c + 3 - c))%nat with (S (S (S fuel))) by lia.
    cbn [getNumDays_loop].
    destruct (Z.eqb_spec c e); [lia |].
    rewrite add_days_ok by lia.
    destruct (Z.eqb_spec (weekday (c + 1)) 5); [| lia].
    destruct (Z.eqb_spec (c + 1) e); [lia |].
    rewrite add_days_ok by lia.
    destruct (Z.eqb_spec (weekday (c + 1 + 1)) 5); [week |].
    destruct (Z.eqb_spec (weekday (c + 1 + 1)) 6); [| week].
    destruct (Z.eqb_spec (c + 1 + 1) e); [lia |].
    rewrite add_days_ok by lia.
    destruct (Z.eqb_spec (weekday (c + 1 + 1 + 1)) 5); [week |].
    destruct (Z.eqb_spec (weekday (c + 1 + 1 + 1)) 6); [week |].
    now replace (c + 1 + 1 + 1) with (c + 3) by lia.
  - replace (fuel + Z.to_nat (c + 1 - c))%nat with (S fuel) by lia.
    cbn [getNumDays_loop].
    destruct (Z.eqb_spec c e); [lia |].
    rewrite add_days_ok by lia.
    destruct (Z.eqb_spec (weekday (c + 1)) 5); [lia |].
    destruct (Z.eqb_spec (weekday (c + 1)) 6); [week | reflexivity].
Qed.

Lemma loop_counts_steps (n : nat) (c days : Z) :
  business c -> MINORD <= c -> steps step_out n c <= MAXORD ->
  getNumDays_loop (Z.to_nat (steps step_out n c - c)) c (steps step_out n c)
    days
  = Some (Return (days + Z.of_nat n)).
Proof.
  revert c days. induction n as [| n IH]; intros c days Hb Hlo Hhi.
  - cbn [steps]. replace (c - c) with 0 by lia. cbn.
    rewrite Z.eqb_refl. do 2 f_equal. lia.
  - change (steps step_out (S n) c) with (steps step_out n (step_out c)) in *.
    pose proof (step_out_bounds c) as Hs.
    pose proof (steps_out_bounds n (step_out c)) as Hn.
    replace (Z.to_nat (steps step_out n (step_out c) - c))
      with (Z.to_nat (steps step_out n (step_out c) - step_out c)
            + Z.to_nat (step_out c - c))%nat by lia.
    rewrite loop_step by (try assumption; lia).
    rewrite IH by (try apply step_out_business; try assumption; lia).
    do 2 f_equal. lia.
Qed.

(** X2.  For one day or more, [getNumDays] from a start to the date
    [getWeekdaysOut] puts [n] business days after it returns [n], with any
    budget of passes from the distance between the two dates on. *)
Lemma count_after_advance (d : date) (n : Z) :
  valid d -> 1 <= n -> d + 2 + 3 * n <= MAXORD ->
  exists e fuel,
    getWeekdaysOut d n = Return e /\
    forall fuel', (fuel <= fuel')%nat ->
      getNumDays fuel' d e = Some (Return n).
Proof.
  intros Hv Hn Hhi.
  pose proof (@steps_out_fit d n ltac:(lia) Hhi) as Hfit.
  set (s := nextBusinessDay d) in *.
  exists (steps step_out (Z.to_nat n) s),
         (Z.to_nat (steps step_out (Z.to_nat n) s - s)).
  split; [now apply getWeekdaysOut_steps |].
  intros fuel' Hf. unfold getNumDays.
  pose proof (snap_forward Hv) as Hs.
  destruct (if weekday d =? 5 then add_days d 2 else Return d) as [s1 | e1];
    cbn [bind] in Hs; [| discriminate].
  rewrite Hs. fold s.
  eapply loop_more_fuel; [| exact Hf].
  rewrite loop_counts_steps.
  - do 2 f_equal. lia.
  - apply nextBusinessDay_business.
  - pose proof (nextBusinessDay_bounds d). unfold valid in Hv. lia.
  - exact Hfit.
Qed.



(** With enough passes it does step past 9999-12-31. *)
Lemma loop_overflows (fuel : nat) (c e days : Z) :
  e < c -> valid c -> MAXORD - c < Z.of_nat fuel ->
  getNumDays_loop fuel c e days = Some (Raise OverflowError).
Proof.
  revert c days. unfold valid.
  induction fuel as [| fuel IH]; intros c days Hlt Hlo Hf.
  - lia.
  - cbn [getNumDays_loop]. destruct (Z.eqb_spec c e); [lia |].
    destruct (Z_le_gt_dec (c + 1) MAXORD) as [Hle | Hgt].
    + rewrite add_days_ok by lia.
      destruct (weekday (c + 1) =? 5); [apply IH; lia |].
      destruct (weekday (c + 1) =? 6); apply IH; lia.
    + now rewrite add_days_overflow by lia.
Qed.

(** *** Some dates *)

(** Saturday 2024-01-06 snaps to Monday 2024-01-08. *)
Example nextBusinessDay_saturday : nextBusinessDay 738891 = 738893.
Proof. reflexivity. Qed.

(** Five business days after it: Monday 2024-01-15; 22 business days before
    that Monday: Thursday 2023-12-14. *)
Example getWeekdaysOut_five : getWeekdaysOut 738891 5 = Return 738900.
Proof. reflexivity. Qed.

Example getWeekdaysBack_twenty_two :
  getWeekdaysBack 738900 22 = Return 738868.
Proof. reflexivity. Qed.

Example getNumDays_five : getNumDays 9 738891 738900 = Some (Return 5).
Proof. reflexivity. Qed.

(** The last day of the calendar, a Friday, has no next business day. *)
Example getWeekdaysOut_last_day :
  getWeekdaysOut MAXORD 1 = Raise OverflowError.
Proof. reflexivity. Qed.

(** An end date before the start: the walk from Thursday 9999-12-30 away
    from Wednesday 9999-12-29 ends at the last day of the calendar. *)
Example getNumDays_end_before_start :
  getNumDays 1 3652058 3652057 = None /\
  getNumDays 2 3652058 3652057 = Some (Raise OverflowError).
Proof. split; reflexivity. Qed.

(** *** The claims on business days *)

(** C7 (the code departs from it).  The claim: for every date [d],
    advancing or retreating by 0 business days returns the snapped [d], with
    no error.  The code: with [days_out = 0] the [for] loop of
    [getWeekdaysOut] does not run, [curr_date] is bound nowhere else, and the
    final [return(curr_date)] raises [UnboundLocalError]; the same holds for
    [getWeekdaysBack]. *)
Theorem zero_days_raises (d : date) :
  valid d ->
  getWeekdaysOut d 0 = Raise UnboundLocalError /\
  getWeekdaysBack d 0 = Raise UnboundLocalError.
Proof.
  intros Hv. split;
    [now apply getWeekdaysOut_zero | now apply getWeekdaysBack_zero].
Qed.

Lemma zero_days_raises_witness :
  valid 738891 /\
  getWeekdaysOut 738891 0 = Raise UnboundLocalError /\
  getWeekdaysBack 738891 0 = Raise UnboundLocalError.
Proof.
  assert (Hv : valid 738891) by (unfold valid, MINORD, MAXORD; lia).
  split; [exact Hv | exact (zero_days_raises Hv)].
Defined.

(** C5 (the code departs from it at [n = 0]).  The claim: for every date
    [d] and every [n >= 0], retreating [n] business days from the date [n]
    business days after [d] gives the snapped [d].  The code: at [n = 0] the
    advance raises [UnboundLocalError] and nothing is returned.  For
    [n >= 1] the law holds: [round_trip_from_one]. *)
Theorem round_trip_zero_raises (d : date) :
  valid d ->
  (e <- getWeekdaysOut d 0 ;; getWeekdaysBack e 0)
  = Raise UnboundLocalError.
Proof.
  intros Hv. now rewrite getWeekdaysOut_zero.
Qed.

Lemma round_trip_zero_raises_witness :
  valid 738886 /\
  (e <- getWeekdaysOut 738886 0 ;; getWeekdaysBack e 0)
  = Raise UnboundLocalError.
Proof.
  assert (Hv : valid 738886) by (unfold valid, MINORD, MAXORD; lia).
  split; [exact Hv | exact (round_trip_zero_raises Hv)].
Defined.

(** C6 (the code departs from it at [n = 0]).  The claim: for every start
    and every [n >= 0], the business days counted from the start to the date
    [n] business days after it are [n].  The code: at [n = 0] the advance
    raises [UnboundLocalError], so there is no end date to count to.  For
    [n >= 1] the count is [n]: [count_after_advance]. *)
Theorem count_zero_raises (d : date) (fuel : nat) :
  valid d ->
  (e <~ Some (getWeekdaysOut d 0) ;; getNumDays fuel d e)
  = Some (Raise UnboundLocalError).
Proof.
  intros Hv. now rewrite getWeekdaysOut_zero.
Qed.

Lemma count_zero_raises_witness :
  valid 738886 /\
  (e <~ Some (getWeekdaysOut 738886 0) ;; getNumDays 10 738886 e)
  = Some (Raise UnboundLocalError).
Proof.
  assert (Hv : valid 738886) by (unfold valid, MINORD, MAXORD; lia).
  split; [exact Hv | exact (count_zero_raises 10 Hv)].
Defined.



End CalendarFacts.

(** ** The floor of the historical end date *)

Section WidgetFacts.

Import Calendar Widgets.
Local Open Scope Z_scope.

(** The slot on a business day that is inside the range: the date stays and
    [end_signal] is emitted with it. *)
Lemma onEndDateChange_business (fuel : nat) (w : HistWindowSelect) :
  business (deEnd w) -> valid (deEnd w) ->
  deEnd_minimum w <= deEnd w <= deEnd_maximum w ->
  onEndDateChange (S fuel) w = Some (Return (emit (deEnd w) w)).
Proof.
  intros Hb Hv Hr. cbn [onEndDateChange].
  destruct (Z.eqb_spec (weekday (deEnd w)) 5); [week |].
  destruct (Z.eqb_spec (weekday (deEnd w)) 6); [week |].
  cbn [pbind]. unfold deEnd_setValue, bound.
  destruct (Z.ltb_spec (deEnd w) (deEnd_minimum w)); [lia |].
  destruct (Z.ltb_spec (deEnd_maximum w) (deEnd w)); [lia |].
  now rewrite Z.eqb_refl.
Qed.

(** C4.  For every start date the widget can hold, [setEndDateMinimum] sets
    the minimum of the historical end date to the date 22 business days after
    the start; when the end date is below it, the end date becomes that date
    and [end_signal] is emitted with it, which notifies the connected slots;
    an end date already at or above the floor is left alone.  (The raise and
    the notification happen inside [setMinimumDateTime], through
    [dateChanged] and [onEndDateChange]; the [if] after it then finds nothing
    to do.)  The end date is inside its range when the method is entered, as
    Qt keeps it. *)
Theorem setEndDateMinimum_floor (fuel : nat) (w : HistWindowSelect) :
  deStart_minimum <= deStart w -> deStart w + 68 <= MAXORD ->
  deEnd w <= deEnd_maximum w ->
  (1 <= fuel)%nat ->
  exists floor w',
    getWeekdaysOut (deStart w) 22 = Return floor /\
    setEndDateMinimum fuel w = Some (Return w') /\
    deEnd_minimum w' = floor /\
    (deEnd w < floor ->
     deEnd w' = floor /\ end_signal w' = end_signal w ++ [floor]) /\
    (floor <= deEnd w ->
     deEnd w' = deEnd w /\ end_signal w' = end_signal w).
Proof.
  intros Hlo Hhi Hin Hf.
  assert (Hv : valid (deStart w))
    by (unfold valid, deStart_minimum, MINORD, MAXORD in *; lia).
  pose proof (@steps_out_fit (deStart w) 22 ltac:(lia) ltac:(lia)) as Hfit.
  pose proof (@getWeekdaysOut_steps (deStart w) 22 Hv ltac:(lia) Hfit) as Hout.
  set (floor := steps step_out (Z.to_nat 22) (nextBusinessDay (deStart w)))
    in *.
  assert (Hb : business floor)
    by apply steps_out_business, nextBusinessDay_business.
  assert (Hge : deStart w <= floor).
  { pose proof (steps_out_bounds (Z.to_nat 22) (nextBusinessDay (deStart w))).
    pose proof (nextBusinessDay_bounds (deStart w)). unfold floor. lia. }
  assert (Hvf : valid floor)
    by (unfold valid, deStart_minimum, MINORD in *; lia).
  destruct fuel as [| fuel]; [lia |].
  set (hi := if floor <? deEnd_maximum w then deEnd_maximum w else floor).
  assert (Hhi' : floor <= hi /\ deEnd_maximum w <= hi)
    by (unfold hi; destruct (Z.ltb_spec floor (deEnd_maximum w)); lia).
  unfold setEndDateMinimum. rewrite Hout. cbn [pbind].
  unfold deEnd_setMinimumDateTime.
  destruct (Z.leb_spec QDATETIMEEDIT_DATE_MIN floor) as [_ | Hq];
    [| unfold QDATETIMEEDIT_DATE_MIN, deStart_minimum in *; lia].
  fold hi. unfold deEnd_setValue at 1, bound.
  cbn [with_range deEnd deEnd_minimum deEnd_maximum].
  destruct (Z.ltb_spec (deEnd w) floor) as [Hlt | Hnlt].
  - destruct (Z.ltb_spec hi floor); [lia |].
    destruct (Z.eqb_spec floor (deEnd w)); [lia |].
    rewrite onEndDateChange_business;
      cbn [with_deEnd with_range deEnd deEnd_minimum deEnd_maximum];
      try assumption; try lia.
    cbn [pbind emit deEnd]. rewrite Z.ltb_irrefl.
    eexists _, _. split; [reflexivity |]. split; [reflexivity |].
    cbn [emit with_deEnd with_range deEnd deEnd_minimum end_signal].
    split; [reflexivity |]. split; intros; [split; reflexivity | lia].
  - destruct (Z.ltb_spec hi (deEnd w)) as [Hgt | Hngt]; [lia |].
    rewrite Z.eqb_refl. cbn [pbind with_range deEnd].
    destruct (Z.ltb_spec (deEnd w) floor); [lia |].
    eexists _, _. split; [reflexivity |]. split; [reflexivity |].
    cbn [with_range deEnd deEnd_minimum end_signal].
    split; [reflexivity |]. split; intros; [lia | split; reflexivity].
Qed.

Lemma setEndDateMinimum_floor_witness :
  exists floor w',
    getWeekdaysOut 735599 22 = Return floor /\
    setEndDateMinimum 1
      {| deStart := 735599; deEnd := 730120; deEnd_minimum := 639799;
         deEnd_maximum := 737625; end_signal := [] |}
    = Some (Return w') /\
    deEnd_minimum w' = floor /\
    (730120 < floor -> deEnd w' = floor /\ end_signal w' = [] ++ [floor]) /\
    (floor <= 730120 -> deEnd w' = 730120 /\ end_signal w' = []).
Proof.
  apply (@setEndDateMinimum_floor 1
           {| deStart := 735599; deEnd := 730120; deEnd_minimum := 639799;
              deEnd_maximum := 737625; end_signal := [] |});
    cbn; unfold deStart_minimum, MAXORD; lia.
Defined.

(** From the earliest start, 2015-01-01, and Qt's default end date,
    2000-01-01: the floor is 2015-02-02 and the end date is raised to it. *)
Example setEndDateMinimum_at_start :
  setEndDateMinimum 1
    {| deStart := 735599; deEnd := 730120; deEnd_minimum := 639799;
       deEnd_maximum := 737625; end_signal := [] |}
  = Some (Return
      {| deStart := 735599; deEnd := 735631; deEnd_minimum := 735631;
         deEnd_maximum := 737625; end_signal := [735631] |}).
Proof. vm_compute. reflexivity. Qed.

End WidgetFacts.

(** ** Calibration *)

Section CalibrationFacts.

Import Calibration.
Local Open Scope R_scope.

Lemma last_cons (l : list R) (p d : R) : last (p :: l) d = last l p.
Proof.
  revert p d. induction l as [| q l IH]; intros p d; [reflexivity |].
  change (last (p :: q :: l) d) with (last (q :: l) d).
  now rewrite !IH.
Qed.

Lemma fsum_acc (l : list R) (a : R) :
  fold_left fadd (map Fin l) (Fin a) = Fin (fold_left Rplus l a).
Proof.
  revert a. induction l as [| x l IH]; intros a; [reflexivity |].
  cbn. apply IH.
Qed.

Lemma fsum_Fin (l : list R) : fsum (map Fin l) = Fin (Rsum l).
Proof. apply fsum_acc. Qed.

Lemma notna_Fin (l : list R) : notna (map Fin l) = map Fin l.
Proof.
  unfold notna. induction l as [| x l IH]; [reflexivity |].
  cbn. now rewrite IH.
Qed.

Lemma Rsum_acc (l : list R) (a : R) : fold_left Rplus l a = a + Rsum l.
Proof.
  unfold Rsum. revert a. induction l as [| x l IH]; intros a; cbn.
  - lra.
  - rewrite IH, (IH (0 + x)). lra.
Qed.

Lemma Rsum_cons (x : R) (l : list R) : Rsum (x :: l) = x + Rsum l.
Proof. unfold Rsum at 1. cbn. rewrite Rsum_acc. lra. Qed.

Lemma Rsum_nonneg (l : list R) : Forall (fun x => 0 <= x) l -> 0 <= Rsum l.
Proof.
  induction 1 as [| x l Hx _ IH]; [unfold Rsum; cbn; lra |].
  rewrite Rsum_cons. lra.
Qed.

Lemma sum_sq_dev_nonneg (l : list R) : 0 <= sum_sq_dev l.
Proof.
  unfold sum_sq_dev. apply Rsum_nonneg, Forall_forall.
  intros y Hy. apply in_map_iff in Hy. destruct Hy as (x & <- & _).
  cbv beta. generalize (x - sample_mean l). intros z. nra.
Qed.

(** On a tame series pandas and numpy compute the returns of the
    specification, with no special value but the leading NaN. *)
Lemma returns_from_tame (prev : R) (l : list R) :
  0 < prev -> tame_from prev l ->
  map (fun x => flog (fsub (Fin 1) x)) (pct_change_from prev l)
  = map Fin (logReturns_from prev l).
Proof.
  revert prev. induction l as [| p l IH]; intros prev Hprev Ht;
    [reflexivity |].
  destruct Ht as [[Hp Hlt] Ht]. cbn [pct_change_from logReturns_from map].
  rewrite (IH p Hp Ht). f_equal.
  unfold fdiv. destruct (Req_dec_T prev 0) as [E | _]; [lra |].
  cbn [fsub fopp fadd flog].
  assert (Hq : p / prev < 2).
  { apply Rmult_lt_reg_r with prev; [exact Hprev |].
    unfold Rdiv. rewrite Rmult_assoc, Rinv_l by lra. lra. }
  destruct (Rlt_dec 0 (1 + - (p / prev + - (1)))) as [_ | N]; [| lra].
  do 2 f_equal. field. lra.
Qed.

Lemma logReturns_from_length (prev : R) (l : list R) :
  length (logReturns_from prev l) = length l.
Proof.
  revert prev. induction l as [| p l IH]; intros prev; [reflexivity |].
  cbn. now rewrite IH.
Qed.

Lemma notna_NaN (l : list float) : notna (NaN :: l) = notna l.
Proof. reflexivity. Qed.

Lemma fdiv_Fin (a b : R) : b <> 0 -> fdiv (Fin a) (Fin b) = Fin (a / b).
Proof.
  intros Hb. unfold fdiv. now destruct (Req_dec_T b 0).
Qed.

Lemma INR_S_neq_0 (k : nat) : INR (S k) <> 0.
Proof. apply not_0_INR. discriminate. Qed.

(** The mean pandas computes on finite values. *)
Lemma mean_Fin (x : R) (r : list R) :
  mean (NaN :: map Fin (x :: r)) = Fin (sample_mean (x :: r)).
Proof.
  unfold mean. rewrite notna_NaN, notna_Fin.
  change (map Fin (x :: r)) with (Fin x :: map Fin r) at 1.
  cbv iota beta.
  rewrite fsum_Fin, length_map. cbn [length].
  now rewrite fdiv_Fin by apply INR_S_neq_0.
Qed.

(** The standard deviation pandas computes on finite values, as the float
    value of [sqrt (sum of squared deviations / (N - 1))]. *)
Lemma std_Fin (x : R) (r : list R) :
  std (NaN :: map Fin (x :: r))
  = fsqrt (fdiv (Fin (sum_sq_dev (x :: r)))
                (Fin (INR (length (x :: r)) - 1))).
Proof.
  unfold std. rewrite notna_NaN, notna_Fin, length_map.
  destruct r as [| y r].
  - cbn [length Nat.leb].
    replace (INR 1 - 1) with 0 by (cbn; lra).
    unfold fdiv. destruct (Req_dec_T 0 0) as [_ | N]; [| lra].
    assert (E : sum_sq_dev [x] = 0).
    { unfold sum_sq_dev, sample_mean. cbn [map length]. rewrite !Rsum_cons.
      unfold Rsum. cbn. field. }
    rewrite E. unfold signed_inf.
    destruct (Rlt_dec 0 0); [lra |]. reflexivity.
  - cbn [length Nat.leb].
    rewrite fsum_Fin.
    rewrite fdiv_Fin by apply INR_S_neq_0.
    fold (sample_mean (x :: y :: r)) in *.
    change (Rsum (x :: y :: r) / INR (S (S (length r))))
      with (sample_mean (x :: y :: r)).
    set (m := sample_mean (x :: y :: r)).
    rewrite map_map.
    rewrite (map_ext _ (fun z => Fin ((z - m) * (z - m)))).
    2:{ intros z. cbn [fsub fopp fadd fmul]. f_equal. ring. }
    rewrite <- (map_map (fun z => (z - m) * (z - m)) Fin).
    rewrite fsum_Fin.
    replace (INR (S (S (length r)) - 1)) with (INR (S (S (length r))) - 1).
    2:{ replace (S (S (length r)) - 1)%nat with (S (length r)) by lia.
        rewrite (S_INR (S (length r))). lra. }
    reflexivity.
Qed.

(** C3, amended.  For every price series of at least 2 observations in
    which each price is positive and less than twice the one before (so that
    every return is defined), calibration computes ln(1 - (p_i - p_(i-1)) / p_(i-1)) for each
    consecutive pair and outputs the mean of these returns, their sample
    standard deviation with the N - 1 denominator, and the last price of the
    series as the initial price.  With exactly 2 observations there is one
    return and the N - 1 denominator is 0: the standard deviation is NaN. *)
Theorem calibrate_mean_std_last (data : list R) :
  (2 <= length data)%nat -> tame data ->
  let r := logReturns data in
  let n := INR (length r) in
  let sig := fsqrt (fdiv (Fin (sum_sq_dev r)) (Fin (n - 1))) in
  calibrate data = Return (Fin (last data 0), Fin (sample_mean r), sig) /\
  length r = (length data - 1)%nat /\
  ((3 <= length data)%nat -> sig = Fin (sqrt (sum_sq_dev r / (n - 1)))) /\
  (length data = 2%nat -> sig = NaN).
Proof.
  intros Hlen Ht r n sig. subst sig n r.
  destruct data as [| p l]; [cbn in Hlen; lia |].
  destruct Ht as [Hp Ht].
  cbn [logReturns].
  pose proof (logReturns_from_length p l) as Hr.
  split; [| split; [cbn [length]; lia | split]].
  - unfold calibrate. cbn [pct_change map iloc_last bind].
    rewrite returns_from_tame by assumption.
    rewrite last_cons.
    destruct (logReturns_from p l) as [| x r] eqn:E;
      [cbn in Hr, Hlen; lia |].
    change (flog (fsub (Fin 1) NaN)) with NaN.
    now rewrite mean_Fin, std_Fin.
  - intros H3. cbn [length] in H3.
    assert (Hn : 1 < INR (length (logReturns_from p l))).
    { rewrite Hr. replace 1 with (INR 1) by reflexivity.
      apply lt_INR. lia. }
    rewrite fdiv_Fin by lra.
    unfold fsqrt.
    destruct (Rlt_dec _ 0) as [Hneg | _]; [| reflexivity].
    exfalso. pose proof (sum_sq_dev_nonneg (logReturns_from p l)) as Hs.
    assert (0 <= sum_sq_dev (logReturns_from p l)
                 / (INR (length (logReturns_from p l)) - 1)).
    { apply Rmult_le_pos; [exact Hs |].
      apply Rlt_le, Rinv_0_lt_compat. lra. }
    lra.
  - intros H2. cbn [length] in H2.
    destruct (logReturns_from p l) as [| x [| y r]] eqn:E;
      cbn [length] in Hr; try lia.
    rewrite <- (std_Fin x []). unfold std.
    rewrite notna_NaN, notna_Fin. reflexivity.
Qed.

Lemma calibrate_mean_std_last_witness :
  let data := [100; 110; 121] in
  let r := logReturns data in
  let n := INR (length r) in
  let sig := fsqrt (fdiv (Fin (sum_sq_dev r)) (Fin (n - 1))) in
  calibrate data = Return (Fin (last data 0), Fin (sample_mean r), sig) /\
  length r = (length data - 1)%nat /\
  ((3 <= length data)%nat -> sig = Fin (sqrt (sum_sq_dev r / (n - 1)))) /\
  (length data = 2%nat -> sig = NaN).
Proof.
  apply (@calibrate_mean_std_last [100; 110; 121]).
  - cbn. lia.
  - cbn. lra.
Defined.

(** C9 (as the code has it).  The claim, that calibration of a series of
    fewer than 2 observations fails with an InsufficientData error, does not
    hold: on one observation nothing is raised and the mean and the standard
    deviation come out NaN. *)
Lemma calibrate_single_no_error :
  calibrate [100] = Return (Fin 100, NaN, NaN).
Proof. reflexivity. Qed.

(** C9, amended.  For every price series with fewer than 2 observations,
    calibration either raises [IndexError] at [data.iloc[-1]] (the empty
    series) or, on a single observation, raises nothing and returns that
    price as the initial price with a NaN mean and a NaN standard
    deviation. *)
Theorem calibrate_short_series (data : list R) :
  (length data < 2)%nat ->
  (data = [] /\ calibrate data = Raise IndexError) \/
  (exists p, data = [p] /\ calibrate data = Return (Fin p, NaN, NaN)).
Proof.
  intros Hlen. destruct data as [| p [| q l]].
  - left. split; reflexivity.
  - right. exists p. split; reflexivity.
  - cbn in Hlen. lia.
Qed.

Lemma calibrate_short_series_witness :
  ([100] = [] /\ calibrate [100] = Raise IndexError) \/
  (exists p, [100] = [p] /\ calibrate [100] = Return (Fin p, NaN, NaN)).
Proof.
  apply (@calibrate_short_series [100]). cbn. lia.
Defined.

(** What the code returns on a series whose price more than doubles once:
    the logarithm of a negative number is NaN, and pandas leaves it out. *)
Lemma calibrate_doubling (data := [100; 250; 275]) :
  calibrate data = Return (Fin 275, Fin (ln (1 - (275 - 250) / 250)), NaN).
Proof.
  unfold data, calibrate.
  cbn [pct_change pct_change_from map iloc_last bind last].
  rewrite !fdiv_Fin by lra. cbn [fsub fopp fadd flog].
  destruct (Rlt_dec 0 (1 + - (250 / 100 + - (1)))) as [H | _]; [lra |].
  destruct (Rlt_dec (1 + - (250 / 100 + - (1))) 0) as [_ | H]; [| lra].
  destruct (Rlt_dec 0 (1 + - (275 / 250 + - (1)))) as [_ | H]; [| lra].
  unfold mean, std. cbn [notna filter isnan negb length Nat.leb fsum fold_left].
  cbn [fadd]. rewrite fdiv_Fin by (cbn; lra).
  do 3 f_equal. cbn [INR]. replace (0 + ln (1 + - (275 / 250 + - (1))))
    with (ln (1 + - (275 / 250 + - (1)))) by lra.
  unfold Rdiv at 1. rewrite Rinv_1, Rmult_1_r. do 2 f_equal. lra.
Qed.

(** C3 (as the code has it).  The claim does not hold for every series of
    at least 2 observations.  On 100, 250, 275 there are two consecutive
    pairs; the return of the first is the logarithm of a negative number,
    NaN, which pandas skips: the mean is that of the second return alone and
    the standard deviation, left with one value, is NaN, where the N - 1
    denominator of two returns is 1. *)
Lemma calibrate_skips_undefined_return :
  let data := [100; 250; 275] in
  let r := logReturns data in
  calibrate data = Return (Fin 275, Fin (ln (1 - (275 - 250) / 250)), NaN) /\
  length r = 2%nat /\
  calibrate data
  <> Return (Fin (last data 0), Fin (sample_mean r),
             fsqrt (fdiv (Fin (sum_sq_dev r)) (Fin (INR (length r) - 1)))).
Proof.
  intros data r. split; [apply calibrate_doubling |].
  split; [reflexivity |].
  assert (Hs : fsqrt (fdiv (Fin (sum_sq_dev r)) (Fin (INR (length r) - 1)))
               = Fin (sqrt (sum_sq_dev r / 1))).
  { replace (INR (length r) - 1) with 1 by (cbn; lra).
    rewrite fdiv_Fin by lra. unfold fsqrt.
    destruct (Rlt_dec (sum_sq_dev r / 1) 0) as [Hneg | _]; [| reflexivity].
    pose proof (sum_sq_dev_nonneg r). lra. }
  rewrite Hs. unfold data at 1. rewrite calibrate_doubling. discriminate.
Qed.

End CalibrationFacts.

(** ** Simulation *)

Lemma nth_map_seq {A : Type} (f : nat -> A) (n len : nat) (d : A) :
  (n < len)%nat -> nth n (map f (seq 0 len)) d = f n.
Proof.
  intros H.
  rewrite (nth_indep _ d (f 0%nat)) by now rewrite length_map, length_seq.
  rewrite map_nth, seq_nth by exact H. reflexivity.
Qed.

Section SimulatorFacts.

Import GBM.
Local Open Scope R_scope.

Variable rng : Type.
Variable rand : rng -> R * rng.
Variable ppf : R -> R.
Variables p0 mu sig : R.

Let price := GBM.price rand ppf p0 mu sig.
Let path_of := GBM.path_of rand ppf p0 mu sig.

Lemma after_S (n : nat) (g : rng) :
  after rand (S n) g = snd (rand (after rand n g)).
Proof.
  revert g. induction n as [| n IH]; intros g; [reflexivity |].
  change (after rand (S (S n)) g) with (after rand (S n) (snd (rand g))).
  now rewrite IH.
Qed.

Lemma after_add (a b : nat) (g : rng) :
  after rand (a + b) g = after rand b (after rand a g).
Proof.
  revert g. induction a as [| a IH]; intros g; [reflexivity |].
  cbn. apply IH.
Qed.

Lemma draw_after (a t : nat) (g : rng) :
  draw rand (after rand a g) t = draw rand g (a + t).
Proof. unfold draw. now rewrite after_add. Qed.

Lemma price_after (a t : nat) (g : rng) :
  price (after rand a g) (S t)
  = price (after rand a g) t
    + (mu * price (after rand a g) t
       + sig * price (after rand a g) t * ppf (draw rand g (a + S t))).
Proof. unfold price. cbn [GBM.price]. now rewrite draw_after. Qed.

(** The passes of the inner loop after the first one. *)
Lemma inner_rest (g : rng) (k t : nat) (path : list R) :
  for_each (map (fun i => (1 + Z.of_nat i)%Z) (seq (S t) k))
    (inner_body rand ppf p0 mu sig)
    (path, Some (price g t), after rand (S t) g)
  = Return (path ++ map (price g) (seq (S t) k),
            Some (price g (t + k)), after rand (S t + k) g).
Proof.
  revert t path. induction k as [| k IH]; intros t path.
  - cbn [seq map for_each]. rewrite app_nil_r, !Nat.add_0_r. reflexivity.
  - cbn [seq map for_each]. unfold inner_body at 1.
    destruct (rand (after rand (S t) g)) as [u g1] eqn:Er.
    destruct (Z.eqb_spec (1 + Z.of_nat (S t)) 1); [lia |].
    cbn [read_local bind].
    assert (Eu : u = draw rand g (S t)) by (unfold draw; now rewrite Er).
    assert (Eg : g1 = after rand (S (S t)) g)
      by (rewrite (after_S (S t)); now rewrite Er).
    rewrite Eu, Eg.
    change (price g t + (mu * price g t
                         + sig * price g t * ppf (draw rand g (S t))))
      with (price g (S t)).
    rewrite IH. rewrite <- app_assoc. cbn [app].
    replace (S t + k)%nat with (t + S k)%nat by lia.
    now replace (S (S t) + k)%nat with (S t + S k)%nat by lia.
Qed.

(** One trial: [days + 1] prices, as many draws. *)
Lemma inner_loop (days : Z) (c : option R) (g : rng) :
  (0 <= days)%Z ->
  for_each (range 1 (days + 2)) (inner_body rand ppf p0 mu sig) ([], c, g)
  = Return (map (price g) (seq 0 (S (Z.to_nat days))),
            Some (price g (Z.to_nat days)),
            after rand (S (Z.to_nat days)) g).
Proof.
  intros Hd. unfold range.
  replace (Z.to_nat (days + 2 - 1)) with (S (Z.to_nat days)) by lia.
  cbn [seq map for_each]. unfold inner_body at 1.
  destruct (rand g) as [u g1] eqn:Er.
  change (1 + Z.of_nat 0)%Z with 1%Z.
  cbn [Z.eqb Pos.eqb bind app].
  replace g1 with (after rand 1 g) by (cbn; now rewrite Er).
  exact (inner_rest g (Z.to_nat days) 0 [p0]).
Qed.

(** The trials: each one starts where the one before left the generator. *)
Lemma outer_loop (days : Z) (xs : list Z) (paths : list (list R))
    (c : option R) (g : rng) :
  (0 <= days)%Z ->
  let h := Z.to_nat days in
  exists c',
    for_each xs (outer_body rand ppf p0 mu sig days) (paths, c, g)
    = Return (paths ++ map (fun i => path_of h (after rand (i * S h) g))
                          (seq 0 (length xs)),
              c', after rand (length xs * S h) g).
Proof.
  intros Hd h. revert paths c g.
  induction xs as [| x xs IH]; intros paths c g.
  - exists c. cbn. now rewrite app_nil_r.
  - cbn [for_each]. unfold outer_body at 1.
    rewrite inner_loop by exact Hd. cbn [bind]. fold h.
    destruct (IH (paths ++ [path_of h g]) (Some (price g h))
                 (after rand (S h) g)) as [c' E].
    exists c'. change (map (price g) (seq 0 (S h))) with (path_of h g).
    rewrite E. rewrite <- app_assoc. cbn [app length seq map].
    rewrite <- seq_shift, map_map.
    change (after rand (0 * S h) g) with g.
    replace (S (length xs) * S h)%nat
      with (S h + length xs * S h)%nat by lia.
    rewrite after_add. do 4 f_equal.
    f_equal. apply map_ext. intros i.
    replace (S i * S h)%nat with (S h + i * S h)%nat by lia.
    now rewrite after_add.
Qed.

(** [np.hstack] of one column or more, all of one length. *)
Lemma hstack_columns (F : nat -> list R) (k len : nat) :
  (forall i, length (F i) = len) ->
  hstack (map F (seq 0 (S k)))
  = Return (map (fun r => map (fun q => nth r q 0) (map F (seq 0 (S k))))
                (seq 0 len)).
Proof.
  intros HF. unfold hstack.
  change (map F (seq 0 (S k))) with (F 0%nat :: map F (seq 1 k)) at 1.
  cbv iota beta.
  replace (forallb _ (map F (seq 0 (S k)))) with true.
  - now rewrite HF.
  - symmetry. apply forallb_forall. intros q Hq.
    apply in_map_iff in Hq. destruct Hq as (i & <- & _).
    rewrite !HF. apply Nat.eqb_refl.
Qed.

Lemma entry_columns (F : nat -> list R) (k len t i : nat) :
  (t < len)%nat -> (i < k)%nat ->
  entry (map (fun r => map (fun q => nth r q 0) (map F (seq 0 k)))
             (seq 0 len)) t i
  = nth t (F i) 0.
Proof.
  intros Ht Hi. unfold entry.
  rewrite (nth_map_seq _ _ Ht), map_map.
  now rewrite (nth_map_seq _ _ Hi).
Qed.

(** C1.  For every initial price, drift, volatility, horizon [days >= 0] and
    trial count [trials >= 1], the simulator returns an array of
    [days + 1] rows and [trials] columns whose row 0 holds the initial price
    in every column and whose entry at step [t] of trial [i], for
    [1 <= t <= days], is
    price(t-1) + mu * price(t-1) + sig * price(t-1) * z, with [z] the inverse
    normal CDF of a uniform draw of its own: the draw number
    [i * (days + 1) + t] of the generator, and these numbers differ from one
    (trial, step) to the other. *)
Theorem simulate_paths (trials days : Z) (g : rng) :
  (1 <= trials)%Z -> (0 <= days)%Z ->
  let k := Z.to_nat trials in
  let h := Z.to_nat days in
  exists path_array,
    simulate rand ppf p0 mu sig trials days g
    = Return (path_array, after rand (k * S h) g) /\
    length path_array = S h /\
    Forall (fun row => length row = k) path_array /\
    (forall i, (i < k)%nat ->
       entry path_array 0 i = p0 /\
       forall t, (1 <= t <= h)%nat ->
         entry path_array t i
         = entry path_array (t - 1) i
           + mu * entry path_array (t - 1) i
           + sig * entry path_array (t - 1) i
             * ppf (draw rand g (i * S h + t))) /\
    (forall i i' t t', (t <= h)%nat -> (t' <= h)%nat ->
       (i * S h + t = i' * S h + t')%nat -> i = i' /\ t = t').
Proof.
  intros Hk Hd k h.
  set (F := fun i => path_of h (after rand (i * S h) g)).
  assert (HF : forall i, length (F i) = S h)
    by (intros i; unfold F, path_of, GBM.path_of;
        now rewrite length_map, length_seq).
  assert (Hxs : length (range 0 trials) = k)
    by (unfold range; rewrite length_map, length_seq; subst k; f_equal; lia).
  destruct (@outer_loop days (range 0 trials) [] None g Hd) as [c' E].
  fold h in E. rewrite Hxs in E. cbn [app] in E. fold F in E.
  destruct k as [| k'] eqn:Ek; [lia |].
  eexists. split; [| split; [| split; [| split]]].
  - unfold simulate. rewrite E. cbn [bind].
    rewrite (hstack_columns F k' HF). reflexivity.
  - now rewrite length_map, length_seq.
  - apply Forall_forall. intros row Hrow.
    apply in_map_iff in Hrow. destruct Hrow as (r & <- & _).
    now rewrite !length_map, length_seq.
  - intros i Hi.
    assert (Hent : forall t, (t <= h)%nat ->
              entry (map (fun r => map (fun q => nth r q 0)
                                       (map F (seq 0 (S k'))))
                         (seq 0 (S h))) t i
              = price (after rand (i * S h) g) t).
    { intros t Ht. rewrite entry_columns by lia.
      unfold F, path_of, GBM.path_of. now rewrite nth_map_seq by lia. }
    split.
    + rewrite Hent by lia. reflexivity.
    + intros t Ht. rewrite !Hent by lia.
      destruct t as [| t]; [lia |].
      replace (S t - 1)%nat with t by lia.
      rewrite price_after. ring.
  - intros i i' t t' Ht Ht' Heq.
    assert (Hi : i = i').
    { destruct (Nat.lt_trichotomy i i') as [L | [L | L]]; [| exact L |]; nia. }
    subst i'. split; [reflexivity | lia].
Qed.

End SimulatorFacts.

(** The generator used to run the simulator on examples: its state is a
    counter, the draw is the counter. *)
Lemma simulate_paths_witness :
  let rand := fun n : nat => (INR n, S n) in
  let ppf := fun u : R => u in
  let k := Z.to_nat 2 in
  let h := Z.to_nat 3 in
  exists path_array,
    GBM.simulate rand ppf 100 0 0 2 3 0%nat
    = Return (path_array, GBM.after rand (k * S h) 0%nat) /\
    length path_array = S h /\
    Forall (fun row => length row = k) path_array /\
    (forall i, (i < k)%nat ->
       GBM.entry path_array 0 i = 100%R /\
       forall t, (1 <= t <= h)%nat ->
         GBM.entry path_array t i
         = (GBM.entry path_array (t - 1) i
            + 0 * GBM.entry path_array (t - 1) i
            + 0 * GBM.entry path_array (t - 1) i
              * ppf (GBM.draw rand 0%nat (i * S h + t)))%R) /\
    (forall i i' t t', (t <= h)%nat -> (t' <= h)%nat ->
       (i * S h + t = i' * S h + t')%nat -> i = i' /\ t = t').
Proof.
  intros rand ppf.
  apply (@simulate_paths nat rand ppf 100%R 0%R 0%R 2%Z 3%Z 0%nat); lia.
Defined.

(** ** Estimation *)

Section EstimatorFacts.

Import VaR.
Local Open Scope R_scope.

Lemma Rleb_true (x y : R) : x <= y -> Rleb x y = true.
Proof. intros H. unfold Rleb. now destruct (Rle_dec x y). Qed.

Lemma Rleb_false (x y : R) : y < x -> Rleb x y = false.
Proof. intros H. unfold Rleb. destruct (Rle_dec x y); [lra | reflexivity]. Qed.

Lemma insert_perm (x : R) (l : list R) : Permutation (x :: l) (insert x l).
Proof.
  induction l as [| y l IH]; cbn; [reflexivity |].
  destruct (Rleb x y); [reflexivity |].
  rewrite perm_swap. now apply perm_skip.
Qed.

Lemma sort_perm (l : list R) : Permutation l (sort l).
Proof.
  induction l as [| x l IH]; cbn; [reflexivity |].
  rewrite <- insert_perm. now apply perm_skip.
Qed.

Lemma insert_sorted (x : R) (l : list R) :
  Sorted Rle l -> Sorted Rle (insert x l).
Proof.
  induction l as [| y l IH]; intros Hs; cbn.
  - repeat constructor.
  - unfold Rleb. destruct (Rle_dec x y) as [Hle | Hgt].
    + constructor; [exact Hs | now constructor].
    + inversion Hs as [| ? ? Hs' Hhd]; subst.
      constructor; [now apply IH |].
      destruct l as [| z l]; cbn.
      * constructor. lra.
      * unfold Rleb. destruct (Rle_dec x z); constructor; try lra.
        now inversion Hhd.
Qed.

Lemma sort_sorted (l : list R) : Sorted Rle (sort l).
Proof.
  induction l as [| x l IH]; cbn; [constructor | now apply insert_sorted].
Qed.

(** The row at the horizon of an array of [days + 1] rows is its last. *)
Lemma nth_last (l : list (list R)) (n : nat) :
  length l = S n -> nth n l [] = last l [].
Proof.
  revert n. induction l as [| x l IH]; intros n H; [discriminate |].
  destruct l as [| y l].
  - cbn in H. now replace n with 0%nat by lia.
  - destruct n as [| n]; [cbn in H; lia |].
    change (last (x :: y :: l) []) with (last (y :: l) []).
    cbn [nth]. apply IH. cbn in H |- *. lia.
Qed.

Lemma row_terminal (path_array : list (list R)) (days : Z) :
  (0 <= days)%Z -> length path_array = S (Z.to_nat days) ->
  row path_array days = Return (last path_array []).
Proof.
  intros Hd Hl. unfold row.
  destruct (Z.ltb_spec days 0); [lia |].
  destruct (Z.leb_spec 0 days); [| lia].
  destruct (Z.ltb_spec days (Z.of_nat (length path_array))); [| lia].
  cbn [andb]. now rewrite nth_last.
Qed.

(** The floor of the index is the index of a value of the array. *)
Lemma floor_index (x : R) (n : nat) :
  0 <= x <= INR n - 1 ->
  (Z.to_nat (Int_part x) < n)%nat /\ (0 <= Int_part x)%Z.
Proof.
  intros [Hlo Hhi]. destruct (base_Int_part x) as [H1 H2].
  assert (Hz : (0 <= Int_part x)%Z).
  { apply Z.lt_succ_r. apply lt_IZR. rewrite succ_IZR. lra. }
  split; [| exact Hz].
  apply INR_lt. rewrite INR_IZR_INZ, Z2Nat.id by exact Hz.
  lra.
Qed.

(** The percentile numpy computes, for a rank inside [[0, 100]]. *)
Lemma percentile_linear (a : list R) (p : R) :
  a <> [] -> 0 <= p <= 1 ->
  let index := p * (INR (length a) - 1) in
  let below := Z.to_nat (Int_part index) in
  let above := Nat.min (below + 1) (length a - 1) in
  percentile a (p * 100)
  = Return (nth below (sort a) 0
            + (nth above (sort a) 0 - nth below (sort a) 0)
              * frac_part index).
Proof.
  intros Ha Hp index below above. unfold percentile.
  replace (p * 100 / 100) with p by field.
  rewrite !Rleb_true by lra. cbn [andb].
  destruct a as [| x a]; [contradiction |]. reflexivity.
Qed.

Lemma percentile_outside (a : list R) (q : R) :
  q < 0 \/ 100 < q -> percentile a q = Raise ValueError.
Proof.
  intros H. unfold percentile.
  destruct H as [H | H].
  - rewrite (@Rleb_false 0 (q / 100)) by lra. reflexivity.
  - rewrite (@Rleb_false (q / 100) 1) by lra. now rewrite andb_false_r.
Qed.

(** The terminal values 10, 20, 30, 40, 100 at confidence 0.95: the rank
    is the 5th percentile, the index 0.2 is between 10 and 20. *)
Example percentile_fifth :
  percentile [40; 10; 100; 30; 20] ((1 - 95 / 100) * 100) = Return 12.
Proof.
  rewrite percentile_linear by (try discriminate; lra).
  cbn [sort length].
  repeat (cbn [insert];
          first [rewrite Rleb_true by lra | rewrite Rleb_false by lra]).
  cbn [INR]. unfold frac_part.
  replace (Int_part ((1 - 95 / 100) * (1 + 1 + 1 + 1 + 1 - 1))) with 0%Z
    by (apply Int_part_spec; cbn; lra).
  cbn [Z.to_nat Nat.add Nat.sub Nat.min nth]. f_equal. cbn. lra.
Qed.

(** C2.  For every path ensemble of [days + 1] rows and every confidence
    level [c] with [0 < c < 1], the estimator takes the terminal row (the
    last one, the prices at the horizon), computes its [(1 - c) * 100]-th
    percentile by linear interpolation between two neighbouring order
    statistics (the values at ranks [below] and [above] of the row in
    increasing order), and returns [max (p0 - percentile) 0], which is never
    negative. *)
Theorem estimate_clamped_percentile (p0 : R) (path_array : list (list R))
    (days : Z) (c : R) :
  0 < c < 1 ->
  (0 <= days)%Z -> length path_array = S (Z.to_nat days) ->
  last path_array [] <> [] ->
  let t_returns := last path_array [] in
  let n := length t_returns in
  let index := (1 - c) * (INR n - 1) in
  let below := Z.to_nat (Int_part index) in
  let above := Nat.min (below + 1) (n - 1) in
  exists s perc,
    Permutation t_returns s /\ Sorted Rle s /\
    (below <= above < n)%nat /\
    perc = nth below s 0 + (nth above s 0 - nth below s 0) * frac_part index /\
    estimate p0 path_array days c = Return (Rmax (p0 - perc) 0) /\
    0 <= Rmax (p0 - perc) 0.
Proof.
  intros Hc Hd Hl Hne t_returns n index below above.
  exists (sort t_returns). eexists.
  split; [apply sort_perm |]. split; [apply sort_sorted |].
  assert (Hn : (1 <= n)%nat).
  { subst n t_returns.
    destruct (last path_array []); [contradiction | cbn; lia]. }
  assert (Hn' : 1 <= INR n)
    by (replace 1 with (INR 1) by reflexivity; now apply le_INR).
  assert (Hidx : 0 <= index <= INR n - 1) by (subst index; split; nra).
  destruct (floor_index n Hidx) as [Hb _]. fold below in Hb.
  split; [subst above; lia |].
  split; [reflexivity |].
  split; [| apply Rmax_r].
  unfold estimate. rewrite row_terminal by assumption. cbn [bind].
  fold t_returns.
  rewrite (@percentile_linear t_returns (1 - c)) by (try assumption; lra).
  reflexivity.
Qed.

Lemma estimate_clamped_percentile_witness :
  let path_array := [[100; 100; 100]; [90; 120; 105]] in
  let c := 95 / 100 in
  let t_returns := last path_array [] in
  let n := length t_returns in
  let index := (1 - c) * (INR n - 1) in
  let below := Z.to_nat (Int_part index) in
  let above := Nat.min (below + 1) (n - 1) in
  exists s perc,
    Permutation t_returns s /\ Sorted Rle s /\
    (below <= above < n)%nat /\
    perc = nth below s 0 + (nth above s 0 - nth below s 0) * frac_part index /\
    estimate 100 path_array 1 c = Return (Rmax (100 - perc) 0) /\
    0 <= Rmax (100 - perc) 0.
Proof.
  apply (@estimate_clamped_percentile 100 [[100; 100; 100]; [90; 120; 105]]
           1%Z (95 / 100)).
  - lra.
  - lia.
  - reflexivity.
  - cbn. discriminate.
Defined.

(** C8 (as the code has it).  The claim, that the estimation fails for every
    confidence level [c <= 0] or [c >= 1], does not hold at the two
    boundary values, where the rank is exactly 100 and exactly 0 and nothing
    is rounded: with an initial price of 130 and the terminal prices 105, 90
    and 120, at [c = 0] the largest one is used and the result is 10, at
    [c = 1] the smallest one is used and the result is 40. *)
Lemma estimate_boundary_returns :
  estimate 130 [[130; 130; 130]; [105; 90; 120]] 1 0 = Return 10 /\
  estimate 130 [[130; 130; 130]; [105; 90; 120]] 1 1 = Return 40.
Proof.
  unfold estimate.
  assert (Hrow : row [[130; 130; 130]; [105; 90; 120]] 1
                 = Return [105; 90; 120]) by reflexivity.
  rewrite Hrow. cbn [bind].
  split.
  - rewrite (@percentile_linear [105; 90; 120] (1 - 0))
      by (try discriminate; lra).
    cbn [sort length].
    repeat (cbn [insert];
            first [rewrite Rleb_true by lra | rewrite Rleb_false by lra]).
    cbn [INR]. unfold frac_part.
    replace (Int_part ((1 - 0) * (1 + 1 + 1 - 1))) with 2%Z
      by (apply Int_part_spec; cbn; lra).
    change (Z.to_nat 2) with 2%nat.
    cbn [Nat.add Nat.sub Nat.min nth bind].
    f_equal. rewrite Rmax_left by (cbn; lra). cbn. lra.
  - rewrite (@percentile_linear [105; 90; 120] (1 - 1))
      by (try discriminate; lra).
    cbn [sort length].
    repeat (cbn [insert];
            first [rewrite Rleb_true by lra | rewrite Rleb_false by lra]).
    cbn [INR]. unfold frac_part.
    replace (Int_part ((1 - 1) * (1 + 1 + 1 - 1))) with 0%Z
      by (apply Int_part_spec; cbn; lra).
    cbn [Z.to_nat Nat.add Nat.sub Nat.min nth bind].
    f_equal. rewrite Rmax_left by (cbn; lra). cbn. lra.
Qed.

End EstimatorFacts.

(** ** More on business days *)

Section CalendarMore.

Import Calendar BusinessCount.
Local Open Scope Z_scope.

Lemma round_trip_from_one_witness :
  valid 738891 /\
  (e <- getWeekdaysOut 738891 22 ;; getWeekdaysBack e 22)
  = Return (nextBusinessDay 738891).
Proof.
  assert (Hv : valid 738891)
    by (unfold valid, MINORD, MAXORD; lia).
  split; [exact Hv |].
  apply (@round_trip_from_one 738891 22 Hv); unfold MAXORD; lia.
Defined.

Lemma count_after_advance_witness :
  exists e fuel,
    getWeekdaysOut 738891 5 = Return e /\
    forall fuel', (fuel <= fuel')%nat ->
      getNumDays fuel' 738891 e = Some (Return 5).
Proof.
  apply (@count_after_advance 738891 5);
    unfold valid, MINORD, MAXORD; lia.
Defined.

Lemma steps_out_closed (k : nat) (s : date) :
  business s ->
  steps step_out k s = s + Z.of_nat k + 2 * ((weekday s + Z.of_nat k) / 5).
Proof.
  revert s. induction k as [| k IH]; intros s Hb.
  - cbn [steps Z.of_nat]. week.
  - change (steps step_out (S k) s) with (steps step_out k (step_out s)).
    rewrite IH by now apply step_out_business.
    rewrite Nat2Z.inj_succ. unfold step_out.
    destruct (Z.eqb_spec (weekday (s + 1)) 5); week.
Qed.

(** X3.  For one day or more, [getWeekdaysOut] returns the snapped start
    plus [n] days plus two days for each weekend crossed, the number of
    weekends being the quotient by 5 of [n] plus the weekday of the snapped
    start; the date returned is a business day. *)
Theorem getWeekdaysOut_closed_form (d : date) (n : Z) :
  valid d -> 1 <= n -> d + 2 + 3 * n <= MAXORD ->
  let s := nextBusinessDay d in
  let e := s + n + 2 * ((weekday s + n) / 5) in
  getWeekdaysOut d n = Return e /\ business e.
Proof.
  intros Hv Hn Hhi s e.
  pose proof (@steps_out_fit d n ltac:(lia) Hhi) as Hfit.
  pose proof (nextBusinessDay_business d) as Hb.
  pose proof (steps_out_closed (Z.to_nat n) Hb) as Hc.
  rewrite Z2Nat.id in Hc by lia. fold s in Hc, Hfit, Hb.
  subst e. rewrite <- Hc. split.
  - now apply getWeekdaysOut_steps.
  - now apply steps_out_business.
Qed.

Lemma getWeekdaysOut_closed_form_witness :
  valid 738891 /\
  let s := nextBusinessDay 738891 in
  let e := s + 22 + 2 * ((weekday s + 22) / 5) in
  getWeekdaysOut 738891 22 = Return e /\ business e.
Proof.
  assert (Hv : valid 738891) by (unfold valid, MINORD, MAXORD; lia).
  split; [exact Hv |].
  apply (@getWeekdaysOut_closed_form 738891 22 Hv); unfold MAXORD; lia.
Defined.

(** *** Going back, then out *)

Lemma step_out_back (d : date) : business d -> step_out (step_back d) = d.
Proof.
  intros H. unfold step_back, step_out.
  eqb_cases; try lia; week.
Qed.

Lemma step_back_business (d : date) : business d -> business (step_back d).
Proof. intros H. unfold step_back. eqb_cases; week. Qed.

Lemma step_back_bounds (d : date) : d - 3 <= step_back d <= d - 1.
Proof. unfold step_back. eqb_cases; lia. Qed.

Lemma steps_back_business (n : nat) (d : date) :
  business d -> business (steps step_back n d).
Proof.
  revert d. induction n as [| n IH]; intros d H; cbn; [exact H |].
  apply IH, step_back_business, H.
Qed.

Lemma steps_back_bounds (n : nat) (d : date) :
  d - 3 * Z.of_nat n <= steps step_back n d <= d - Z.of_nat n.
Proof.
  revert d. induction n as [| n IH]; intros d.
  - cbn. lia.
  - change (steps step_back (S n) d) with (steps step_back n (step_back d)).
    specialize (IH (step_back d)). pose proof (step_back_bounds d). lia.
Qed.

Lemma steps_out_back (n : nat) (d : date) :
  business d -> steps step_out n (steps step_back n d) = d.
Proof.
  revert d. induction n as [| n IH]; intros d H; [reflexivity |].
  rewrite (steps_snoc step_back n d).
  change (steps step_out (S n) ?x) with (steps step_out n (step_out x)).
  rewrite step_out_back by now apply steps_back_business.
  apply IH, H.
Qed.

Lemma back_loop_steps (start_date : date) (k a : nat) (c : date) :
  (1 <= a)%nat -> MINORD <= steps step_back k c -> c <= MAXORD ->
  for_each (map (fun i => 0 + Z.of_nat i) (seq a k))
    (fun (i : Z) (curr_date : option date) =>
       curr_date <- (if i =? 0 then Return start_date
                     else read_local curr_date) ;;
       next_date <- add_days curr_date (-1) ;;
       next_date <- (if weekday next_date =? 6 then add_days curr_date (-3)
                     else Return next_date) ;;
       Return (Some next_date))
    (Some c)
  = Return (Some (steps step_back k c)).
Proof.
  revert a c. induction k as [| k IH]; intros a c Ha Hlo Hhi; [reflexivity |].
  cbn [seq map for_each].
  destruct (Z.eqb_spec (0 + Z.of_nat a) 0); [lia |].
  cbn [read_local bind].
  change (steps step_back (S k) c) with (steps step_back k (step_back c)) in *.
  pose proof (step_back_bounds c).
  pose proof (steps_back_bounds k (step_back c)).
  rewrite back_pass by lia. cbn [bind].
  rewrite IH by lia. reflexivity.
Qed.

(** For one day or more, [getWeekdaysBack] is that many business-day steps
    back from the start snapped backward. *)
Lemma getWeekdaysBack_steps_back (d : date) (n : Z) :
  valid d -> 1 <= n ->
  MINORD <= steps step_back (Z.to_nat n) (previousBusinessDay d) ->
  getWeekdaysBack d n
  = Return (steps step_back (Z.to_nat n) (previousBusinessDay d)).
Proof.
  intros Hv Hn Hlo. unfold getWeekdaysBack.
  pose proof (snap_backward Hv) as Hs.
  destruct (if weekday d =? 5 then add_days d (-1) else Return d)
    as [s1 | e1]; cbn [bind] in Hs |- *; [| discriminate].
  rewrite Hs. cbn [bind].
  unfold range. replace (n - 0) with n by lia.
  destruct (Z.to_nat n) as [| k] eqn:Ek; [lia |].
  pose proof (previousBusinessDay_valid Hv) as Hp. unfold valid in Hp.
  cbn [seq map for_each]. cbn [Z.eqb Z.add Z.of_nat bind].
  change (steps step_back (S k) ?x) with (steps step_back k (step_back x)) in *.
  pose proof (step_back_bounds (previousBusinessDay d)).
  pose proof (steps_back_bounds k (step_back (previousBusinessDay d))).
  rewrite back_pass by lia. cbn [bind].
  rewrite back_loop_steps by lia. reflexivity.
Qed.

Lemma steps_back_fit (d : date) (n : Z) :
  0 <= n -> MINORD <= d - 2 - 3 * n ->
  MINORD <= steps step_back (Z.to_nat n) (previousBusinessDay d).
Proof.
  intros Hn Hlo.
  pose proof (steps_back_bounds (Z.to_nat n) (previousBusinessDay d)).
  assert (d - 2 <= previousBusinessDay d)
    by (unfold previousBusinessDay; eqb_cases; lia).
  lia.
Qed.

(** X4.  The round trip the other way, for one day or more: going [n]
    business days back with [getWeekdaysBack] and [n] out with
    [getWeekdaysOut] gives the start snapped backward to a business day (the
    Friday before a weekend), as long as the dates on the way stay inside
    the calendar. *)
Theorem round_trip_back_out (d : date) (n : Z) :
  valid d -> 1 <= n -> MINORD <= d - 2 - 3 * n ->
  (e <- getWeekdaysBack d n ;; getWeekdaysOut e n)
  = Return (previousBusinessDay d).
Proof.
  intros Hv Hn Hlo.
  pose proof (@steps_back_fit d n ltac:(lia) Hlo) as Hfit.
  rewrite getWeekdaysBack_steps_back by assumption. cbn [bind].
  pose proof (previousBusinessDay_business d) as Hb.
  pose proof (previousBusinessDay_valid Hv) as Hp.
  set (p := previousBusinessDay d) in *.
  set (m := steps step_back (Z.to_nat n) p) in *.
  assert (Hbm : business m) by now apply steps_back_business.
  pose proof (steps_back_bounds (Z.to_nat n) p) as Hm. fold m in Hm.
  assert (Hvm : valid m) by (unfold valid in *; lia).
  assert (Hnb : nextBusinessDay m = m).
  { unfold nextBusinessDay. eqb_cases; try reflexivity; week. }
  assert (Hback : steps step_out (Z.to_nat n) m = p)
    by now apply steps_out_back.
  rewrite getWeekdaysOut_steps; try assumption; rewrite Hnb, Hback.
  - reflexivity.
  - unfold valid in Hp. lia.
Qed.

Lemma round_trip_back_out_witness :
  valid 738891 /\
  (e <- getWeekdaysBack 738891 22 ;; getWeekdaysOut e 22)
  = Return (previousBusinessDay 738891).
Proof.
  assert (Hv : valid 738891) by (unfold valid, MINORD, MAXORD; lia).
  split; [exact Hv |].
  apply (@round_trip_back_out 738891 22 Hv); unfold MINORD; lia.
Defined.

(** *** The two bounds of the historical window *)

Lemma nextBusinessDay_mono (a b : date) :
  a <= b -> nextBusinessDay a <= nextBusinessDay b.
Proof.
  intros H. unfold nextBusinessDay. eqb_cases; try lia; week.
Qed.

Lemma step_out_mono (a b : date) :
  business a -> business b -> a <= b -> step_out a <= step_out b.
Proof.
  intros Ha Hb H. unfold step_out. eqb_cases; try lia; week.
Qed.

Lemma steps_out_mono (n : nat) (a b : date) :
  business a -> business b -> a <= b ->
  steps step_out n a <= steps step_out n b.
Proof.
  revert a b. induction n as [| n IH]; intros a b Ha Hb H; [exact H |].
  cbn [steps].
  apply IH; try now apply step_out_business.
  now apply step_out_mono.
Qed.

(** X5.  The start and the end of the historical window obey the bounds set
    in [HistWindowSelect.__init__] together: when the start is not after
    [getWeekdaysBack (now, n)], the maximum of the start date, the floor
    [getWeekdaysOut (start, n)] of the end date is not after [now], the
    maximum of the end date. *)
Theorem floor_within_maximum (now start_date : date) (n : Z) :
  valid now -> valid start_date -> 1 <= n -> MINORD <= now - 2 - 3 * n ->
  exists latest_start,
    getWeekdaysBack now n = Return latest_start /\
    (start_date <= latest_start ->
     exists floor, getWeekdaysOut start_date n = Return floor /\
                   floor <= now).
Proof.
  intros Hn Hs Hd Hlo.
  pose proof (@steps_back_fit now n ltac:(lia) Hlo) as Hfit.
  set (p := previousBusinessDay now) in *.
  set (m := steps step_back (Z.to_nat n) p) in *.
  exists m. split; [now apply getWeekdaysBack_steps_back |].
  intros Hle.
  pose proof (previousBusinessDay_business now) as Hbp. fold p in Hbp.
  assert (Hbm : business m) by now apply steps_back_business.
  assert (Hpn : p <= now)
    by (unfold p, previousBusinessDay; eqb_cases; lia).
  assert (Hnm : nextBusinessDay m = m).
  { unfold nextBusinessDay. eqb_cases; try reflexivity; week. }
  pose proof (nextBusinessDay_mono Hle) as Hsm. rewrite Hnm in Hsm.
  pose proof (steps_out_mono (Z.to_nat n)
                (nextBusinessDay_business start_date) Hbm Hsm) as Hmono.
  assert (Hback : steps step_out (Z.to_nat n) m = p)
    by (apply steps_out_back; exact Hbp).
  rewrite Hback in Hmono.
  exists (steps step_out (Z.to_nat n) (nextBusinessDay start_date)).
  split; [| lia].
  apply getWeekdaysOut_steps; try assumption.
  unfold valid in Hn. lia.
Qed.

Lemma floor_within_maximum_witness :
  exists latest_start,
    getWeekdaysBack 738900 22 = Return latest_start /\
    (735599 <= latest_start ->
     exists floor, getWeekdaysOut 735599 22 = Return floor /\
                   floor <= 738900).
Proof.
  apply (@floor_within_maximum 738900 735599 22);
    unfold valid, MINORD, MAXORD; lia.
Defined.

(** X6.  With a number of days that is zero or negative neither function
    returns a date: [range] is empty, the loop does not run and
    [return(curr_date)] raises [UnboundLocalError]. *)
Theorem no_day_raises (d : date) (n : Z) :
  valid d -> n <= 0 ->
  getWeekdaysOut d n = Raise UnboundLocalError /\
  getWeekdaysBack d n = Raise UnboundLocalError.
Proof.
  intros Hv Hn.
  assert (Hr : range 0 n = [])
    by (unfold range; now replace (Z.to_nat (n - 0)) with 0%nat by lia).
  split.
  - unfold getWeekdaysOut. rewrite Hr.
    pose proof (snap_forward Hv) as Hs.
    destruct (if weekday d =? 5 then add_days d 2 else Return d)
      as [s1 | e1]; cbn [bind] in Hs |- *; [| discriminate].
    rewrite Hs. reflexivity.
  - unfold getWeekdaysBack. rewrite Hr.
    pose proof (snap_backward Hv) as Hs.
    destruct (if weekday d =? 5 then add_days d (-1) else Return d)
      as [s1 | e1]; cbn [bind] in Hs |- *; [| discriminate].
    rewrite Hs. reflexivity.
Qed.

Lemma no_day_raises_witness :
  valid 738891 /\
  getWeekdaysOut 738891 (-3) = Raise UnboundLocalError /\
  getWeekdaysBack 738891 (-3) = Raise UnboundLocalError.
Proof.
  assert (Hv : valid 738891) by (unfold valid, MINORD, MAXORD; lia).
  split; [exact Hv |].
  apply (@no_day_raises 738891 (-3) Hv). lia.
Defined.

(** *** The count in closed form *)

Lemma business_upto_next (c : date) :
  business_upto (c + 1) - business_upto c
  = if weekday (c + 1) =? 5 then 0 else if weekday (c + 1) =? 6 then 0 else 1.
Proof.
  unfold business_upto. eqb_cases; week.
Qed.

Lemma loop_closed (k : nat) (c days : Z) :
  MINORD <= c -> c + Z.of_nat k <= MAXORD ->
  getNumDays_loop k c (c + Z.of_nat k) days
  = Some (Return (days + business_upto (c + Z.of_nat k) - business_upto c)).
Proof.
  revert c days. induction k as [| k IH]; intros c days Hlo Hhi.
  - cbn [getNumDays_loop Z.of_nat]. replace (c + 0) with c by lia.
    rewrite Z.eqb_refl. do 2 f_equal. lia.
  - cbn [getNumDays_loop].
    destruct (Z.eqb_spec c (c + Z.of_nat (S k))); [lia |].
    rewrite add_days_ok by lia.
    replace (c + Z.of_nat (S k)) with (c + 1 + Z.of_nat k) by lia.
    pose proof (business_upto_next c) as Hn.
    destruct (weekday (c + 1) =? 5);
      [rewrite IH by lia; do 2 f_equal; lia |].
    destruct (weekday (c + 1) =? 6);
      rewrite IH by lia; do 2 f_equal; lia.
Qed.

(** The count in terms of [business_upto]. *)
Lemma getNumDays_counts (fuel : nat) (start_date end_date : date) :
  valid start_date -> valid end_date ->
  nextBusinessDay start_date <= end_date ->
  (Z.to_nat (end_date - nextBusinessDay start_date) <= fuel)%nat ->
  getNumDays fuel start_date end_date
  = Some (Return (business_upto end_date
                  - business_upto (nextBusinessDay start_date))).
Proof.
  intros Hs He Hle Hf. unfold getNumDays.
  pose proof (snap_forward Hs) as E.
  destruct (if weekday start_date =? 5 then add_days start_date 2
            else Return start_date) as [s1 | e1]; cbn [bind] in E;
    [| discriminate].
  rewrite E.
  pose proof (nextBusinessDay_valid Hs) as Hv. unfold valid in *.
  set (s := nextBusinessDay start_date) in *.
  eapply loop_more_fuel; [| exact Hf].
  pose proof (@loop_closed (Z.to_nat (end_date - s)) s 0
                ltac:(lia) ltac:(lia)) as L.
  replace (s + Z.of_nat (Z.to_nat (end_date - s))) with end_date in L
    by lia.
  rewrite L. do 2 f_equal.
Qed.

(** X7.  When the end is on or after the snapped start, [getNumDays] returns
    the number of business days after the snapped start up to the end: the
    difference of the two dates' counts of business days, got without the
    loop.  A weekend end date counts as the Friday before, and seven days
    more add five. *)
Theorem getNumDays_closed_form (fuel : nat) (start_date end_date : date) :
  valid start_date -> valid end_date ->
  nextBusinessDay start_date <= end_date ->
  (Z.to_nat (end_date - nextBusinessDay start_date) <= fuel)%nat ->
  getNumDays fuel start_date end_date
  = Some (Return (business_upto end_date
                  - business_upto (nextBusinessDay start_date))) /\
  business_upto end_date = business_upto (previousBusinessDay end_date) /\
  business_upto (end_date + 7) = business_upto end_date + 5.
Proof.
  intros Hs He Hle Hf. split; [| split].
  - now apply getNumDays_counts.
  - unfold business_upto, previousBusinessDay. eqb_cases; week.
  - unfold business_upto. week.
Qed.

Lemma getNumDays_closed_form_witness :
  getNumDays 40 738891 738926
  = Some (Return (business_upto 738926
                  - business_upto (nextBusinessDay 738891))) /\
  business_upto 738926 = business_upto (previousBusinessDay 738926) /\
  business_upto (738926 + 7) = business_upto 738926 + 5.
Proof.
  apply (@getNumDays_closed_form 40 738891 738926);
    try (unfold valid, MINORD, MAXORD; lia).
  - vm_compute. discriminate.
  - vm_compute. lia.
Defined.

(** X8.  Counting, then advancing: when the end is a business day after the
    snapped start, [getNumDays] returns a count [n >= 1] and
    [getWeekdaysOut (start, n)] is the end again. *)
Theorem advance_by_count (start_date end_date : date) :
  valid start_date -> valid end_date -> business end_date ->
  nextBusinessDay start_date < end_date ->
  exists n, 1 <= n /\
    (forall fuel,
       (Z.to_nat (end_date - nextBusinessDay start_date) <= fuel)%nat ->
       getNumDays fuel start_date end_date = Some (Return n)) /\
    getWeekdaysOut start_date n = Return end_date.
Proof.
  intros Hs He Hb Hlt.
  pose proof (nextBusinessDay_business start_date) as Hbs.
  set (s := nextBusinessDay start_date) in *.
  set (n := business_upto end_date - business_upto s).
  assert (Hn : 1 <= n) by (unfold n, business_upto; week).
  assert (Hc : steps step_out (Z.to_nat n) s = end_date).
  { rewrite steps_out_closed by exact Hbs. rewrite Z2Nat.id by lia.
    unfold n, business_upto. week. }
  exists n. split; [exact Hn |]. split.
  - intros fuel Hf.
    now apply getNumDays_counts; try assumption; fold s; try lia.
  - rewrite getWeekdaysOut_steps; fold s; try assumption.
    + now rewrite Hc.
    + rewrite Hc. unfold valid in He. lia.
Qed.

Lemma advance_by_count_witness :
  exists n, 1 <= n /\
    (forall fuel,
       (Z.to_nat (738928 - nextBusinessDay 738891%Z) <= fuel)%nat ->
       getNumDays fuel 738891 738928 = Some (Return n)) /\
    getWeekdaysOut 738891 n = Return 738928.
Proof.
  apply (@advance_by_count 738891 738928);
    try (unfold valid, MINORD, MAXORD; lia).
  - unfold business. vm_compute. split; discriminate.
  - vm_compute. reflexivity.
Defined.

End CalendarMore.

(** ** The date labels of the export *)

Section ExportFacts.

Import Calendar BusinessCount ExportIndex.
Local Open Scope Z_scope.

Lemma remove_here (x : date) (pre r : list date) :
  ~ In x pre -> remove x (pre ++ x :: r) = Return (pre ++ r).
Proof.
  induction pre as [| y pre IH]; intros Hn; cbn [app remove].
  - now rewrite Z.eqb_refl.
  - destruct (Z.eqb_spec y x) as [E | _]; [exfalso; apply Hn; now left |].
    rewrite IH by (intros H; apply Hn; now right). reflexivity.
Qed.

Lemma nth_error_here (pre : list date) (x : date) (r : list date) :
  nth_error (pre ++ x :: r) (length pre) = Some x.
Proof.
  rewrite nth_error_app2 by lia. now rewrite Nat.sub_diag.
Qed.

Lemma nth_error_end (pre : list date) (n : nat) :
  (length pre <= n)%nat -> nth_error (pre ++ []) n = None.
Proof.
  intros H. apply nth_error_None. rewrite app_nil_r. exact H.
Qed.

(** One loop over a list without repetition in which no two neighbours fall
    on the weekday looked for: the days of that weekday are all removed and
    the others stay, in their order. *)
Lemma remove_weekday_filter (i : Z) (fuel : nat) :
  forall (rest pre : list date),
    NoDup (pre ++ rest) -> no_neighbours i rest ->
    (length rest <= fuel)%nat ->
    remove_weekday fuel (length pre) i (pre ++ rest)
    = Some (Return (pre ++ filter (fun d => negb (weekday d =? i)) rest)).
Proof.
  induction fuel as [| fuel IH]; intros rest pre Hnd Hnn Hlen.
  - destruct rest; [| cbn in Hlen; lia].
    cbn [remove_weekday filter]. now rewrite nth_error_end.
  - destruct rest as [| x r].
    + cbn [remove_weekday filter]. now rewrite nth_error_end.
    + cbn [remove_weekday]. rewrite nth_error_here.
      cbn [filter]. destruct (Z.eqb_spec (weekday x) i) as [E | E]; cbn [negb].
      * rewrite remove_here
          by (intros Hin; apply NoDup_remove_2 in Hnd; apply Hnd;
              apply in_or_app; now left).
        cbn [pbind].
        apply NoDup_remove_1 in Hnd.
        destruct r as [| y r'].
        { cbn [filter]. destruct fuel; cbn [remove_weekday];
            now rewrite nth_error_end by lia. }
        destruct Hnn as [Hxy Hnn]. specialize (Hxy E).
        replace (pre ++ y :: r') with ((pre ++ [y]) ++ r')
          in * by now rewrite <- app_assoc.
        replace (S (length pre)) with (length (pre ++ [y]))
          by (rewrite length_app; cbn; lia).
        rewrite IH; try assumption.
        -- cbn [filter]. destruct (Z.eqb_spec (weekday y) i); [contradiction |].
           cbn [negb]. now rewrite <- app_assoc.
        -- destruct Hnn as [_ Hnn]. exact Hnn.
        -- cbn in Hlen. lia.
      * replace (pre ++ x :: r) with ((pre ++ [x]) ++ r)
          in * by now rewrite <- app_assoc.
        replace (S (length pre)) with (length (pre ++ [x]))
          by (rewrite length_app; cbn; lia).
        rewrite IH; try assumption.
        -- now rewrite <- app_assoc.
        -- destruct Hnn as [_ Hnn]. exact Hnn.
        -- cbn in Hlen. lia.
Qed.

Lemma comprehension_span (a : date) (n s : nat) :
  MINORD <= a + Z.of_nat s -> a + Z.of_nat s + Z.of_nat n <= MAXORD + 1 ->
  comprehension (fun x => add_days a x)
    (map (fun i => 0 + Z.of_nat i) (seq s n))
  = Return (span (a + Z.of_nat s) n).
Proof.
  revert s. induction n as [| n IH]; intros s Hlo Hhi; [reflexivity |].
  cbn [seq map comprehension span].
  rewrite add_days_ok by lia. cbn [bind].
  rewrite IH by lia. cbn [bind].
  replace (a + Z.of_nat (S s)) with (a + Z.of_nat s + 1) by lia.
  reflexivity.
Qed.

Lemma span_length (n : nat) (a : date) : length (span a n) = n.
Proof.
  revert a. induction n as [| n IH]; intros a; cbn; [reflexivity |].
  now rewrite IH.
Qed.

Lemma span_in (n : nat) (a x : date) :
  In x (span a n) <-> a <= x < a + Z.of_nat n.
Proof.
  revert a. induction n as [| n IH]; intros a; cbn [span In].
  - split; [contradiction | lia].
  - rewrite IH. lia.
Qed.

Lemma span_NoDup (n : nat) (a : date) : NoDup (span a n).
Proof.
  revert a. induction n as [| n IH]; intros a; cbn [span]; constructor.
  - rewrite span_in. lia.
  - apply IH.
Qed.

Lemma span_no_saturdays_together (n : nat) (a : date) :
  no_neighbours 5 (span a n).
Proof.
  revert a. induction n as [| n IH]; intros a; cbn [span no_neighbours];
    [exact I |].
  split; [| apply IH].
  destruct n; cbn [span]; [exact I |]. intros H. week.
Qed.

Lemma span_no_sundays_together (n : nat) (a : date) :
  no_neighbours 6 (filter (fun d => negb (weekday d =? 5)) (span a n)).
Proof.
  revert a. induction n as [| n IH]; intros a; cbn [span filter];
    [exact I |].
  destruct (Z.eqb_spec (weekday a) 5) as [E | E]; cbn [negb]; [apply IH |].
  cbn [no_neighbours]. split; [| apply IH].
  destruct n as [| n]; cbn [span filter]; [exact I |].
  destruct (Z.eqb_spec (weekday (a + 1)) 5) as [E1 | E1]; cbn [negb].
  - destruct (filter _ (span (a + 1 + 1) n)); [exact I |].
    intros H. week.
  - intros H. week.
Qed.

Lemma weekend_filters (l : list date) :
  filter (fun d => negb (weekday d =? 6))
    (filter (fun d => negb (weekday d =? 5)) l)
  = filter (fun d => weekday d <? 5) l.
Proof.
  induction l as [| x l IH]; [reflexivity |].
  cbn [filter].
  destruct (Z.eqb_spec (weekday x) 5) as [E5 | E5]; cbn [negb filter].
  - destruct (Z.ltb_spec (weekday x) 5); [lia | exact IH].
  - destruct (Z.eqb_spec (weekday x) 6) as [E6 | E6]; cbn [negb];
      destruct (Z.ltb_spec (weekday x) 5); try (now rewrite IH);
      try lia; week.
Qed.

Lemma business_days_of_span (n : nat) (a : date) :
  Z.of_nat (length (filter (fun d => weekday d <? 5) (span a n)))
  = business_upto (a + Z.of_nat n - 1) - business_upto (a - 1).
Proof.
  revert a. induction n as [| n IH]; intros a.
  - cbn [span filter length Z.of_nat]. replace (a + 0 - 1) with (a - 1) by lia.
    lia.
  - cbn [span filter].
    replace (a + Z.of_nat (S n) - 1) with (a + 1 + Z.of_nat n - 1) by lia.
    specialize (IH (a + 1)). replace (a + 1 - 1) with a in IH by lia.
    assert (Hd : business_upto a - business_upto (a - 1)
                 = if weekday a <? 5 then 1 else 0).
    { unfold business_upto. destruct (Z.ltb_spec (weekday a) 5); week. }
    destruct (weekday a <? 5); cbn [length]; lia.
Qed.

(** X9.  The dates of the rows of the exported sheet.  The two loops of
    [onClickExport] remove elements from the list they iterate over, which
    makes each loop skip the element after a removed one; no weekend day is
    missed all the same.  For every window the result is exactly the
    business days from the start to the end, in order, and wherever
    [getNumDays] returns [days] for that window there are [days + 1] of
    them: as many as the rows of the simulated paths. *)
Theorem export_index_business_days (fuel : nat) (pstart pend : date) :
  valid pstart -> valid pend -> pstart <= pend ->
  (Z.to_nat (pend - pstart + 1) <= fuel)%nat ->
  let index := filter (fun d => weekday d <? 5)
                      (span pstart (Z.to_nat (pend - pstart + 1))) in
  export_index fuel pstart pend = Some (Return index) /\
  (forall d, In d index <-> pstart <= d <= pend /\ business d) /\
  (nextBusinessDay pstart <= pend ->
   getNumDays fuel pstart pend
   = Some (Return (Z.of_nat (length index) - 1))).
Proof.
  intros Hs He Hle Hf index.
  set (n := Z.to_nat (pend - pstart + 1)) in *.
  split; [| split].
  - unfold export_index, range.
    replace (Z.to_nat (pend - pstart + 1 - 0)) with n by (subst n; lia).
    unfold valid in *.
    rewrite (@comprehension_span pstart n 0) by (subst n; lia).
    cbn [pbind]. replace (pstart + Z.of_nat 0) with pstart by lia.
    pose proof (@remove_weekday_filter 5 fuel (span pstart n) []
                  (span_NoDup n pstart)
                  (span_no_saturdays_together n pstart)) as P5.
    rewrite span_length in P5. cbn [app length] in P5.
    rewrite (P5 Hf). cbn [pbind].
    pose proof (@remove_weekday_filter 6 fuel
                  (filter (fun d => negb (weekday d =? 5)) (span pstart n)) []
                  (NoDup_filter _ (span_NoDup n pstart))
                  (span_no_sundays_together n pstart)) as P6.
    cbn [app length] in P6. rewrite P6.
    + now rewrite weekend_filters.
    + etransitivity; [apply filter_length_le |]. now rewrite span_length.
  - intros d. subst index. rewrite filter_In, span_in.
    unfold business.
    assert (0 <= weekday d < 7) by (unfold weekday; apply Z.mod_pos_bound; lia).
    destruct (Z.ltb_spec (weekday d) 5); split; intros [H1 H2];
      try discriminate; try (split; [lia | try reflexivity; lia]); lia.
  - intros Hn.
    rewrite getNumDays_counts; try assumption.
    + do 2 f_equal. subst index. rewrite business_days_of_span.
      replace (pstart + Z.of_nat n - 1) with pend by (subst n; lia).
      unfold business_upto, nextBusinessDay. eqb_cases; week.
    + pose proof (nextBusinessDay_bounds pstart). lia.
Qed.

Lemma export_index_business_days_witness :
  let index := filter (fun d => weekday d <? 5)
                      (span 738893 (Z.to_nat (738900 - 738893 + 1))) in
  export_index 8 738893 738900 = Some (Return index) /\
  (forall d, In d index <-> 738893 <= d <= 738900 /\ business d) /\
  (nextBusinessDay 738893 <= 738900 ->
   getNumDays 8 738893 738900
   = Some (Return (Z.of_nat (length index) - 1))).
Proof.
  apply (@export_index_business_days 8 738893 738900);
    unfold valid, MINORD, MAXORD; lia.
Defined.

(** Monday 2024-01-08 to Monday 2024-01-15: the Saturday and the Sunday
    go, six dates stay. *)
Example export_index_week :
  export_index 8 738893 738900
  = Some (Return [738893; 738894; 738895; 738896; 738897; 738900]).
Proof. reflexivity. Qed.

End ExportFacts.

(** ** The ticker of the selected security *)

Section TickerFacts.

Import Ascii String.StringSyntax Ticker.
Local Open Scope string_scope.
Local Infix "++" := String.append : string_scope.

Lemma length_append (a b : String.string) :
  String.length (a ++ b) = (String.length a + String.length b)%nat.
Proof.
  induction a as [| c a IH]; cbn; [reflexivity | now rewrite IH].
Qed.

Lemma append_assoc (a b c : String.string) : (a ++ b) ++ c = a ++ (b ++ c).
Proof.
  induction a as [| x a IH]; cbn; [reflexivity | now rewrite IH].
Qed.

Lemma slice_to_append (a b : String.string) (k : nat) :
  slice_to (String.length a + k) (a ++ b) = a ++ slice_to k b.
Proof.
  unfold slice_to. induction a as [| c a IH]; cbn; [reflexivity |].
  now rewrite IH.
Qed.

Lemma slice_to_length (n : nat) (s : String.string) :
  (n <= String.length s)%nat -> String.length (slice_to n s) = n.
Proof.
  unfold slice_to. revert s. induction n as [| n IH]; intros s H.
  - destruct s; reflexivity.
  - destruct s as [| c s]; cbn in H |- *; [lia |].
    rewrite IH by lia. reflexivity.
Qed.

Lemma slice_to_prefix (n : nat) (s t : String.string) :
  (n <= String.length s)%nat ->
  slice_to n (slice_to n s ++ t) = slice_to n s.
Proof.
  unfold slice_to. revert s. induction n as [| n IH]; intros s H.
  - destruct s; cbn; destruct t; reflexivity.
  - destruct s as [| c s]; cbn in H |- *; [lia |].
    rewrite IH by lia. reflexivity.
Qed.

(** With a length that is not negative the slice takes from the front. *)
Lemma shortenStockName_front (stock_name : String.string) (n : nat) :
  shortenStockName stock_name (Z.of_nat n)
  = if (n <? String.length stock_name)%nat
    then slice_to n stock_name ++ "..."
    else stock_name.
Proof.
  unfold shortenStockName, slice.
  destruct (Z.ltb_spec (Z.of_nat n) 0) as [Hneg | _]; [lia |].
  rewrite Nat2Z.id.
  destruct (Z.ltb_spec (Z.of_nat n) (Z.of_nat (String.length stock_name)));
    destruct (Nat.ltb_spec n (String.length stock_name));
    try reflexivity; lia.
Qed.

Lemma slice_front (n : nat) (s : String.string) :
  slice (Z.of_nat n) s = slice_to n s.
Proof.
  unfold slice.
  destruct (Z.ltb_spec (Z.of_nat n) 0) as [Hneg | _]; [lia |].
  now rewrite Nat2Z.id.
Qed.

(** X10.  For a [maxlength] that is not negative, [shortenStockName] never
    returns more than [maxlength + 3] characters, keeps the first
    [maxlength] characters of the name, and shortening a shortened name
    changes nothing. *)
Theorem shortenStockName_bounded_idempotent (stock_name : String.string)
    (maxlength : Z) :
  (0 <= maxlength)%Z ->
  let short := shortenStockName stock_name maxlength in
  (Z.of_nat (String.length short) <= maxlength + 3)%Z /\
  slice maxlength short = slice maxlength stock_name /\
  shortenStockName short maxlength = short.
Proof.
  intros Hm short. subst short.
  rewrite <- (Z2Nat.id maxlength Hm).
  set (n := Z.to_nat maxlength).
  rewrite !slice_front, !shortenStockName_front.
  destruct (Nat.ltb_spec n (String.length stock_name)) as [Hlt | Hge].
  - assert (Hl : String.length (slice_to n stock_name ++ "...")
                 = (n + 3)%nat)
      by (rewrite length_append, slice_to_length by lia; reflexivity).
    split; [lia |]. split.
    + apply slice_to_prefix. lia.
    + rewrite Hl.
      destruct (Nat.ltb_spec n (n + 3)); [| lia].
      now rewrite slice_to_prefix by lia.
  - split; [lia |]. split; [reflexivity |].
    destruct (Nat.ltb_spec n (String.length stock_name)); [lia |].
    reflexivity.
Qed.

Lemma shortenStockName_bounded_idempotent_witness :
  let short := shortenStockName "Apple Inc. - Common Stock" 9 in
  (Z.of_nat (String.length short) <= 9 + 3)%Z /\
  slice 9 short = slice 9 "Apple Inc. - Common Stock" /\
  shortenStockName short 9 = short.
Proof.
  apply (@shortenStockName_bounded_idempotent "Apple Inc. - Common Stock" 9).
  lia.
Defined.

(** A negative [maxlength] cuts from the end instead: every name is longer
    than it, so every name gets the dots, and shortening again adds more. *)
Example shortenStockName_negative :
  shortenStockName "abcdef" (-2) = "abcd..." /\
  shortenStockName "abcd..." (-2) = "abcd....".
Proof. split; reflexivity. Qed.

Lemma before_symbol (symbol rest : String.string) :
  occurs " " symbol = false ->
  before " - " (symbol ++ " - " ++ rest) = symbol.
Proof.
  induction symbol as [| c symbol IH]; intros H.
  - cbn. destruct rest; reflexivity.
  - cbn [occurs] in H. apply orb_false_iff in H. destruct H as [Hc H].
    cbn [String.append before String.prefix].
    destruct (ascii_dec " " c) as [E | _];
      [subst c; cbn in Hc; discriminate |].
    f_equal. apply IH, H.
Qed.

(** X11.  From the name shown in the box back to the symbol: for a symbol
    without a space and of at most 54 characters, [getTickerSelection] on
    the list name built from the symbol and any security name returns the
    symbol, whether the name was shortened or not. *)
Theorem getTickerSelection_list_name (symbol security_name : String.string) :
  occurs " " symbol = false ->
  (String.length symbol + 3 <= maxlength_default)%nat ->
  getTickerSelection (list_name symbol security_name) = symbol.
Proof.
  intros Hs Hl. unfold getTickerSelection, list_name.
  rewrite shortenStockName_front.
  destruct (maxlength_default <? _)%nat.
  - replace maxlength_default
      with (String.length symbol
            + (3 + (maxlength_default - String.length symbol - 3)))%nat
      by lia.
    rewrite slice_to_append.
    change 3%nat with (String.length " - ") at 1.
    rewrite slice_to_append.
    rewrite !append_assoc.
    now apply before_symbol.
  - now apply before_symbol.
Qed.

Lemma getTickerSelection_list_name_witness :
  occurs " " "AAPL" = false /\
  getTickerSelection
    (list_name "AAPL"
       "Apple Inc. - Common Stock, listed on the Nasdaq Global Select Market")
  = "AAPL".
Proof.
  split; [reflexivity |].
  apply getTickerSelection_list_name;
    [reflexivity | unfold maxlength_default; cbn; lia].
Defined.

(** A name with no [' - '] in it is returned whole. *)
Example getTickerSelection_no_separator :
  getTickerSelection "AAPL" = "AAPL".
Proof. reflexivity. Qed.

End TickerFacts.

(** ** More on the simulation *)

Section SimulatorMore.

Import GBM.
Local Open Scope R_scope.

Variable rng : Type.
Variable rand : rng -> R * rng.
Variable ppf : R -> R.

(** Every entry of the array is the price of its trial at its step. *)
Lemma simulate_entries (p0 mu sig : R) (trials days : Z) (g : rng) :
  (1 <= trials)%Z -> (0 <= days)%Z ->
  let k := Z.to_nat trials in
  let h := Z.to_nat days in
  exists path_array,
    simulate rand ppf p0 mu sig trials days g
    = Return (path_array, after rand (k * S h) g) /\
    length path_array = S h /\
    Forall (fun row => length row = k) path_array /\
    forall t i, (t <= h)%nat -> (i < k)%nat ->
      entry path_array t i
      = price rand ppf p0 mu sig (after rand (i * S h) g) t.
Proof.
  intros Hk Hd k h.
  set (F := fun i => path_of rand ppf p0 mu sig h (after rand (i * S h) g)).
  assert (HF : forall i, length (F i) = S h)
    by (intros i; unfold F, path_of; now rewrite length_map, length_seq).
  assert (Hxs : length (range 0 trials) = k)
    by (unfold range; rewrite length_map, length_seq; subst k; f_equal; lia).
  destruct (@outer_loop rng rand ppf p0 mu sig days (range 0 trials) [] None
              g Hd) as [c' E].
  fold h in E. rewrite Hxs in E. cbn [app] in E. fold F in E.
  destruct k as [| k'] eqn:Ek; [lia |].
  eexists. split; [| split; [| split]].
  - unfold simulate. rewrite E. cbn [bind].
    rewrite (hstack_columns F k' HF). reflexivity.
  - now rewrite length_map, length_seq.
  - apply Forall_forall. intros row Hrow.
    apply in_map_iff in Hrow. destruct Hrow as (r & <- & _).
    now rewrite !length_map, length_seq.
  - intros t i Ht Hi. rewrite entry_columns by lia.
    unfold F, path_of. now rewrite nth_map_seq by lia.
Qed.

(** X13.  A trial count of zero or less makes the run fail: no path is
    simulated, and [np.hstack] raises [ValueError] on the empty list. *)
Theorem no_trial_raises (p0 mu sig : R) (trials days : Z) (g : rng) :
  (trials <= 0)%Z ->
  simulate rand ppf p0 mu sig trials days g = Raise ValueError.
Proof.
  intros Hk. unfold simulate, range.
  replace (Z.to_nat (trials - 0)) with 0%nat by lia.
  reflexivity.
Qed.

End SimulatorMore.

Lemma no_trial_raises_witness :
  GBM.simulate (fun n : nat => (INR n, S n)) (fun u : R => u)
    100%R 0%R 0%R 0 5 0%nat
  = Raise ValueError.
Proof.
  apply (@no_trial_raises nat (fun n : nat => (INR n, S n)) (fun u : R => u)
           100%R 0%R 0%R 0%Z 5%Z 0%nat).
  lia.
Defined.

(** ** More on the estimate *)

Section EstimatorMore.

Import VaR.
Local Open Scope R_scope.

Lemma Sorted_Rle_strong (l : list R) : Sorted Rle l -> StronglySorted Rle l.
Proof.
  apply Sorted_StronglySorted. intros x y z. apply Rle_trans.
Qed.

(** Two increasing lists with the same elements are one list. *)
Lemma sorted_perm_eq (l1 l2 : list R) :
  Sorted Rle l1 -> Sorted Rle l2 -> Permutation l1 l2 -> l1 = l2.
Proof.
  intros H1 H2. apply Sorted_Rle_strong in H1. apply Sorted_Rle_strong in H2.
  revert l2 H2. induction H1 as [| x l1 Hs1 IH Hx]; intros l2 H2 Hp.
  - now apply Permutation_nil in Hp.
  - destruct H2 as [| y l2 Hs2 Hy].
    + symmetry in Hp. now apply Permutation_nil in Hp.
    + assert (Exy : x = y).
      { apply Rle_antisym.
        - assert (Hin : In y (x :: l1))
            by (eapply Permutation_in; [symmetry; exact Hp | now left]).
          destruct Hin as [-> | Hin]; [lra |].
          rewrite Forall_forall in Hx. now apply Hx.
        - assert (Hin : In x (y :: l2))
            by (eapply Permutation_in; [exact Hp | now left]).
          destruct Hin as [-> | Hin]; [lra |].
          rewrite Forall_forall in Hy. now apply Hy. }
      subst y. f_equal. apply IH; [exact Hs2 |].
      eapply Permutation_cons_inv. exact Hp.
Qed.

Lemma sort_permutation (a b : list R) : Permutation a b -> sort a = sort b.
Proof.
  intros Hp. apply sorted_perm_eq; try apply sort_sorted.
  rewrite <- (sort_perm a), <- (sort_perm b). exact Hp.
Qed.

(** X14.  The percentile does not depend on the order of the values: the
    estimate is the same however the trials are arranged in the terminal
    row. *)
Theorem percentile_permutation (a b : list R) (q : R) :
  Permutation a b -> percentile a q = percentile b q.
Proof.
  intros Hp. unfold percentile.
  destruct (Rleb 0 (q / 100) && Rleb (q / 100) 1); [| reflexivity].
  pose proof (Permutation_length Hp) as Hl.
  destruct a as [| x a]; destruct b as [| y b]; try discriminate;
    [reflexivity |].
  now rewrite (sort_permutation Hp), Hl.
Qed.

Lemma percentile_permutation_witness :
  Permutation [90; 120; 105] [120; 105; 90] /\
  percentile [90; 120; 105] 5 = percentile [120; 105; 90] 5.
Proof.
  assert (Hp : Permutation [90; 120; 105] [120; 105; 90]).
  { apply (Permutation_cons_app [120; 105] [] 90). reflexivity. }
  split; [exact Hp | exact (percentile_permutation 5 Hp)].
Defined.

(** The percentile lies between any two bounds of the values. *)
Lemma percentile_between (a : list R) (p lo hi : R) :
  a <> [] -> 0 <= p <= 1 ->
  (forall x, In x a -> lo <= x <= hi) ->
  exists perc, percentile a (p * 100) = Return perc /\ lo <= perc <= hi.
Proof.
  intros Ha Hp Hb. rewrite percentile_linear by assumption.
  eexists. split; [reflexivity |].
  set (n := length a).
  assert (Hn : (1 <= n)%nat)
    by (subst n; destruct a; [contradiction | cbn; lia]).
  assert (Hn' : 1 <= INR n)
    by (replace 1 with (INR 1) by reflexivity; now apply le_INR).
  set (index := p * (INR n - 1)).
  assert (Hidx : 0 <= index <= INR n - 1) by (subst index; split; nra).
  destruct (floor_index n Hidx) as [Hbelow _].
  set (below := Z.to_nat (Int_part index)) in *.
  set (above := Nat.min (below + 1) (n - 1)).
  assert (Habove : (above < n)%nat) by (subst above; lia).
  assert (Hin : forall m, (m < n)%nat -> lo <= nth m (sort a) 0 <= hi).
  { intros m Hm. apply Hb.
    eapply Permutation_in; [symmetry; apply sort_perm |].
    apply nth_In.
    now rewrite <- (Permutation_length (sort_perm a)). }
  pose proof (Hin below Hbelow) as Hi. pose proof (Hin above Habove) as Hj.
  destruct (base_fp index) as [Hf0 Hf1].
  set (f := frac_part index) in *.
  set (i := nth below (sort a) 0) in *. set (j := nth above (sort a) 0) in *.
  split; nra.
Qed.

(** X15.  Bounds of the estimate: when every terminal price is between
    [lo] and [hi], the value at risk is between [max (p0 - hi) 0] and
    [max (p0 - lo) 0], for every confidence level from 0 to 1; so it is 0
    when no trial ends below the initial price. *)
Theorem estimate_bounds (p0 : R) (path_array : list (list R)) (days : Z)
    (c lo hi : R) (t_returns : list R) :
  row path_array days = Return t_returns -> t_returns <> [] ->
  0 <= c <= 1 ->
  (forall x, In x t_returns -> lo <= x <= hi) ->
  exists v,
    estimate p0 path_array days c = Return v /\
    Rmax (p0 - hi) 0 <= v <= Rmax (p0 - lo) 0 /\
    (p0 <= lo -> v = 0).
Proof.
  intros Hrow Hne Hc Hb.
  destruct (@percentile_between t_returns (1 - c) lo hi Hne ltac:(lra) Hb)
    as (perc & Hperc & Hlo & Hhi).
  exists (Rmax (p0 - perc) 0). split; [| split].
  - unfold estimate. rewrite Hrow. cbn [bind]. now rewrite Hperc.
  - unfold Rmax. repeat destruct (Rle_dec _ _); lra.
  - intros H. unfold Rmax. destruct (Rle_dec _ _); lra.
Qed.

Lemma estimate_bounds_witness :
  exists v,
    estimate 100 [[100; 100; 100]; [90; 120; 105]] 1 (95 / 100) = Return v /\
    Rmax (100 - 120) 0 <= v <= Rmax (100 - 90) 0 /\
    (100 <= 90 -> v = 0).
Proof.
  apply (@estimate_bounds 100 [[100; 100; 100]; [90; 120; 105]] 1%Z
           (95 / 100) 90 120 [90; 120; 105]).
  - reflexivity.
  - discriminate.
  - lra.
  - intros x [<- | [<- | [<- | []]]]; lra.
Defined.

End EstimatorMore.

(** ** More on the calibration *)

Section CalibrationMore.

Import Calibration.
Local Open Scope R_scope.

Lemma signed_inf_scale (k p : R) : 0 < k -> signed_inf (k * p) = signed_inf p.
Proof.
  intros Hk. unfold signed_inf.
  destruct (Rlt_dec 0 (k * p)), (Rlt_dec 0 p); try reflexivity; try nra.
  destruct (Rlt_dec (k * p) 0), (Rlt_dec p 0); try reflexivity; nra.
Qed.

Lemma fdiv_scale (k p q : R) :
  0 < k -> fdiv (Fin (k * p)) (Fin (k * q)) = fdiv (Fin p) (Fin q).
Proof.
  intros Hk. unfold fdiv.
  destruct (Req_dec_T (k * q) 0) as [E | E], (Req_dec_T q 0) as [E' | E'].
  - now apply signed_inf_scale.
  - exfalso. apply E'. nra.
  - exfalso. apply E. rewrite E'. ring.
  - f_equal. field. split; lra.
Qed.

Lemma pct_change_from_scale (k prev : R) (l : list R) :
  0 < k ->
  pct_change_from (k * prev) (map (Rmult k) l) = pct_change_from prev l.
Proof.
  intros Hk. revert prev. induction l as [| p l IH]; intros prev;
    [reflexivity |].
  cbn [map pct_change_from]. now rewrite fdiv_scale, IH.
Qed.

Lemma last_scale (k : R) (l : list R) (p : R) :
  last (map (Rmult k) l) (k * p) = k * last l p.
Proof.
  revert p. induction l as [| q l IH]; intros p; [reflexivity |].
  cbn [map]. destruct l as [| q' l]; [reflexivity |].
  change (last (k * q :: map (Rmult k) (q' :: l)) (k * p))
    with (last (map (Rmult k) (q' :: l)) (k * p)).
  change (last (q :: q' :: l) p) with (last (q' :: l) p).
  apply IH.
Qed.

(** X17.  Calibration sees ratios of prices only: multiplying every price
    of the series by one positive factor (another currency, a split
    adjustment) multiplies the initial price by it and leaves the drift and
    the volatility as they were, and a series that fails to calibrate still
    fails. *)
Theorem calibrate_scale (k : R) (data : list R) :
  0 < k ->
  calibrate (map (Rmult k) data)
  = match calibrate data with
    | Return (p0, mu, sig) => Return (fmul (Fin k) p0, mu, sig)
    | Raise e => Raise e
    end.
Proof.
  intros Hk. destruct data as [| p l]; [reflexivity |].
  unfold calibrate. cbn [map pct_change iloc_last bind].
  rewrite pct_change_from_scale by exact Hk.
  now rewrite last_scale.
Qed.

Lemma calibrate_scale_witness :
  calibrate (map (Rmult 2) [100; 110; 121])
  = match calibrate [100; 110; 121] with
    | Return (p0, mu, sig) => Return (fmul (Fin 2) p0, mu, sig)
    | Raise e => Raise e
    end.
Proof.
  apply (@calibrate_scale 2 [100; 110; 121]). lra.
Defined.

Lemma repeat_returns (c : R) (n : nat) :
  c <> 0 ->
  map (fun x => flog (fsub (Fin 1) x)) (pct_change_from c (repeat c n))
  = map Fin (repeat 0 n).
Proof.
  intros Hc. induction n as [| n IH]; [reflexivity |].
  cbn [repeat pct_change_from map]. rewrite IH. f_equal.
  rewrite fdiv_Fin by exact Hc. cbn [fsub fopp fadd flog].
  replace (1 + - (c / c + - (1))) with 1 by (field; exact Hc).
  destruct (Rlt_dec 0 1); [| lra]. now rewrite ln_1.
Qed.

Lemma Rsum_repeat_0 (n : nat) : Rsum (repeat 0 n) = 0.
Proof.
  induction n as [| n IH]; [reflexivity |].
  cbn [repeat]. rewrite Rsum_cons, IH. lra.
Qed.

(** X18.  A price that does not move calibrates to no drift and no
    volatility: on a series of three observations or more that are all the
    same price, not zero, the mean and the standard deviation of the returns
    are 0. *)
Theorem calibrate_flat (c : R) (n : nat) :
  c <> 0 -> (3 <= n)%nat ->
  calibrate (repeat c n) = Return (Fin c, Fin 0, Fin 0).
Proof.
  intros Hc Hn. destruct n as [| [| [| n]]]; try lia.
  unfold calibrate.
  change (repeat c (S (S (S n)))) with (c :: repeat c (S (S n))).
  cbn [pct_change map iloc_last bind].
  rewrite repeat_returns by exact Hc.
  change (flog (fsub (Fin 1) NaN)) with NaN.
  change (repeat 0 (S (S n))) with (0 :: repeat 0 (S n)).
  rewrite mean_Fin, std_Fin.
  assert (Hm : sample_mean (0 :: repeat 0 (S n)) = 0).
  { unfold sample_mean. rewrite Rsum_cons, Rsum_repeat_0.
    unfold Rdiv. ring. }
  assert (Hs : sum_sq_dev (0 :: repeat 0 (S n)) = 0).
  { unfold sum_sq_dev. rewrite Hm.
    change (0 :: repeat 0 (S n)) with (repeat 0 (S (S n))).
    rewrite (map_ext_in _ (fun _ => 0))
      by (intros x Hx; apply repeat_spec in Hx; subst x; ring).
    rewrite map_const, repeat_length. apply Rsum_repeat_0. }
  rewrite Hm, Hs.
  assert (Hl : last (repeat c (S (S n))) c = c).
  { clear. induction (S n) as [| m IH]; [reflexivity |].
    change (repeat c (S (S m))) with (c :: repeat c (S m)).
    now rewrite last_cons in *. }
  rewrite Hl.
  change (length (0 :: repeat 0 (S n))) with (S (length (repeat 0 (S n)))).
  rewrite repeat_length, S_INR.
  replace (INR (S n) + 1 - 1) with (INR (S n)) by lra.
  rewrite fdiv_Fin by apply INR_S_neq_0.
  unfold fsqrt. replace (0 / INR (S n)) with 0 by (unfold Rdiv; ring).
  destruct (Rlt_dec 0 0); [lra |]. now rewrite sqrt_0.
Qed.

Lemma calibrate_flat_witness :
  calibrate (repeat 100 4) = Return (Fin 100, Fin 0, Fin 0).
Proof.
  apply (@calibrate_flat 100 4); [lra | lia].
Defined.

End CalibrationMore.

(** ** More on the historical end date *)

Section WidgetMore.

Import Calendar Widgets.
Local Open Scope Z_scope.

(** The [if] / [elif] that opens the slots: the date snapped forward. *)
Lemma snap_elif (d : date) :
  valid d ->
  (if weekday d =? 5 then add_days d 2
   else if weekday d =? 6 then add_days d 1 else Return d)
  = Return (nextBusinessDay d).
Proof.
  intros Hv. pose proof (nextBusinessDay_valid Hv) as Hn.
  unfold nextBusinessDay, valid in *.
  destruct (weekday d =? 5); [now rewrite add_days_ok by lia |].
  destruct (weekday d =? 6); [now rewrite add_days_ok by lia |].
  reflexivity.
Qed.

Lemma bound_inside (w : HistWindowSelect) (d : date) :
  deEnd_minimum w <= d <= deEnd_maximum w -> bound w d = d.
Proof.
  intros H. unfold bound.
  destruct (Z.ltb_spec d (deEnd_minimum w)); [lia |].
  destruct (Z.ltb_spec (deEnd_maximum w) d); [lia | reflexivity].
Qed.

Lemma bound_above (w : HistWindowSelect) (d : date) :
  deEnd_minimum w <= deEnd_maximum w -> deEnd_maximum w < d ->
  bound w d = deEnd_maximum w.
Proof.
  intros Hr H. unfold bound.
  destruct (Z.ltb_spec d (deEnd_minimum w)); [lia |].
  destruct (Z.ltb_spec (deEnd_maximum w) d); [reflexivity | lia].
Qed.

(** The slot when the snapped date, bounded to the range, is the date the
    widget already has: nothing is stored and the snapped date is emitted. *)
Lemma onEndDateChange_stays (fuel : nat) (w : HistWindowSelect) :
  (1 <= fuel)%nat -> valid (deEnd w) ->
  bound w (nextBusinessDay (deEnd w)) = deEnd w ->
  onEndDateChange fuel w
  = Some (Return (emit (nextBusinessDay (deEnd w)) w)).
Proof.
  intros Hf Hv Hb. destruct fuel as [| fuel]; [lia |].
  cbn [onEndDateChange]. rewrite (snap_elif Hv). cbn [pbind].
  unfold deEnd_setValue. rewrite Hb, Z.eqb_refl. reflexivity.
Qed.

(** X19.  [HistWindowSelect.onEndDateChange] always announces a business
    day: it emits [end_signal] with the end date snapped forward, once when
    the date of the widget is left as it is and twice when the slot changed
    it (the change enters the slot again).  The widget itself moves to the
    snapped date only when its maximum allows: an end date on a weekend
    whose Monday is after the maximum stays on the weekend. *)
Theorem onEndDateChange_announces (fuel : nat) (w : HistWindowSelect) :
  valid (deEnd w) ->
  deEnd_minimum w <= deEnd w <= deEnd_maximum w ->
  (2 <= fuel)%nat ->
  let m := nextBusinessDay (deEnd w) in
  exists w',
    onEndDateChange fuel w = Some (Return w') /\
    business m /\
    deEnd w' = Z.min m (deEnd_maximum w) /\
    end_signal w'
    = end_signal w ++ (if deEnd w' =? deEnd w then [m] else [m; m]) /\
    deStart w' = deStart w /\
    deEnd_minimum w' = deEnd_minimum w /\
    deEnd_maximum w' = deEnd_maximum w.
Proof.
  intros Hv Hr Hf m.
  pose proof (nextBusinessDay_business (deEnd w)) as Hb.
  pose proof (nextBusinessDay_bounds (deEnd w)) as Hm.
  pose proof (nextBusinessDay_valid Hv) as Hvm.
  fold m in Hb, Hm, Hvm.
  set (v := bound w m).
  assert (Hv' : v = Z.min m (deEnd_maximum w)).
  { unfold v. destruct (Z_le_gt_dec m (deEnd_maximum w)).
    - rewrite bound_inside by lia. lia.
    - rewrite bound_above by lia. lia. }
  destruct (Z.eq_dec v (deEnd w)) as [E | E].
  - (* nothing to store *)
    rewrite onEndDateChange_stays by (try assumption; lia).
    fold m. eexists. split; [reflexivity |].
    cbn [emit deEnd end_signal deStart deEnd_minimum deEnd_maximum].
    rewrite Z.eqb_refl.
    split_all; try reflexivity; try assumption; lia.
  - (* the widget moves to [v] and the slot is entered again *)
    assert (Hvv : valid v) by (unfold valid in *; lia).
    assert (Hnv : nextBusinessDay v = m).
    { destruct (Z_le_gt_dec m (deEnd_maximum w)).
      - replace v with m by lia. unfold nextBusinessDay.
        eqb_cases; try reflexivity; week.
      - assert (v = deEnd w + 1) by lia.
        unfold m, nextBusinessDay in *. eqb_cases; try lia; week. }
    destruct fuel as [| fuel]; [lia |].
    cbn [onEndDateChange]. rewrite (snap_elif Hv). fold m. cbn [pbind].
    unfold deEnd_setValue at 1. fold v.
    destruct (Z.eqb_spec v (deEnd w)); [contradiction |].
    rewrite (@onEndDateChange_stays fuel (with_deEnd v w));
      cbn [with_deEnd deEnd]; try assumption; try lia.
    + rewrite Hnv. cbn [pbind]. eexists. split; [reflexivity |].
      cbn [emit with_deEnd deEnd end_signal deStart deEnd_minimum
             deEnd_maximum].
      destruct (Z.eqb_spec v (deEnd w)); [contradiction |].
      rewrite <- app_assoc.
      split_all; try reflexivity; try assumption; lia.
    + rewrite Hnv. unfold bound.
      cbn [with_deEnd deEnd_minimum deEnd_maximum]. fold (bound w m).
      reflexivity.
Qed.

Lemma onEndDateChange_announces_witness :
  let w := {| deStart := 735599; deEnd := 738891; deEnd_minimum := 735631;
              deEnd_maximum := 738892; end_signal := [] |} in
  let m := nextBusinessDay (deEnd w) in
  exists w',
    onEndDateChange 2 w = Some (Return w') /\
    business m /\
    deEnd w' = Z.min m (deEnd_maximum w) /\
    end_signal w'
    = end_signal w ++ (if deEnd w' =? deEnd w then [m] else [m; m]) /\
    deStart w' = deStart w /\
    deEnd_minimum w' = deEnd_minimum w /\
    deEnd_maximum w' = deEnd_maximum w.
Proof.
  apply (@onEndDateChange_announces 2
           {| deStart := 735599; deEnd := 738891; deEnd_minimum := 735631;
              deEnd_maximum := 738892; end_signal := [] |});
    cbn; unfold valid, MINORD, MAXORD; lia.
Defined.

(** Saturday 2024-01-06 with Sunday 2024-01-07 as the maximum: the widget
    ends on the Sunday and Monday 2024-01-08 is announced twice. *)
Example onEndDateChange_weekend_maximum :
  onEndDateChange 2
    {| deStart := 735599; deEnd := 738891; deEnd_minimum := 735631;
       deEnd_maximum := 738892; end_signal := [] |}
  = Some (Return
      {| deStart := 735599; deEnd := 738892; deEnd_minimum := 735631;
         deEnd_maximum := 738892; end_signal := [738893; 738893] |}).
Proof. reflexivity. Qed.

End WidgetMore.

(** ** The prediction window *)

Section PredWindowFacts.

Import Calendar BusinessCount PredWidgets.
Local Open Scope Z_scope.

(** Five business days out is one week later. *)
Lemma getWeekdaysOut_week (d : date) :
  valid d -> d + 17 <= MAXORD ->
  getWeekdaysOut d 5 = Return (nextBusinessDay d + 7).
Proof.
  intros Hv Hhi.
  pose proof (@steps_out_fit d 5 ltac:(lia) ltac:(lia)) as Hfit.
  rewrite getWeekdaysOut_steps by (try assumption; lia). f_equal.
  pose proof (nextBusinessDay_business d) as Hb.
  rewrite steps_out_closed by exact Hb.
  change (Z.of_nat (Z.to_nat 5)) with 5. week.
Qed.

Lemma business_upto_mono (a b : date) :
  a <= b -> business_upto a <= business_upto b.
Proof. intros H. unfold business_upto. week. Qed.

Lemma pred_bound_inside (lo hi d : date) : lo <= d <= hi -> bound lo hi d = d.
Proof.
  intros H. unfold bound.
  destruct (Z.ltb_spec d lo); [lia |].
  destruct (Z.ltb_spec hi d); [lia | reflexivity].
Qed.

(** The slot of [deEnd] on a business day inside the range changes
    nothing. *)
Lemma pred_onEndDateChange_business (fuel : nat) (w : PredWindowSelect) :
  (1 <= fuel)%nat -> business (deEnd w) -> valid (deEnd w) ->
  deEnd_minimum w <= deEnd w <= deEnd_maximum w ->
  onEndDateChange fuel w = Some (Return w).
Proof.
  intros Hf Hb Hv Hr. destruct fuel as [| fuel]; [lia |].
  cbn [onEndDateChange].
  destruct (Z.eqb_spec (weekday (deEnd w)) 5); [week |].
  destruct (Z.eqb_spec (weekday (deEnd w)) 6); [week |].
  cbn [pbind]. unfold deEnd_setValue.
  now rewrite pred_bound_inside, Z.eqb_refl by lia.
Qed.

(** What [setEndDateMinimum] leaves behind. *)
Lemma pred_setEndDateMinimum_result (fuel : nat) (w : PredWindowSelect) :
  (1 <= fuel)%nat ->
  Widgets.QDATETIMEEDIT_DATE_MIN <= deStart w -> deStart w + 17 <= MAXORD ->
  deEnd w <= deEnd_maximum w ->
  let floor := nextBusinessDay (deStart w) + 7 in
  let hi := if floor <? deEnd_maximum w then deEnd_maximum w else floor in
  setEndDateMinimum fuel w
  = Some (Return (with_deEnd (Z.max (deEnd w) floor)
                    (with_deEnd_range floor hi w))).
Proof.
  intros Hf Hlo Hhi Hin floor hi.
  assert (Hv : valid (deStart w))
    by (unfold valid, Widgets.QDATETIMEEDIT_DATE_MIN, MINORD in *; lia).
  pose proof (nextBusinessDay_bounds (deStart w)) as Hn.
  pose proof (nextBusinessDay_business (deStart w)) as Hb.
  assert (Hbf : business floor) by (unfold floor; week).
  assert (Hvf : valid floor) by (unfold valid, floor in *; lia).
  assert (Hhi' : floor <= hi /\ deEnd_maximum w <= hi)
    by (unfold hi; destruct (Z.ltb_spec floor (deEnd_maximum w)); lia).
  unfold setEndDateMinimum. rewrite getWeekdaysOut_week by assumption.
  fold floor. cbn [pbind]. unfold deEnd_setMinimumDateTime.
  destruct (Z.leb_spec Widgets.QDATETIMEEDIT_DATE_MIN floor) as [_ | Hq];
    [| unfold floor in *; lia].
  fold hi. unfold deEnd_setValue at 1.
  cbn [with_deEnd_range deEnd deEnd_minimum deEnd_maximum].
  destruct (Z_lt_ge_dec (deEnd w) floor) as [Hlt | Hge].
  - replace (bound floor hi (deEnd w)) with floor
      by (unfold bound; destruct (Z.ltb_spec (deEnd w) floor); [| lia];
          destruct (Z.ltb_spec hi floor); [lia | reflexivity]).
    destruct (Z.eqb_spec floor (deEnd w)); [lia |].
    rewrite pred_onEndDateChange_business;
      cbn [with_deEnd with_deEnd_range deEnd deEnd_minimum deEnd_maximum];
      try assumption; try lia.
    cbn [pbind with_deEnd deEnd]. rewrite Z.ltb_irrefl.
    now replace (Z.max (deEnd w) floor) with floor by lia.
  - rewrite pred_bound_inside by lia. rewrite Z.eqb_refl.
    cbn [pbind with_deEnd_range deEnd].
    destruct (Z.ltb_spec (deEnd w) floor); [lia |].
    replace (Z.max (deEnd w) floor) with (deEnd w) by lia.
    reflexivity.
Qed.

(** X20.  The prediction window after the historical end date was sent to
    it: [setStart] stores the date, the minimum of the end date becomes the
    snapped start plus 7 days (five business days out), the end date is
    raised to it if it was below and is left alone otherwise, and
    [getNumDays] on the window returns a horizon of 5 days or more: the
    loop of [getNumDays] is never entered with an end before the start. *)
Theorem setStart_window (fuel : nat) (date : date) (w : PredWindowSelect) :
  (1 <= fuel)%nat ->
  Widgets.QDATETIMEEDIT_DATE_MIN <= date -> date + 17 <= MAXORD ->
  deStart_minimum w <= date <= deStart_maximum w ->
  date <> deStart w ->
  deEnd w <= deEnd_maximum w -> deEnd_maximum w <= MAXORD ->
  let floor := nextBusinessDay date + 7 in
  exists w',
    setStart fuel date w = Some (Return w') /\
    deStart w' = date /\
    deEnd_minimum w' = floor /\
    deEnd w' = Z.max (deEnd w) floor /\
    exists n, 5 <= n /\
      forall fuel', (Z.to_nat (deEnd w' - nextBusinessDay date) <= fuel')%nat ->
        getNumDays fuel' w' = Some (Return n).
Proof.
  intros Hf Hlo Hhi Hr Hne Hin Hmax floor.
  unfold setStart. rewrite pred_bound_inside by lia.
  destruct (Z.eqb_spec date (deStart w)); [contradiction |].
  rewrite pred_setEndDateMinimum_result;
    cbn [with_deStart deStart deEnd deEnd_maximum]; try assumption.
  fold floor. eexists. split; [reflexivity |].
  cbn [with_deEnd with_deEnd_range with_deStart deStart deEnd deEnd_minimum].
  split_all; try reflexivity.
  set (e := Z.max (deEnd w) floor).
  assert (Hv : valid date)
    by (unfold valid, Widgets.QDATETIMEEDIT_DATE_MIN, MINORD in *; lia).
  pose proof (nextBusinessDay_bounds date) as Hn.
  exists (business_upto e - business_upto (nextBusinessDay date)). split.
  - pose proof (@business_upto_mono floor e ltac:(lia)).
    assert (business_upto floor = business_upto (nextBusinessDay date) + 5)
      by (unfold floor, business_upto; week).
    lia.
  - intros fuel' Hf'. unfold getNumDays.
    cbn [with_deEnd with_deEnd_range with_deStart deStart deEnd].
    fold e. apply getNumDays_counts; try assumption;
      unfold valid, e, floor in *; lia.
Qed.

Lemma setStart_window_witness :
  let w := {| deStart := 730120; deStart_minimum := 639797;
              deStart_maximum := 3652059; deEnd := 730120;
              deEnd_minimum := 639797; deEnd_maximum := 3652059 |} in
  let floor := nextBusinessDay 738891 + 7 in
  exists w',
    setStart 1 738891 w = Some (Return w') /\
    deStart w' = 738891 /\
    deEnd_minimum w' = floor /\
    deEnd w' = Z.max (deEnd w) floor /\
    exists n, 5 <= n /\
      forall fuel',
        (Z.to_nat (deEnd w' - nextBusinessDay 738891%Z) <= fuel')%nat ->
        getNumDays fuel' w' = Some (Return n).
Proof.
  apply (@setStart_window 1 738891
           {| deStart := 730120; deStart_minimum := 639797;
              deStart_maximum := 3652059; deEnd := 730120;
              deEnd_minimum := 639797; deEnd_maximum := 3652059 |});
    cbn; unfold Widgets.QDATETIMEEDIT_DATE_MIN, MAXORD; lia.
Defined.

(** The historical end date Saturday 2024-01-06 sent to a fresh widget: the
    end date goes to Monday 2024-01-15, five business days after Monday
    2024-01-08. *)
Example setStart_fresh :
  (w <~ setStart 1 738891
          {| deStart := 730120; deStart_minimum := 639797;
             deStart_maximum := 3652059; deEnd := 730120;
             deEnd_minimum := 639797; deEnd_maximum := 3652059 |} ;;
   getNumDays 9 w)
  = Some (Return 5).
Proof. reflexivity. Qed.

End PredWindowFacts.

(** ** The historical start date *)

Section HistStartFacts.

Import Calendar BusinessCount Widgets HistStart.
Local Open Scope Z_scope.

(** What [setEndDateMinimum] leaves behind. *)
Lemma setEndDateMinimum_result (fuel : nat) (w : HistWindowSelect) :
  (1 <= fuel)%nat ->
  deStart_minimum <= deStart w -> deStart w + 68 <= MAXORD ->
  deEnd w <= deEnd_maximum w ->
  let floor := steps step_out (Z.to_nat 22) (nextBusinessDay (deStart w)) in
  let hi := if floor <? deEnd_maximum w then deEnd_maximum w else floor in
  getWeekdaysOut (deStart w) 22 = Return floor /\
  business floor /\
  nextBusinessDay (deStart w) + 22 <= floor <= deStart w + 68 /\
  setEndDateMinimum fuel w
  = Some (Return (if deEnd w <? floor
                  then emit floor (with_deEnd floor (with_range floor hi w))
                  else with_range floor hi w)).
Proof.
  intros Hf Hlo Hhi Hin floor hi.
  assert (Hv : valid (deStart w))
    by (unfold valid, deStart_minimum, MINORD, MAXORD in *; lia).
  pose proof (@steps_out_fit (deStart w) 22 ltac:(lia) ltac:(lia)) as Hfit.
  pose proof (@getWeekdaysOut_steps (deStart w) 22 Hv ltac:(lia) Hfit) as Hout.
  fold floor in Hfit, Hout.
  assert (Hb : business floor)
    by apply steps_out_business, nextBusinessDay_business.
  assert (Hge : nextBusinessDay (deStart w) + 22 <= floor <= deStart w + 68).
  { pose proof (steps_out_bounds (Z.to_nat 22) (nextBusinessDay (deStart w))).
    pose proof (nextBusinessDay_bounds (deStart w)). unfold floor. lia. }
  pose proof (nextBusinessDay_bounds (deStart w)) as Hn.
  assert (Hvf : valid floor)
    by (unfold valid, deStart_minimum, MINORD in *; lia).
  split; [exact Hout |]. split; [exact Hb |]. split; [exact Hge |].
  destruct fuel as [| fuel]; [lia |].
  assert (Hhi' : floor <= hi /\ deEnd_maximum w <= hi)
    by (unfold hi; destruct (Z.ltb_spec floor (deEnd_maximum w)); lia).
  unfold setEndDateMinimum. rewrite Hout. cbn [pbind].
  unfold deEnd_setMinimumDateTime.
  destruct (Z.leb_spec QDATETIMEEDIT_DATE_MIN floor) as [_ | Hq];
    [| unfold QDATETIMEEDIT_DATE_MIN, deStart_minimum in *; lia].
  fold hi. unfold deEnd_setValue at 1, bound.
  cbn [with_range deEnd deEnd_minimum deEnd_maximum].
  destruct (Z.ltb_spec (deEnd w) floor) as [Hlt | Hnlt].
  - destruct (Z.ltb_spec hi floor); [lia |].
    destruct (Z.eqb_spec floor (deEnd w)); [lia |].
    rewrite onEndDateChange_business;
      cbn [with_deEnd with_range deEnd deEnd_minimum deEnd_maximum];
      try assumption; try lia.
    cbn [pbind emit deEnd]. now rewrite Z.ltb_irrefl.
  - destruct (Z.ltb_spec hi (deEnd w)) as [Hgt | Hngt]; [lia |].
    rewrite Z.eqb_refl. cbn [pbind with_range deEnd].
    destruct (Z.ltb_spec (deEnd w) floor); [lia | reflexivity].
Qed.

(** The same with the floor named by what [getWeekdaysOut] returns. *)
Lemma setEndDateMinimum_settles (fuel : nat) (w : HistWindowSelect) :
  (1 <= fuel)%nat ->
  deStart_minimum <= deStart w -> deStart w + 68 <= MAXORD ->
  deEnd w <= deEnd_maximum w ->
  exists floor,
    getWeekdaysOut (deStart w) 22 = Return floor /\
    setEndDateMinimum fuel w
    = Some (Return
        (if deEnd w <? floor
         then emit floor
                (with_deEnd floor
                   (with_range floor
                      (if floor <? deEnd_maximum w then deEnd_maximum w
                       else floor) w))
         else with_range floor
                (if floor <? deEnd_maximum w then deEnd_maximum w else floor)
                w)).
Proof.
  intros Hf Hlo Hhi Hin.
  destruct (@setEndDateMinimum_result fuel w Hf Hlo Hhi Hin)
    as (Hout & _ & _ & Hset).
  eexists. split; [exact Hout | exact Hset].
Qed.

Lemma deStart_bound_inside (h : HistWindow) (d : date) :
  deStart_lower h <= d <= deStart_upper h -> deStart_bound h d = d.
Proof.
  intros H. unfold deStart_bound.
  destruct (Z.ltb_spec d (deStart_lower h)); [lia |].
  destruct (Z.ltb_spec (deStart_upper h) d); [lia | reflexivity].
Qed.

(** The slot on a start date that is a business day inside the range: the
    date stays and the end date gets its floor. *)
Lemma onStartDateChange_business (fuel : nat) (h : HistWindow) :
  business (deStart (widget h)) -> valid (deStart (widget h)) ->
  deStart_lower h <= deStart (widget h) <= deStart_upper h ->
  onStartDateChange (S fuel) h
  = (w <~ setEndDateMinimum fuel (widget h) ;;
     Some (Return (with_widget w h))).
Proof.
  intros Hb Hv Hr. cbn [onStartDateChange].
  destruct (Z.eqb_spec (weekday (deStart (widget h))) 5); [week |].
  destruct (Z.eqb_spec (weekday (deStart (widget h))) 6); [week |].
  cbn [pbind]. unfold deStart_setValue.
  rewrite deStart_bound_inside by lia. rewrite Z.eqb_refl. reflexivity.
Qed.

(** The slot on a business start date, the end date's floor written out. *)
Lemma onStartDateChange_settled (fuel : nat) (h : HistWindow) :
  (2 <= fuel)%nat ->
  business (deStart (widget h)) ->
  deStart_minimum <= deStart (widget h) ->
  deStart_lower h <= deStart (widget h) <= deStart_upper h ->
  deStart (widget h) + 68 <= MAXORD ->
  deEnd (widget h) <= deEnd_maximum (widget h) ->
  exists floor h',
    getWeekdaysOut (deStart (widget h)) 22 = Return floor /\
    onStartDateChange fuel h = Some (Return h') /\
    deStart (widget h') = deStart (widget h) /\
    deEnd_minimum (widget h') = floor /\
    deEnd (widget h') <= deEnd_maximum (widget h') /\
    deEnd (widget h') = Z.max (deEnd (widget h)) floor /\
    end_signal (widget h')
    = end_signal (widget h)
      ++ (if deEnd (widget h) <? floor then [floor] else []) /\
    deStart_lower h' = deStart_lower h /\ deStart_upper h' = deStart_upper h.
Proof.
  intros Hf Hb Hlo Hr Hhi Hin.
  destruct fuel as [| fuel]; [lia |].
  assert (Hv : valid (deStart (widget h)))
    by (unfold valid, deStart_minimum, MINORD, MAXORD in *; lia).
  rewrite onStartDateChange_business by assumption.
  destruct (@setEndDateMinimum_result fuel (widget h) ltac:(lia) Hlo Hhi Hin)
    as (Hout & _ & _ & Hset).
  rewrite Hset. cbn [pbind].
  eexists. eexists. split; [exact Hout |]. split; [reflexivity |].
  set (floor := steps step_out (Z.to_nat 22)
                  (nextBusinessDay (deStart (widget h)))).
  destruct (Z.ltb_spec (deEnd (widget h)) floor) as [Hlt | Hge];
    destruct (Z.ltb_spec floor (deEnd_maximum (widget h)));
    cbn [with_widget widget emit with_deEnd with_range deStart deEnd
         deEnd_minimum deEnd_maximum end_signal deStart_lower deStart_upper];
    split_all; try reflexivity; try lia.
  all: now rewrite app_nil_r.
Qed.

(** X21. Changing the historical start date: the start moves off a weekend
    to the Monday after, the end date's floor is 22 business days after it,
    the end date is raised to the floor when it was earlier and is announced
    once in that case. *)
Theorem onStartDateChange_window (fuel : nat) (h : HistWindow) :
  (3 <= fuel)%nat ->
  deStart_minimum <= deStart_lower h ->
  deStart_lower h <= deStart (widget h) <= deStart_upper h ->
  business (deStart_upper h) -> deStart_upper h + 68 <= MAXORD ->
  deEnd (widget h) <= deEnd_maximum (widget h) ->
  let s := nextBusinessDay (deStart (widget h)) in
  exists floor h',
    getWeekdaysOut s 22 = Return floor /\
    onStartDateChange fuel h = Some (Return h') /\
    deStart (widget h') = s /\ business s /\
    deEnd_minimum (widget h') = floor /\
    deEnd (widget h') = Z.max (deEnd (widget h)) floor /\
    end_signal (widget h')
    = end_signal (widget h)
      ++ (if deEnd (widget h) <? floor then [floor] else []).
Proof.
  intros Hf Hmin Hr Hbu Hhi Hin s.
  pose proof (nextBusinessDay_business (deStart (widget h))) as Hbs.
  pose proof (nextBusinessDay_bounds (deStart (widget h))) as Hsb.
  pose proof (nextBusinessDay_mono (proj2 Hr)) as Hsu.
  assert (Hnu : nextBusinessDay (deStart_upper h) = deStart_upper h)
    by (unfold nextBusinessDay; eqb_cases; try reflexivity; week).
  rewrite Hnu in Hsu. fold s in Hbs, Hsb, Hsu.
  destruct (Z.eq_dec s (deStart (widget h))) as [Heq | Hne].
  - rewrite Heq in *.
    destruct (@onStartDateChange_settled fuel h ltac:(lia) Hbs ltac:(lia)
                Hr ltac:(lia) Hin)
      as (floor & h' & Hout & Hrun & Hst & Hfl & _ & Hend & Hsig & _).
    exists floor, h'. split_all; assumption.
  - destruct fuel as [| fuel]; [lia |].
    assert (Hv : valid (deStart (widget h)))
      by (unfold valid, deStart_minimum, MINORD, MAXORD in *; lia).
    cbn [onStartDateChange]. rewrite (snap_elif Hv). fold s. cbn [pbind].
    unfold deStart_setValue. rewrite deStart_bound_inside by lia.
    destruct (Z.eqb_spec s (deStart (widget h))) as [E | _]; [contradiction |].
    assert (Hfuel : (2 <= fuel)%nat) by lia.
    assert (Hs1 : deStart_minimum <= s) by lia.
    assert (Hs2 : deStart_lower h <= s <= deStart_upper h) by lia.
    assert (Hs3 : s + 68 <= MAXORD) by lia.
    destruct (@onStartDateChange_settled fuel (with_deStart s h)
                Hfuel Hbs Hs1 Hs2 Hs3 Hin)
      as (floor & h2 & Hout & Hrun & Hst & Hfl & Hfm & Hend & Hsig & Hl & Hu).
    cbn [with_deStart with_widget widget deStart deEnd end_signal
         deStart_lower deStart_upper] in Hout, Hst, Hend, Hsig, Hl, Hu.
    rewrite Hrun. cbn [pbind].
    assert (Hfuel1 : (1 <= fuel)%nat) by lia.
    assert (Ht1 : deStart_minimum <= deStart (widget h2)) by lia.
    assert (Ht2 : deStart (widget h2) + 68 <= MAXORD) by lia.
    destruct (@setEndDateMinimum_settles fuel (widget h2) Hfuel1 Ht1 Ht2 Hfm)
      as (floor2 & Hout2 & Hset).
    rewrite Hst, Hout in Hout2. injection Hout2 as Hfloor. subst floor2.
    rewrite Hset. cbn [pbind].
    destruct (Z.ltb_spec (deEnd (widget h2)) floor) as [Hlt | _]; [lia |].
    exists floor. eexists. split; [exact Hout |]. split; [reflexivity |].
    cbn [with_widget widget with_range deStart deEnd deEnd_minimum end_signal].
    split_all; try reflexivity; assumption.
Qed.

Lemma onStartDateChange_window_witness :
  exists floor h',
    getWeekdaysOut 738893 22 = Return floor /\
    onStartDateChange 3
      {| widget := {| deStart := 738891; deEnd := 738900;
                      deEnd_minimum := 738000; deEnd_maximum := 739000;
                      end_signal := [] |};
         deStart_lower := 735599; deStart_upper := 738960 |}
    = Some (Return h') /\
    deStart (widget h') = 738893 /\ business 738893 /\
    deEnd_minimum (widget h') = floor /\
    deEnd (widget h') = Z.max 738900 floor /\
    end_signal (widget h') = (if 738900 <? floor then [floor] else []).
Proof.
  apply (@onStartDateChange_window 3
    {| widget := {| deStart := 738891; deEnd := 738900;
                    deEnd_minimum := 738000; deEnd_maximum := 739000;
                    end_signal := [] |};
       deStart_lower := 735599; deStart_upper := 738960 |});
    cbn; unfold deStart_minimum, MAXORD; try lia; week.
Defined.

(** A Saturday start with the end date two weeks later: the start becomes
    the Monday, the end date is moved to 22 business days after it and
    announced. *)
Example onStartDateChange_saturday :
  onStartDateChange 3
    {| widget := {| deStart := 738891; deEnd := 738900;
                    deEnd_minimum := 738000; deEnd_maximum := 739000;
                    end_signal := [] |};
       deStart_lower := 735599; deStart_upper := 738960 |}
  = Some (Return
      {| widget := {| deStart := 738893; deEnd := 738923;
                      deEnd_minimum := 738923; deEnd_maximum := 739000;
                      end_signal := [738923] |};
         deStart_lower := 735599; deStart_upper := 738960 |}).
Proof. vm_compute. reflexivity. Qed.

End HistStartFacts.

(** ** The rank in binary64 arithmetic *)

Section RankFacts.

Import VaR.
Local Open Scope R_scope.

Lemma powerRZ_2_nonneg (j : Z) : (0 <= j)%Z -> powerRZ 2 j = IZR (2 ^ j).
Proof.
  intros H. rewrite <- (Z2Nat.id j H).
  rewrite <- pow_powerRZ, pow_IZR. reflexivity.
Qed.

(** Above 1 the next number of the format is [1 + 2 ^ -52]. *)
Lemma representable_above_one (x : R) :
  Binary64.representable x -> 1 < x -> 1 + / 2 ^ 52 <= x.
Proof.
  intros (m & e & Hm & He & ->) Hx.
  change (2 ^ 53)%Z with 9007199254740992%Z in Hm.
  assert (Hp : 0 < powerRZ 2 e) by (apply powerRZ_lt; lra).
  destruct (Z_le_gt_dec (-52) e) as [Hge | Hlt].
  - assert (E : powerRZ 2 e = IZR (2 ^ (e + 52)) * / 2 ^ 52).
    { replace e with ((e + 52) + (-52))%Z at 1 by lia.
      rewrite powerRZ_add by lra. rewrite powerRZ_2_nonneg by lia.
      reflexivity. }
    rewrite E in Hx |- *. rewrite <- Rmult_assoc, <- mult_IZR in Hx |- *.
    set (N := (m * 2 ^ (e + 52))%Z) in *.
    assert (HN : (4503599627370496 < N)%Z) by (apply lt_IZR; lra).
    assert (HN' : IZR 4503599627370497 <= IZR N) by (apply IZR_le; lia).
    lra.
  - exfalso.
    assert (Hinv : powerRZ 2 e * IZR (2 ^ (- e)) = 1).
    { rewrite <- powerRZ_2_nonneg by lia. rewrite <- powerRZ_add by lra.
      replace (e + - e)%Z with 0%Z by lia. reflexivity. }
    set (K := (2 ^ (- e))%Z) in *.
    assert (HK : (9007199254740992 <= K)%Z)
      by (change 9007199254740992%Z with (2 ^ 53)%Z;
          apply Z.pow_le_mono_r; lia).
    assert (HK' : IZR 9007199254740992 <= IZR K) by now apply IZR_le.
    assert (Hm' : IZR K < IZR m).
    { replace (IZR m) with (IZR m * powerRZ 2 e * IZR K)
        by (rewrite Rmult_assoc, Hinv; ring).
      rewrite <- (Rmult_1_l (IZR K)) at 1.
      apply Rmult_lt_compat_r; lra. }
    apply lt_IZR in Hm'. lia.
Qed.

Lemma representable_scaled (m e : Z) :
  (Z.abs m < 2 ^ 53)%Z -> (-1074 <= e <= 971)%Z ->
  Binary64.representable (IZR m * powerRZ 2 e).
Proof. intros Hm He. now exists m, e. Qed.

Lemma nearest_at_one_rounding : Binary64.rounding Binary64.nearest_at_one.
Proof.
  split.
  - intros x y H. unfold Binary64.nearest_at_one.
    destruct (Rle_dec x 1); destruct (Rle_dec y 1);
      destruct (Rle_dec x (1 + / 2 ^ 53));
      destruct (Rle_dec y (1 + / 2 ^ 53));
      destruct (Rlt_dec x (1 + / 2 ^ 52));
      destruct (Rlt_dec y (1 + / 2 ^ 52)); lra.
  - intros x Hx. unfold Binary64.nearest_at_one.
    destruct (Rle_dec x 1) as [| Hgt]; [reflexivity |].
    pose proof (representable_above_one Hx ltac:(lra)).
    destruct (Rle_dec x (1 + / 2 ^ 53)); [lra |].
    destruct (Rlt_dec x (1 + / 2 ^ 52)); [lra | reflexivity].
  - unfold Binary64.nearest_at_one.
    destruct (Rle_dec (1 + / 2 ^ 53) 1); [lra |].
    destruct (Rle_dec (1 + / 2 ^ 53) (1 + / 2 ^ 53)); [reflexivity | lra].
  - intros x Hx. unfold Binary64.nearest_at_one.
    destruct (Rle_dec x 1); [lra |].
    destruct (Rle_dec x (1 + / 2 ^ 53)); [lra |].
    destruct (Rlt_dec x (1 + / 2 ^ 52)); lra.
Qed.

(** The quotient rounded, then the percentile of [VaR]. *)
Lemma percentile_scaled (fl : R -> R) (a : list R) (q : R) :
  Binary64.percentile fl a q = percentile a (fl (q / 100) * 100).
Proof.
  unfold Binary64.percentile, percentile.
  replace (fl (q / 100) * 100 / 100) with (fl (q / 100)) by field.
  reflexivity.
Qed.

(** In increasing order the first value is the smallest and the last one
    the largest. *)
Lemma sorted_ends (s : list R) :
  Sorted Rle s ->
  forall x, In x s -> nth 0 s 0 <= x <= nth (length s - 1) s 0.
Proof.
  intros Hs. apply Sorted_Rle_strong in Hs.
  induction Hs as [| y l Hl IH Hall]; intros x Hx; [contradiction |].
  rewrite Forall_forall in Hall.
  destruct l as [| z l'].
  - destruct Hx as [<- | []]. cbn. lra.
  - assert (Hlast : In (nth (length l') (z :: l') 0) (z :: l'))
      by (apply nth_In; cbn; lia).
    pose proof (Hall _ Hlast) as Hyl.
    replace (length (y :: z :: l') - 1)%nat with (S (length l'))
      by (cbn; lia).
    change (nth (S (length l')) (y :: z :: l') 0)
      with (nth (length l') (z :: l') 0).
    change (nth 0 (y :: z :: l') 0) with y.
    destruct Hx as [<- | Hx]; [lra |].
    specialize (IH x Hx).
    replace (length (z :: l') - 1)%nat with (length l') in IH by (cbn; lia).
    pose proof (Hall x Hx). lra.
Qed.

(** The 100th percentile is the largest value. *)
Lemma percentile_top (a : list R) :
  a <> [] ->
  exists M, percentile a (1 * 100) = Return M /\
            In M a /\ forall x, In x a -> x <= M.
Proof.
  intros Ha. rewrite percentile_linear by (try assumption; lra).
  set (n := length a).
  assert (Hn : (1 <= n)%nat)
    by (subst n; destruct a; [contradiction | cbn; lia]).
  assert (Hlen : length (sort a) = n)
    by (symmetry; apply Permutation_length, sort_perm).
  assert (Hidx : IZR (Z.of_nat (n - 1)) = 1 * (INR n - 1))
    by (rewrite <- INR_IZR_INZ, minus_INR by lia; cbn [INR]; lra).
  assert (Hint : Int_part (1 * (INR n - 1)) = Z.of_nat (n - 1))
    by (symmetry; apply Int_part_spec; lra).
  unfold frac_part. rewrite Hint, Hidx, Nat2Z.id.
  exists (nth (n - 1) (sort a) 0). split; [f_equal; ring |].
  split.
  - eapply Permutation_in; [symmetry; apply sort_perm |].
    apply nth_In. lia.
  - intros x Hx. rewrite <- Hlen.
    apply (sorted_ends (sort_sorted a)).
    eapply Permutation_in; [apply sort_perm | exact Hx].
Qed.

(** The 0th percentile is the smallest value. *)
Lemma percentile_bottom (a : list R) :
  a <> [] ->
  exists m, percentile a (0 * 100) = Return m /\
            In m a /\ forall x, In x a -> m <= x.
Proof.
  intros Ha. rewrite percentile_linear by (try assumption; lra).
  set (n := length a).
  assert (Hn : (1 <= n)%nat)
    by (subst n; destruct a; [contradiction | cbn; lia]).
  assert (Hlen : length (sort a) = n)
    by (symmetry; apply Permutation_length, sort_perm).
  assert (Hint : Int_part (0 * (INR n - 1)) = 0%Z)
    by (symmetry; apply Int_part_spec; cbn; lra).
  unfold frac_part. rewrite Hint. cbn [Z.to_nat].
  exists (nth 0 (sort a) 0). split; [f_equal; ring |].
  split.
  - eapply Permutation_in; [symmetry; apply sort_perm |].
    apply nth_In. lia.
  - intros x Hx.
    apply (sorted_ends (sort_sorted a)).
    eapply Permutation_in; [apply sort_perm | exact Hx].
Qed.

(** C8, amended.  The estimation has no check of the confidence level: the
    only failure is numpy's [ValueError] for a rank outside [[0, 100]], and
    the rank is [(1 - c) * 100] as binary64 arithmetic gives it.  For a
    binary64 number [c] it fails for every [c > 1] and for every
    [c < - 2 ^ -53]; it returns a result for every [c] from 0 to 1; at
    [c = 0], and for [c] from [- 2 ^ -53] to 0, where [1 - c] is rounded to
    1, the rank is 100 and the result is the initial price minus the largest
    terminal price, or 0; at [c = 1] the rank is 0 and the result is the
    initial price minus the smallest terminal price, or 0. *)
Theorem estimate_rejects_outside (fl : R -> R) (p0 : R)
    (path_array : list (list R)) (days : Z) (c : R) (t_returns : list R) :
  Binary64.rounding fl -> Binary64.representable c ->
  row path_array days = Return t_returns ->
  (c < - / 2 ^ 53 \/ 1 < c ->
   Binary64.estimate fl p0 path_array days c = Raise ValueError) /\
  (t_returns <> [] -> 0 <= c <= 1 ->
   exists v, Binary64.estimate fl p0 path_array days c = Return v) /\
  (t_returns <> [] -> - / 2 ^ 53 <= c <= 0 ->
   exists M, (In M t_returns /\ forall x, In x t_returns -> x <= M) /\
     Binary64.estimate fl p0 path_array days c = Return (Rmax (p0 - M) 0)) /\
  (t_returns <> [] -> c = 1 ->
   exists m, (In m t_returns /\ forall x, In x t_returns -> m <= x) /\
     Binary64.estimate fl p0 path_array days c = Return (Rmax (p0 - m) 0)).
Proof.
  intros [Hmono Hexact Htie Habove] Hc Hrow.
  assert (H0 : fl 0 = 0).
  { apply Hexact. exists 0%Z, 0%Z. split; [reflexivity |].
    split; [lia | cbn; lra]. }
  assert (H1 : fl 1 = 1).
  { apply Hexact. exists 1%Z, 0%Z. split; [reflexivity |].
    split; [lia | cbn; lra]. }
  assert (H100 : fl 100 = 100).
  { apply Hexact. exists 100%Z, 0%Z. split; [reflexivity |].
    split; [lia | cbn; lra]. }
  assert (Hn52 : fl (- / 2 ^ 52) = - / 2 ^ 52).
  { apply Hexact. exists (-1)%Z, (-52)%Z. split; [reflexivity |].
    split; [lia |]. change (powerRZ 2 (-52)) with (/ 2 ^ 52). lra. }
  assert (Hn59 : fl (- / 2 ^ 59) = - / 2 ^ 59).
  { apply Hexact. exists (-1)%Z, (-59)%Z. split; [reflexivity |].
    split; [lia |]. change (powerRZ 2 (-59)) with (/ 2 ^ 59). lra. }
  assert (Hup : fl (100 + / 2 ^ 46) = 100 + / 2 ^ 46).
  { apply Hexact. exists 7036874417766401%Z, (-46)%Z.
    split; [reflexivity |]. split; [lia |].
    change (powerRZ 2 (-46)) with (/ 2 ^ 46). lra. }
  unfold Binary64.estimate. rewrite Hrow. cbn [bind].
  rewrite percentile_scaled.
  set (a := fl (1 - c)). set (q := fl (a * 100)). set (q' := fl (q / 100)).
  split; [| split; [| split]].
  - intros [Hlow | Hhigh].
    + assert (Ha : 1 + / 2 ^ 52 <= a) by (apply Habove; lra).
      assert (Hq : 100 + / 2 ^ 46 <= q)
        by (rewrite <- Hup; apply Hmono; lra).
      assert (Hq' : 1 + / 2 ^ 52 <= q') by (apply Habove; lra).
      rewrite percentile_outside by (right; lra). reflexivity.
    + pose proof (representable_above_one Hc Hhigh) as Hc'.
      assert (Ha : a <= - / 2 ^ 52) by (rewrite <- Hn52; apply Hmono; lra).
      assert (Hq : q <= - / 2 ^ 52) by (rewrite <- Hn52; apply Hmono; lra).
      assert (Hq' : q' <= - / 2 ^ 59)
        by (rewrite <- Hn59; apply Hmono; lra).
      rewrite percentile_outside by (left; lra). reflexivity.
  - intros Hne Hin.
    assert (Ha : 0 <= a <= 1)
      by (split; [rewrite <- H0 | rewrite <- H1]; apply Hmono; lra).
    assert (Hq : 0 <= q <= 100)
      by (split; [rewrite <- H0 | rewrite <- H100]; apply Hmono; lra).
    assert (Hq' : 0 <= q' <= 1)
      by (split; [rewrite <- H0 | rewrite <- H1]; apply Hmono; lra).
    rewrite percentile_linear by assumption. cbn [bind].
    eexists. reflexivity.
  - intros Hne Hin.
    assert (Ha : a = 1).
    { apply Rle_antisym.
      - rewrite <- Htie. apply Hmono. lra.
      - rewrite <- H1 at 1. apply Hmono. lra. }
    assert (Hq : q = 100)
      by (unfold q; rewrite Ha; replace (1 * 100) with 100 by lra;
          exact H100).
    assert (Hq' : q' = 1)
      by (unfold q'; rewrite Hq; replace (100 / 100) with 1 by lra;
          exact H1).
    rewrite Hq'.
    destruct (percentile_top Hne) as (M & HM & Hin' & Hmax).
    rewrite HM. cbn [bind]. exists M. split; [split; assumption |].
    reflexivity.
  - intros Hne Hin.
    assert (Ha : a = 0)
      by (unfold a; rewrite Hin; replace (1 - 1) with 0 by lra; exact H0).
    assert (Hq : q = 0)
      by (unfold q; rewrite Ha; replace (0 * 100) with 0 by lra; exact H0).
    assert (Hq' : q' = 0)
      by (unfold q'; rewrite Hq; replace (0 / 100) with 0 by lra; exact H0).
    rewrite Hq'.
    destruct (percentile_bottom Hne) as (m & Hm & Hin' & Hmin).
    rewrite Hm. cbn [bind]. exists m. split; [split; assumption |].
    reflexivity.
Qed.

Lemma estimate_rejects_outside_witness :
  Binary64.rounding Binary64.nearest_at_one /\
  Binary64.representable (- / 2 ^ 54) /\
  exists M,
    (In M [105; 90; 120] /\ forall x, In x [105; 90; 120] -> x <= M) /\
    Binary64.estimate Binary64.nearest_at_one 130
      [[130; 130; 130]; [105; 90; 120]] 1 (- / 2 ^ 54)
    = Return (Rmax (130 - M) 0).
Proof.
  assert (Hr : Binary64.representable (- / 2 ^ 54)).
  { exists (-1)%Z, (-54)%Z. split; [reflexivity |]. split; [lia |].
    change (powerRZ 2 (-54)) with (/ 2 ^ 54). lra. }
  split; [exact nearest_at_one_rounding |]. split; [exact Hr |].
  apply (@estimate_rejects_outside Binary64.nearest_at_one 130
           [[130; 130; 130]; [105; 90; 120]] 1%Z (- / 2 ^ 54)
           [105; 90; 120] nearest_at_one_rounding Hr eq_refl);
    [discriminate | lra].
Defined.

End RankFacts.

(** ** The simulation with the special values of floats *)

Section FloatSimulatorFacts.

Import Calibration GBMFloat.
Local Open Scope R_scope.

Variable rng : Type.
Variable rand : rng -> R * rng.
Variable ppf : R -> float.
Variables p0 mu sig : float.

Let after := GBM.after rand.
Let draw := GBM.draw rand.
Let price := GBMFloat.price rand ppf p0 mu sig.
Let path_of := GBMFloat.path_of rand ppf p0 mu sig.

(** The passes of the inner loop after the first one. *)
Lemma float_inner_rest (g : rng) (k t : nat) (path : list float) :
  for_each (map (fun i => (1 + Z.of_nat i)%Z) (seq (S t) k))
    (inner_body rand ppf p0 mu sig)
    (path, Some (price g t), after (S t) g)
  = Return (path ++ map (price g) (seq (S t) k),
            Some (price g (t + k)), after (S t + k) g).
Proof.
  revert t path. induction k as [| k IH]; intros t path.
  - cbn [seq map for_each]. rewrite app_nil_r, !Nat.add_0_r. reflexivity.
  - cbn [seq map for_each]. unfold inner_body at 1.
    destruct (rand (after (S t) g)) as [u g1] eqn:Er.
    destruct (Z.eqb_spec (1 + Z.of_nat (S t)) 1); [lia |].
    cbn [read_local bind].
    assert (Eu : u = draw g (S t))
      by (unfold draw, GBM.draw; fold after; now rewrite Er).
    assert (Eg : g1 = after (S (S t)) g)
      by (unfold after; rewrite (after_S rand (S t)); fold after;
          now rewrite Er).
    rewrite Eu, Eg.
    change (fadd (price g t)
              (fadd (fmul mu (price g t))
                    (fmul (fmul sig (price g t)) (ppf (draw g (S t))))))
      with (price g (S t)).
    rewrite IH. rewrite <- app_assoc. cbn [app].
    replace (S t + k)%nat with (t + S k)%nat by lia.
    now replace (S (S t) + k)%nat with (S t + S k)%nat by lia.
Qed.

(** One trial: [days + 1] prices, as many draws. *)
Lemma float_inner_loop (days : Z) (c : option float) (g : rng) :
  (0 <= days)%Z ->
  for_each (range 1 (days + 2)) (inner_body rand ppf p0 mu sig) ([], c, g)
  = Return (map (price g) (seq 0 (S (Z.to_nat days))),
            Some (price g (Z.to_nat days)),
            after (S (Z.to_nat days)) g).
Proof.
  intros Hd. unfold range.
  replace (Z.to_nat (days + 2 - 1)) with (S (Z.to_nat days)) by lia.
  cbn [seq map for_each]. unfold inner_body at 1.
  destruct (rand g) as [u g1] eqn:Er.
  change (1 + Z.of_nat 0)%Z with 1%Z.
  cbn [Z.eqb Pos.eqb bind app].
  replace g1 with (after 1 g)
    by (unfold after; cbn [GBM.after]; now rewrite Er).
  exact (float_inner_rest g (Z.to_nat days) 0 [p0]).
Qed.

(** The trials: each one starts where the one before left the generator. *)
Lemma float_outer_loop (days : Z) (xs : list Z) (paths : list (list float))
    (c : option float) (g : rng) :
  (0 <= days)%Z ->
  let h := Z.to_nat days in
  exists c',
    for_each xs (outer_body rand ppf p0 mu sig days) (paths, c, g)
    = Return (paths ++ map (fun i => path_of h (after (i * S h) g))
                          (seq 0 (length xs)),
              c', after (length xs * S h) g).
Proof.
  intros Hd h. revert paths c g.
  induction xs as [| x xs IH]; intros paths c g.
  - exists c. cbn. now rewrite app_nil_r.
  - cbn [for_each]. unfold outer_body at 1.
    rewrite float_inner_loop by exact Hd. cbn [bind]. fold h.
    destruct (IH (paths ++ [path_of h g]) (Some (price g h))
                 (after (S h) g)) as [c' E].
    exists c'. change (map (price g) (seq 0 (S h))) with (path_of h g).
    rewrite E. rewrite <- app_assoc. cbn [app length seq map].
    rewrite <- seq_shift, map_map.
    change (after (0 * S h) g) with g.
    replace (S (length xs) * S h)%nat
      with (S h + length xs * S h)%nat by lia.
    unfold after. rewrite after_add. do 4 f_equal.
    f_equal. apply map_ext. intros i.
    replace (S i * S h)%nat with (S h + i * S h)%nat by lia.
    now rewrite after_add.
Qed.

(** [np.hstack] of one column or more, all of one length. *)
Lemma float_hstack_columns (F : nat -> list float) (k len : nat) :
  (forall i, length (F i) = len) ->
  hstack (map F (seq 0 (S k)))
  = Return (map (fun r => map (fun q => nth r q NaN) (map F (seq 0 (S k))))
                (seq 0 len)).
Proof.
  intros HF. unfold hstack.
  change (map F (seq 0 (S k))) with (F 0%nat :: map F (seq 1 k)) at 1.
  cbv iota beta.
  replace (forallb _ (map F (seq 0 (S k)))) with true.
  - now rewrite HF.
  - symmetry. apply forallb_forall. intros q Hq.
    apply in_map_iff in Hq. destruct Hq as (i & <- & _).
    rewrite !HF. apply Nat.eqb_refl.
Qed.

Lemma float_entry_columns (F : nat -> list float) (k len t i : nat) :
  (t < len)%nat -> (i < k)%nat ->
  entry (map (fun r => map (fun q => nth r q NaN) (map F (seq 0 k)))
             (seq 0 len)) t i
  = nth t (F i) NaN.
Proof.
  intros Ht Hi. unfold entry.
  rewrite (nth_map_seq _ _ Ht), map_map.
  now rewrite (nth_map_seq _ _ Hi).
Qed.

(** Every entry of the array is the price of its trial at its step. *)
Lemma float_simulate_entries (trials days : Z) (g : rng) :
  (1 <= trials)%Z -> (0 <= days)%Z ->
  let k := Z.to_nat trials in
  let h := Z.to_nat days in
  exists path_array,
    simulate rand ppf p0 mu sig trials days g
    = Return (path_array, after (k * S h) g) /\
    length path_array = S h /\
    Forall (fun row => length row = k) path_array /\
    forall t i, (t <= h)%nat -> (i < k)%nat ->
      entry path_array t i = price (after (i * S h) g) t.
Proof.
  intros Hk Hd k h.
  set (F := fun i => path_of h (after (i * S h) g)).
  assert (HF : forall i, length (F i) = S h)
    by (intros i; unfold F, path_of, GBMFloat.path_of;
        now rewrite length_map, length_seq).
  assert (Hxs : length (range 0 trials) = k)
    by (unfold range; rewrite length_map, length_seq; subst k; f_equal; lia).
  destruct (@float_outer_loop days (range 0 trials) [] None g Hd) as [c' E].
  fold h in E. rewrite Hxs in E. cbn [app] in E. fold F in E.
  destruct k as [| k'] eqn:Ek; [lia |].
  eexists. split; [| split; [| split]].
  - unfold simulate. rewrite E. cbn [bind].
    rewrite (float_hstack_columns F k' HF). reflexivity.
  - now rewrite length_map, length_seq.
  - apply Forall_forall. intros row Hrow.
    apply in_map_iff in Hrow. destruct Hrow as (r & <- & _).
    now rewrite !length_map, length_seq.
  - intros t i Ht Hi. rewrite float_entry_columns by lia.
    unfold F, path_of, GBMFloat.path_of. now rewrite nth_map_seq by lia.
Qed.

End FloatSimulatorFacts.

(** ** A run without volatility *)

Section ZeroVolatility.

Import Calibration GBMFloat.
Local Open Scope R_scope.

Variable rng : Type.
Variable rand : rng -> R * rng.
Variable ppf : R -> float.

Lemma fadd_NaN_r (x : float) : fadd x NaN = NaN.
Proof. destruct x; reflexivity. Qed.

Lemma signed_inf_zero (a : R) : a = 0 -> signed_inf a = NaN.
Proof.
  intros ->. unfold signed_inf.
  destruct (Rlt_dec 0 0); [lra |]. reflexivity.
Qed.

(** A step with an inverse CDF that is not finite: zero times the price
    times an infinity is NaN, and so is the new price. *)
Lemma step_not_finite (m c e : float) :
  (forall z, e <> Fin z) ->
  fadd c (fadd (fmul m c) (fmul (fmul (Fin 0) c) e)) = NaN.
Proof.
  intros He.
  assert (H : fmul (fmul (Fin 0) c) e = NaN).
  { destruct c as [a | | |]; cbn [fmul];
      rewrite ?signed_inf_zero by lra; try reflexivity.
    destruct e as [z | | |]; [now destruct (He z) | reflexivity ..]. }
  rewrite H, fadd_NaN_r. apply fadd_NaN_r.
Qed.

Lemma price_finite (p0 mu : R) (g : rng) (t : nat) :
  (forall s, (1 <= s <= t)%nat ->
     exists z, ppf (GBM.draw rand g s) = Fin z) ->
  price rand ppf (Fin p0) (Fin mu) (Fin 0) g t = Fin (p0 * (1 + mu) ^ t).
Proof.
  induction t as [| t IH]; intros H.
  - cbn. f_equal. lra.
  - cbn [price]. rewrite IH by (intros s Hs; apply H; lia).
    destruct (H (S t) ltac:(lia)) as [z Hz]. rewrite Hz.
    cbn [fadd fmul]. f_equal. cbn [pow]. ring.
Qed.

Lemma price_not_finite (p0 mu : float) (g : rng) (s t : nat) :
  (1 <= s <= t)%nat ->
  (forall z, ppf (GBM.draw rand g s) <> Fin z) ->
  price rand ppf p0 mu (Fin 0) g t = NaN.
Proof.
  intros [Hs Ht] He. induction t as [| t IH]; [lia |].
  cbn [price].
  destruct (Nat.eq_dec s (S t)) as [E | Hne].
  - rewrite <- E. now apply step_not_finite.
  - rewrite IH by lia. reflexivity.
Qed.




End ZeroVolatility.



(** That run: the draw of 0.0 is the one of step 1 of the first trial, which
    is NaN from there on; the second trial is as without draws. *)
Example zero_draw_spoils_first_trial :
  let rand := fun n : nat => ((if (n =? 1)%nat then 0 else 1 / 2)%R, S n) in
  let ppf := fun u : R =>
    if Req_dec_T u 0 then Calibration.NInf else Calibration.Fin 0 in
  exists path_array g',
    GBMFloat.simulate rand ppf (Calibration.Fin 100)
      (Calibration.Fin (1 / 100)) (Calibration.Fin 0) 2 3 0%nat
    = Return (path_array, g') /\
    GBMFloat.entry path_array 0 0 = Calibration.Fin 100 /\
    GBMFloat.entry path_array 1 0 = Calibration.NaN /\
    GBMFloat.entry path_array 3 0 = Calibration.NaN /\
    GBMFloat.entry path_array 3 1
    = Calibration.Fin (100 * (1 + 1 / 100) ^ 3).
Proof.
  intros rand ppf.
  destruct (@float_simulate_entries nat rand ppf (Calibration.Fin 100)
              (Calibration.Fin (1 / 100)) (Calibration.Fin 0) 2%Z 3%Z 0%nat
              ltac:(lia) ltac:(lia)) as (arr & E & _ & _ & Hent).
  exists arr. eexists. split; [exact E |].
  assert (Hzero : forall r, ppf (GBM.draw rand 0%nat 1) <> Calibration.Fin r).
  { intros r. unfold ppf, GBM.draw, rand. cbn [GBM.after fst snd Nat.eqb].
    destruct (Req_dec_T 0 0); [discriminate | lra]. }
  rewrite !Hent by (cbn; lia).
  change (GBM.after rand (0 * S (Z.to_nat 3)) 0%nat) with 0%nat.
  split; [reflexivity |].
  split; [apply price_not_finite with (s := 1%nat); [lia | exact Hzero] |].
  split; [apply price_not_finite with (s := 1%nat); [lia | exact Hzero] |].
  apply price_finite. intros s Hs. exists 0%R.
  unfold ppf, GBM.draw.
  replace (fst (rand (GBM.after rand s
                        (GBM.after rand (1 * S (Z.to_nat 3)) 0%nat))))
    with (1 / 2)%R.
  - destruct (Req_dec_T (1 / 2) 0); [lra | reflexivity].
  - destruct s as [| [| [| [| s]]]]; try lia; reflexivity.
Qed.
